(** * Multi-agent coordination core: a shallow embedding and its properties

    The development follows the Python sources of the repository:

    - [Lifecycle]      orchestrator/app/agent_lifecycle.py  ([cleanup_stale_agents],
                                                             [stop_agent_process])
    - [Discovery]      agentkit/agentkit/discovery.py       ([discover_agents],
                                                             [find_agent_for_task])
    - [Decomposer]     agentkit/agentkit/base.py            ([decompose_task])
    - [Routing]        orchestrator/app/routing.py          ([extract_mentions])
    - [Collaboration]  agents/assistant/collaboration.py
    - [Worker]         agents/worker_agent.py               ([_handle_natural_conversation])
    - [Base]           agentkit/agentkit/base.py            ([delegate_task], the
                                                             delegation loop of
                                                             [collaborate_on_task],
                                                             [has_action], [get_action])

    Conventions of the embedding.
    - Python [str] is [string]; the character-class functions ([lower],
      [split], [\w]) are modelled on the ASCII range.
    - A Python [dict] whose iteration order is observable is an insertion
      ordered association list ([OrderedDict]); a Python [set] is a [gset].
    - [time.time()] is passed in as an integer number of time units.
    - [self.send_message(topic, payload)] appends to an outbox.
    - The language-model completion call, the process probe [os.kill(pid, 0)],
      the registry query and [hash] are parameters of the sections that use
      them. *)

From Stdlib Require Import ZArith Lia Ascii.
From stdpp Require Import base decidable option list strings gmap pretty.

Set Default Proof Using "Type".

(** ** Python built-ins on ASCII strings *)

Module Py.

(** [str.isspace] on the ASCII range: TAB, LF, VT, FF, CR, FS, GS, RS, US
    and the blank. *)
Definition isspace (c : ascii) : bool :=
  match c with
  | "009" | "010" | "011" | "012" | "013"
  | "028" | "029" | "030" | "031" | " " => true
  | _ => false
  end%char.

Definition isupper (c : ascii) : bool :=
  let n := nat_of_ascii c in (65 <=? n)%nat && (n <=? 90)%nat.

Definition islower (c : ascii) : bool :=
  let n := nat_of_ascii c in (97 <=? n)%nat && (n <=? 122)%nat.

Definition isdigit (c : ascii) : bool :=
  let n := nat_of_ascii c in (48 <=? n)%nat && (n <=? 57)%nat.

(** The class [\w] of the [re] module: letters, digits and underscore. *)
Definition isword (c : ascii) : bool :=
  isupper c || islower c || isdigit c || bool_decide (c = "_"%char).

Definition lower_char (c : ascii) : ascii :=
  if isupper c then ascii_of_nat (nat_of_ascii c + 32) else c.

(** Strings are handled as character lists inside the scanners. *)
Fixpoint chars (s : string) : list ascii :=
  match s with
  | EmptyString => []
  | String c s' => c :: chars s'
  end.

Fixpoint str (l : list ascii) : string :=
  match l with
  | [] => EmptyString
  | c :: l' => String c (str l')
  end.

(** [s.lower()] *)
Definition lower (s : string) : string := str (map lower_char (chars s)).


(** [s.lstrip()], [s.rstrip()] and [s.strip()] *)
Fixpoint lstrip_chars (l : list ascii) : list ascii :=
  match l with
  | c :: l' => if isspace c then lstrip_chars l' else l
  | [] => []
  end.

Definition strip_chars (l : list ascii) : list ascii :=
  rev (lstrip_chars (rev (lstrip_chars l))).

Definition strip (s : string) : string := str (strip_chars (chars s)).

(** [len(s.split())]: the number of maximal runs of non-blank characters.
    [in_word] tells whether the previous character belonged to a word. *)
Fixpoint count_words (in_word : bool) (l : list ascii) : nat :=
  match l with
  | [] => 0
  | c :: l' =>
      if isspace c then count_words false l'
      else (if in_word then 0 else 1) + count_words true l'
  end.

Definition len_split (s : string) : nat := count_words false (chars s).

(** [needle in haystack] *)
Fixpoint startswith (p l : list ascii) : bool :=
  match p, l with
  | [], _ => true
  | a :: p', b :: l' => bool_decide (a = b) && startswith p' l'
  | _ :: _, [] => false
  end.

Fixpoint contains_chars (p l : list ascii) : bool :=
  startswith p l ||
  match l with
  | [] => false
  | _ :: l' => contains_chars p l'
  end.

Definition contains (needle haystack : string) : bool :=
  contains_chars (chars needle) (chars haystack).

(** [s[:n]] *)
Definition slice_to (n : nat) (s : string) : string := str (take n (chars s)).

(** [s.replace(" ", "_")] *)
Definition replace_blank_underscore (s : string) : string :=
  str (map (fun c => if bool_decide (c = " "%char) then "_"%char else c) (chars s)).

(** [s.replace(". ", ".\n")]: leftmost, non-overlapping occurrences. *)
Fixpoint replace_dot_blank (l : list ascii) : list ascii :=
  match l with
  | [] => []
  | c :: l' =>
      if bool_decide (c = "."%char) then
        match l' with
        | " "%char :: l'' => "."%char :: "010"%char :: replace_dot_blank l''
        | _ => c :: replace_dot_blank l'
        end
      else c :: replace_dot_blank l'
  end.

(** Truthiness of an optional string: [None] and [""] are falsy. *)
Definition truthy (o : option string) : bool :=
  match o with
  | Some s => negb (bool_decide (s = ""))
  | None => false
  end.

End Py.

(** ** Insertion-ordered dictionaries

    Python dictionaries iterate in insertion order; assigning to an existing
    key keeps its position, a fresh key goes last, [del] removes the key. *)

Module OrderedDict.
Section Dict.
Context {K V : Type} `{EqDecision K}.

Definition t := list (K * V).

Fixpoint get (k : K) (d : list (K * V)) : option V :=
  match d with
  | [] => None
  | (k', v) :: d' => if decide (k = k') then Some v else get k d'
  end.

(** [d[k] = v] *)
Fixpoint set (k : K) (v : V) (d : list (K * V)) : list (K * V) :=
  match d with
  | [] => [(k, v)]
  | (k', v') :: d' =>
    if decide (k = k') then (k, v) :: d' else (k', v') :: set k v d'
  end.

(** [del d[k]] *)
Fixpoint del (k : K) (d : list (K * V)) : list (K * V) :=
  match d with
  | [] => []
  | (k', v) :: d' =>
    if decide (k = k') then del k d' else (k', v) :: del k d'
  end.

Definition keys (d : list (K * V)) : list K := map fst d.
Definition values (d : list (K * V)) : list V := map snd d.


End Dict.
End OrderedDict.

(** ** Startup reconciliation of persisted agent records
    (orchestrator/app/agent_lifecycle.py) *)

Module Lifecycle.

(** The columns of [models.Agent] read or written by the reconciliation. *)
Record Agent := {
  name : string;
  status : string;
  pid : option Z
  }.

(** [if agent.pid:] holds for a recorded, non-zero pid. *)
Definition recorded_pid (a : Agent) : option Z :=
  match pid a with
  | Some p => if decide (p = 0%Z) then None else Some p
  | None => None
  end.

Section Cleanup.
(** [os_kill_0 p = true] when [os.kill(p, 0)] returns, [false] when it
    raises [OSError] (of which [ProcessLookupError] is a subclass). *)
Variable os_kill_0 : Z -> bool.

(** The body of the loop over the agents persisted as running. *)
Definition reconcile (a : Agent) : Agent :=
  match recorded_pid a with
  | Some p =>
      if os_kill_0 p then a
      else {| name := name a; status := "stopped"; pid := None |}
  | None => {| name := name a; status := "stopped"; pid := pid a |}
  end.

(** [cleanup_stale_agents(db)]: the table after [db.commit()].  The
    query selects the records whose status is ["running"]; the others
    are not touched. *)
Definition cleanup_stale_agents (db : list Agent) : list Agent :=
  map (fun a => if decide (status a = "running") then reconcile a else a) db.

(** The recorded pid answers the zero-signal probe. *)
Definition probes_live (a : Agent) : bool :=
  match recorded_pid a with
  | Some p => os_kill_0 p
  | None => false
  end.

(** What one record becomes, by cases on its persisted state. *)
Definition reconciled (a a' : Agent) : Prop :=
  name a' = name a /\
  if decide (status a = "running") then
  if probes_live a then a' = a else status a' = "stopped"
  else a' = a.

(** The body of the loop together with the counter [cleaned_count],
    which is incremented in the two branches that mark the record as
    stopped. *)
Definition reconcile_counted (a : Agent) (cleaned_count : nat) : Agent * nat :=
  match recorded_pid a with
  | Some p =>
      if os_kill_0 p then (a, cleaned_count)
      else ({| name := name a; status := "stopped"; pid := None |},
            (cleaned_count + 1)%nat)
  | None =>
      ({| name := name a; status := "stopped"; pid := pid a |},
       (cleaned_count + 1)%nat)
  end.

(** The loop over the records the query selects, in the order of the
    table, from the value [cleaned_count] of the counter: the table at
    [db.commit()] and the counter as it is printed. *)
Fixpoint cleanup_loop (db : list Agent) (cleaned_count : nat)
    : list Agent * nat :=
  match db with
  | [] => ([], cleaned_count)
  | a :: db' =>
      if decide (status a = "running") then
        let '(a', cleaned_count) := reconcile_counted a cleaned_count in
        let '(rest, cleaned_count) := cleanup_loop db' cleaned_count in
        (a' :: rest, cleaned_count)
      else
        let '(rest, cleaned_count) := cleanup_loop db' cleaned_count in
        (a :: rest, cleaned_count)
  end.

(** [cleanup_stale_agents(db)] with the number it prints: the counter
    starts at 0. *)
Definition cleanup_stale_agents_counted (db : list Agent) : list Agent * nat :=
  cleanup_loop db 0.
End Cleanup.

(** *** Stopping an agent *)

(** What [os.kill(pid, SIGTERM)] does: it returns, it raises
    [ProcessLookupError], or it raises something else. *)
Inductive KillOutcome :=
  | Signalled
  | NoSuchProcess
  | KillFailed.

(** The dictionary returned by [stop_agent_process]. *)
Inductive StopResult :=
  | Stopped                 (* ok: Agent '{name}' stopped *)
  | ErrorStoppingProcess    (* Error stopping process: ... *)
  | ErrorKillingStalePid    (* Error killing stale PID: ... *)
  | NotFoundInDatabase.     (* Agent '{name}' not found in database *)

(** [db.query(models.Agent).filter(models.Agent.name == agent_name).first()] *)
Definition find_agent (agent_name : string) (db : list Agent) : option Agent :=
  List.find (fun a => bool_decide (name a = agent_name)) db.

(** The table once the record returned by the query has been marked as
    stopped and committed. *)
Fixpoint mark_stopped (agent_name : string) (db : list Agent) : list Agent :=
  match db with
  | [] => []
  | a :: db' =>
      if bool_decide (name a = agent_name)
      then {| name := name a; status := "stopped"; pid := None |} :: db'
      else a :: mark_stopped agent_name db'
  end.

Section Stop.
(** The processes started by this orchestrator are values of [Process];
    [stop_tracked p] tells whether the shutdown of [p] (poll, terminate,
    wait, kill, wait) goes through without an exception. *)
Context {Process : Type}.
Variable stop_tracked : Process -> bool.
Variable os_kill_term : Z -> KillOutcome.

(** The state the function works on: [running_processes] and the table
    of agents. *)
Record Orchestrator := {
  running_processes : list (string * Process);
  agents : list Agent
  }.

(** The last step: the update of the database. *)
Definition update_database (agent_name : string) (w : Orchestrator)
    : StopResult * Orchestrator :=
  match find_agent agent_name (agents w) with
  | Some _ =>
      (Stopped,
       {| running_processes := running_processes w;
          agents := mark_stopped agent_name (agents w) |})
  | None => (NotFoundInDatabase, w)
  end.

(** [stop_agent_process(agent_name, db)] *)
Definition stop_agent_process (agent_name : string) (w : Orchestrator)
    : StopResult * Orchestrator :=
  match OrderedDict.get agent_name (running_processes w) with
  | Some proc_info =>
      if stop_tracked proc_info then
        update_database agent_name
          {| running_processes :=
               OrderedDict.del agent_name (running_processes w);
             agents := agents w |}
      else (ErrorStoppingProcess, w)
  | None =>
      match find_agent agent_name (agents w) with
      | Some db_agent =>
          match recorded_pid db_agent with
          | Some p =>
              if bool_decide (status db_agent = "running") then
                match os_kill_term p with
                | KillFailed => (ErrorKillingStalePid, w)
                | Signalled | NoSuchProcess => update_database agent_name w
                end
              else update_database agent_name w
          | None => update_database agent_name w
          end
      | None => update_database agent_name w
      end
  end.
End Stop.

(** The number of records persisted as running. *)
Definition count_running (db : list Agent) : nat :=
  length (List.filter (fun a => bool_decide (status a = "running")) db).

End Lifecycle.

(** ** Round-robin agent selection (agentkit/agentkit/discovery.py) *)

Module Discovery.

(** The attributes of [AgentDiscovery] used by the selector:
    the keys of [available_agents] in insertion order, and
    [_last_assigned_agent_index], absent until the first selection. *)
Record AgentDiscovery := {
  available_agents : list string;
  _last_assigned_agent_index : option nat
  }.

(** Outcome of a call: a returned value or the exception raised. *)
Inductive outcome (A : Type) :=
  | Returned (a : A)
  | IndexError.
Arguments Returned {A} a.
Arguments IndexError {A}.

(** [discover_agents()] replaces [available_agents] by the agents the
    orchestrator lists ([Some l]), or leaves it as it is when the request
    fails ([None]). *)
Definition discover_agents (fetched : option (list string))
    (d : AgentDiscovery) : AgentDiscovery :=
  match fetched with
  | Some l => {| available_agents := l;
                 _last_assigned_agent_index := _last_assigned_agent_index d |}
  | None => d
  end.

(** [find_agent_for_task(task_description, tags)]; neither argument is
    used by the body.  [fetched] is what the orchestrator would answer to
    a discovery request made by this call. *)
Definition find_agent_for_task (fetched : option (list string))
    (d : AgentDiscovery) : outcome (option string) * AgentDiscovery :=
  let d1 := match available_agents d with
            | [] => discover_agents fetched d
            | _ :: _ => d
            end in
  match available_agents d1 with
  | [] => (Returned None, d1)
  | _ :: _ =>
      let idx := default 0%nat (_last_assigned_agent_index d1) in
      let available_agent_names := available_agents d1 in
      match available_agent_names !! idx with
      | None =>
          (IndexError,
           {| available_agents := available_agents d1;
              _last_assigned_agent_index := Some idx |})
      | Some agent_name =>
          (Returned (Some agent_name),
           {| available_agents := available_agents d1;
              _last_assigned_agent_index :=
                Some ((idx + 1) mod length available_agent_names)%nat |})
      end
  end.

(** Three agents are known; two selections leave the stored index at 2;
  a rediscovery then finds two agents only. *)
Definition three_agents : AgentDiscovery :=
  {| available_agents := ["planner"; "writer"; "reviewer"];
   _last_assigned_agent_index := None |}.

Definition after_two_calls_and_shrink : AgentDiscovery :=
  let d1 := snd (find_agent_for_task None three_agents) in
  let d2 := snd (find_agent_for_task None d1) in
  discover_agents (Some ["planner"; "writer"]) d2.

(** An element of the listing [GET /agents/runbooks]: the name of the
    agent and the names of its capabilities. *)
Record RunbookData := {
  agent_name : string;
  capability_names : list string
  }.

(** The loop of [discover_agents()] over the listing, filling the fresh
    dictionary [acc]: the agent's own entry is skipped, a later entry of
    the same name replaces the runbook and keeps the position.  [None]
    is an entry on which the loop raises (a key is missing); the
    dictionary then stays as filled so far. *)
Fixpoint parse_runbooks (self_name : string)
  (runbooks_data : list (option RunbookData))
  (acc : list (string * list string)) : list (string * list string) :=
  match runbooks_data with
  | [] => acc
  | None :: _ => acc
  | Some agent_data :: rest =>
    if decide (agent_name agent_data = self_name)
    then parse_runbooks self_name rest acc
    else parse_runbooks self_name rest
           (OrderedDict.set (agent_name agent_data)
                            (capability_names agent_data) acc)
  end.

(** What [discover_agents()] leaves in [available_agents], as the keys
    in insertion order, for an answer of the orchestrator; [None] is a
    request that fails or a status other than 200, which happens before
    the dictionary is replaced. *)
Definition fetched_agents (self_name : string)
  (response : option (list (option RunbookData))) : option (list string) :=
  match response with
  | Some runbooks_data =>
    Some (OrderedDict.keys (parse_runbooks self_name runbooks_data []))
  | None => None
  end.

(** What [discover_agents()] returns: the dictionary, or the empty one
    when anything failed. *)
Definition discover_agents_result (self_name : string)
  (response : option (list (option RunbookData)))
  : list (string * list string) :=
  match response with
  | Some runbooks_data =>
    if forallb (fun e => bool_decide (is_Some e)) runbooks_data
    then parse_runbooks self_name runbooks_data []
    else []
  | None => []
  end.

(** [get_agent_capabilities(agent_name)] *)
Definition get_agent_capabilities (available : list (string * list string))
  (name : string) : list string :=
  default [] (OrderedDict.get name available).

(** Several calls of [find_agent_for_task] in a row; [fetches] gives,
    per call, what a discovery made by that call would find. *)
Fixpoint find_agents (fetches : list (option (list string)))
  (d : AgentDiscovery) : list (outcome (option string)) * AgentDiscovery :=
  match fetches with
  | [] => ([], d)
  | fetched :: fetches' =>
    let '(r, d) := find_agent_for_task fetched d in
    let '(rs, d) := find_agents fetches' d in
    (r :: rs, d)
  end.

(** The selector of an agent named [self_name], from its creation: each
    call comes with the answer the orchestrator would give to a
    discovery request. *)
Definition initial : AgentDiscovery :=
  {| available_agents := []; _last_assigned_agent_index := None |}.

Definition select_agents (self_name : string)
  (responses : list (option (list (option RunbookData))))
  : list (outcome (option string)) * AgentDiscovery :=
  find_agents (map (fetched_agents self_name) responses) initial.

End Discovery.

(** ** Task decomposition (agentkit/agentkit/base.py) *)

Module Decomposer.
Import Py.

(** An entry of the list returned by [decompose_task]: a planned subtask
    [{"task", "agent_type", "priority", "dependencies"}], or the entry
    [{"task", "agent": None, "reasoning"}] returned without a client. *)
Inductive Subtask :=
  | Planned (task agent_type : string) (priority : Z) (dependencies : list nat)
  | Unplanned (task reasoning : string).


(** [self.available_agents]: agent name to the capability names of its
    runbook, in insertion order. *)
Definition Agents := list (string * list string).

(** What the completion call does: it raises, or returns text or [None]. *)
Inductive Completion :=
  | Raised
  | Answered (result : option string).

Definition _get_agent_capability_name (available_agents : Agents)
    (agent_name : string) : string :=
  match OrderedDict.get agent_name available_agents with
  | Some (capability_name :: _) =>
      lower (replace_blank_underscore capability_name)
  | _ => "general"
  end.

Definition complex_keywords : list string :=
  ["research"; "analyze"; "strategy"; "future"; "development";
   "comprehensive"; "explore"; "investigate"].

Definition has_complex_keywords (complex_task : string) : bool :=
  let task_lower := lower complex_task in
  existsb (fun keyword => contains keyword task_lower) complex_keywords.

(** [if not self.available_agents: self.discover_agents()] *)
Definition ensure_agents (available discovered : Agents) : Agents :=
  match available with
  | [] => discovered
  | _ :: _ => available
  end.

Definition research_task (t : string) : string :=
  "Research and gather information about: " +:+ slice_to 50 t +:+ "...".
Definition response_task (t : string) : string :=
  "Create comprehensive response for: " +:+ slice_to 50 t +:+ "...".
Definition content_task (t : string) : string :=
  "Create content based on: " +:+ slice_to 50 t +:+ "...".
Definition review_task (t : string) : string :=
  "Review and improve the content for: " +:+ slice_to 50 t +:+ "...".

(** The two-subtask plan (medium complexity). *)
Definition two_subtasks (agents : Agents) (complex_task : string) : list Subtask :=
  let '(agent1_cap, agent2_cap) :=
    match OrderedDict.keys agents with
    | a0 :: a1 :: _ =>
        (_get_agent_capability_name agents a0,
         _get_agent_capability_name agents a1)
    | _ => ("research", "creative")
    end in
  [ Planned (research_task complex_task) agent1_cap 5 [];
    Planned (response_task complex_task) agent2_cap 4 [0%nat] ].

(** The three-subtask plan (high complexity); [use_third] is false in the
    exception handler, which never looks at a third agent. *)
Definition three_subtasks (use_third : bool) (agents : Agents)
    (complex_task : string) : list Subtask :=
  let '(agent1_cap, agent2_cap, agent3_cap) :=
    match OrderedDict.keys agents with
    | a0 :: a1 :: rest =>
        let c0 := _get_agent_capability_name agents a0 in
        let c1 := _get_agent_capability_name agents a1 in
        match rest with
        | a2 :: _ =>
            if use_third then (c0, c1, _get_agent_capability_name agents a2)
            else (c0, c1, c1)
        | [] => (c0, c1, c1)
        end
    | _ => ("research", "creative", "review")
    end in
  [ Planned (research_task complex_task) agent1_cap 5 [];
    Planned (content_task complex_task) agent2_cap 4 [0%nat];
    Planned (review_task complex_task) agent3_cap 3 [1%nat] ].

Section Decompose.
(** [json.loads]: [None] stands for [JSONDecodeError]. *)
Variable json_loads : string -> option (list Subtask).

(** Branch taken when the completion text is not JSON. *)
Definition fallback_not_json (available discovered : Agents)
    (complex_task : string) : list Subtask * Agents :=
  let task_length := len_split complex_task in
  let kw := has_complex_keywords complex_task in
  if (task_length <? 8)%nat && negb kw then
    ([Planned complex_task "general" 5 []], available)
  else
    let agents := ensure_agents available discovered in
    if (task_length <? 15)%nat || kw then
      (two_subtasks agents complex_task, agents)
    else
      (three_subtasks true agents complex_task, agents).

(** Branch taken when the completion call returns no content. *)
Definition fallback_no_content (available discovered : Agents)
    (complex_task : string) : list Subtask * Agents :=
  let task_length := len_split complex_task in
  if (task_length <? 10)%nat then
    ([Planned ("Handle this request: " +:+ complex_task) "general" 5 []],
     available)
  else
    let agents := ensure_agents available discovered in
    if (task_length <? 20)%nat then
      (two_subtasks agents complex_task, agents)
    else
      (three_subtasks true agents complex_task, agents).

(** The [except Exception] handler. *)
Definition fallback_exception (available discovered : Agents)
    (complex_task : string) : list Subtask * Agents :=
  let task_length := len_split complex_task in
  if (task_length <? 10)%nat then
    ([Planned complex_task "general" 5 []], available)
  else
    let agents := ensure_agents available discovered in
    (three_subtasks false agents complex_task, agents).

(** [decompose_task(complex_task)].  [has_ai] is [self.ai] being set,
    [completion] the behaviour of [self.get_completion], [discovered]
    what [self.discover_agents()] would store.  The result pairs the
    returned list with the new value of [self.available_agents]. *)
Definition decompose_task (has_ai : bool) (completion : Completion)
    (available discovered : Agents) (complex_task : string)
    : list Subtask * Agents :=
  if negb has_ai then
    ([Unplanned complex_task "No OpenAI client available"], available)
  else
    match completion with
    | Raised => fallback_exception available discovered complex_task
    | Answered result =>
        if truthy result then
          match json_loads (default "" result) with
          | Some parsed => (parsed, available)
          | None => fallback_not_json available discovered complex_task
          end
        else fallback_no_content available discovered complex_task
    end.
End Decompose.



(** The ["priority"] and ["agent_type"] keys of an entry. *)
Definition priority_of (s : Subtask) : option Z :=
  match s with
  | Planned _ _ p _ => Some p
  | Unplanned _ _ => None
  end.

Definition agent_type_of (s : Subtask) : option string :=
  match s with
  | Planned _ agent_type _ _ => Some agent_type
  | Unplanned _ _ => None
  end.

(** The agent types written into a plan when fewer than two agents are
    known. *)
Definition default_agent_types : list string :=
  ["general"; "research"; "creative"; "review"].

(** The decomposition does not return a parsed plan: the completion
    call raises, returns no content, or returns text that is not JSON. *)
Definition falls_back (json_loads : string -> option (list Subtask))
  (completion : Completion) : bool :=
  match completion with
  | Raised => true
  | Answered result =>
    if truthy result
    then negb (bool_decide (is_Some (json_loads (default "" result))))
    else true
  end.

End Decomposer.

(** ** Mention extraction (orchestrator/app/routing.py) *)

Module Routing.
Import Py.

(** The longest run of [\w] characters at the head, and what follows. *)
Fixpoint span_word (l : list ascii) : list ascii * list ascii :=
  match l with
  | c :: l' =>
      if isword c then let '(w, r) := span_word l' in (c :: w, r)
      else ([], l)
  | [] => ([], [])
  end.

(** A match of [(?<!\w)@(\w+)(?!\.)] anchored at the head of [l];
    [prev_word] tells whether the character before [l] is in [\w].
    The result is group 1.  [\w+] is greedy; when the run is followed by
    a dot the look-ahead fails and the matcher backtracks by one
    character, after which the next character is a word character and
    the look-ahead holds. *)
Definition match_mention (prev_word : bool) (l : list ascii)
    : option (list ascii) :=
  match l with
  | "@"%char :: rest =>
      if prev_word then None
      else
        let '(w, after) := span_word rest in
        match w with
        | [] => None
        | _ :: _ =>
            match after with
            | "."%char :: _ =>
                match removelast w with
                | [] => None
                | w' => Some w'
                end
            | _ => Some w
            end
        end
  | _ => None
  end.

(** [re.findall(pattern, message)]: leftmost matches, left to right,
    without overlap.  [skip] counts the characters of the current match
    still to be passed over. *)
Fixpoint findall_from (prev_word : bool) (skip : nat) (l : list ascii)
    : list (list ascii) :=
  match l with
  | [] => []
  | c :: l' =>
      match skip with
      | S k => findall_from (isword c) k l'
      | O =>
          match match_mention prev_word l with
          | Some w => w :: findall_from (isword c) (length w) l'
          | None => findall_from (isword c) 0 l'
          end
      end
  end.

Definition findall (message : string) : list string :=
  map str (findall_from false 0 (chars message)).

(** A literal matched under [re.IGNORECASE]; the rest after the match. *)
Fixpoint match_literal_ci (p l : list ascii) : option (list ascii) :=
  match p, l with
  | [], _ => Some l
  | a :: p', b :: l' =>
      if bool_decide (lower_char a = lower_char b)
      then match_literal_ci p' l' else None
  | _ :: _, [] => None
  end.

(** The alternation [(?:n1|n2|...)(?!\.)] after the [@]: the first
    alternative that matches and is not followed by a dot; the result is
    the length of that alternative. *)
Fixpoint match_alternatives (names : list string) (rest : list ascii)
    : option nat :=
  match names with
  | [] => None
  | n :: names' =>
      match match_literal_ci (chars n) rest with
      | Some ("."%char :: _) | None => match_alternatives names' rest
      | Some _ => Some (length (chars n))
      end
  end.

(** A match of [valid_pattern] anchored at the head of [l]. *)
Definition match_valid (names : list string) (prev_word : bool)
    (l : list ascii) : option nat :=
  match l with
  | "@"%char :: rest =>
      if prev_word then None else match_alternatives names rest
  | _ => None
  end.

(** [re.sub(valid_pattern, '', message, flags=re.IGNORECASE)] *)
Fixpoint sub_from (names : list string) (prev_word : bool) (skip : nat)
    (l : list ascii) : list ascii :=
  match l with
  | [] => []
  | c :: l' =>
      match skip with
      | S k => sub_from names (isword c) k l'
      | O =>
          match match_valid names prev_word l with
          | Some n => sub_from names (isword c) n l'
          | None => c :: sub_from names (isword c) 0 l'
          end
      end
  end.

Definition sub_valid (names : list string) (message : string) : string :=
  str (sub_from names false 0 (chars message)).

(** The body of the loop collecting the valid names: lower-cased, first
    occurrence kept, registered names only. *)
Definition collect_step (registered_agents agent_names : list string)
  (name : string) : list string :=
  let name_lower := lower name in
  if bool_decide (name_lower ∉ agent_names) &&
   bool_decide (name_lower ∈ registered_agents)
  then agent_names ++ [name_lower] else agent_names.

Definition collect_names (registered_agents matches : list string)
  : list string :=
  fold_left (collect_step registered_agents) matches [].

(** [extract_mentions(message)]; [registry] holds the names of the
    agents returned by the database query. *)
Definition extract_mentions (registry : list string) (message : string)
    : list string * string :=
  match findall message with
  | [] => ([], message)
  | matches =>
      let registered_agents := map lower registry in
      match collect_names registered_agents matches with
      | [] => ([], message)
      | agent_names => (agent_names, strip (sub_valid agent_names message))
      end
  end.

End Routing.

(** ** The collaboration coordinator (agents/assistant/collaboration.py) *)

Module Collaboration.
Import Py.

(** The keys of an [original_task] dictionary that the coordinator reads;
    each may be missing. *)
Record Task := {
  task : option string;
  subtask_index : option Z;
  total_subtasks : option Z;
  original_query : option string
  }.

(** An entry of [collaboration['received_responses']]. *)
Record Received := {
  from_agent : string;
  result : string;
  received_task : Task
  }.

(** A value of [self.active_collaborations]. *)
Record Session := {
  session_task : string;
  expected_agents : list string;
  received_responses : list Received;
  user_topic : string;
  start_time : Z;
  timeout : Z
  }.

(** A value of [self.pending_responses]. *)
Record Pending := {
  pending_from_agent : string;
  pending_result : string;
  pending_task : Task;
  pending_user_topic : string
  }.

(** The payloads handed to [send_message], one constructor per message
    template of the module; agent names are title-cased and sets are
    comma-joined when the text is rendered. *)
Inductive Payload :=
  | DiscoveryFailed                         (* Unable to discover agents for collaboration. *)
  | AgentsUnavailable (names : list string) (* The following agents are not available: ... *)
  | NoAgentAvailable                        (* No requested agents are currently available ... *)
  | StartingCollaboration (names : list string)
  | SendingTaskTo (agent : string)
  | Delegation (task agent_type reply_to : string) (* the task_data dictionary *)
  | AllTasksSent
  | AgentCompleted (agent : string)         (* {agent} completed their task *)
  | SynthesizingAll (num_agents : nat)      (* All agents completed! Synthesizing {n} agent responses into final answer... *)
  | SynthesizedAnswer (text : string)       (* the synthesis, one sentence per line *)
  | CompleteSummary (num_agents : nat)      (* Complete! {n} agents collaborated successfully. *)
  | SynthesisFailed                         (* I received responses from multiple agents but couldn't synthesize them properly. *)
  | AgentResult (agent content : string)    (* **{agent}:** {content} *)
  | ReceivedFrom (agents : gset string)     (* Received responses from: ... *)
  | CollaborationComplete                   (* Collaboration complete! *)
  | StillWaiting (agents : gset string)     (* Still waiting for: ... *)
  | Synthesizing (count : nat)              (* Synthesizing {n} agent responses... *)
  | FinalAnswer (text : string)             (* **Final Answer:** {synthesis} *)
  | TimedOutProcessing (count : nat)        (* Collaboration timed out! Processing {n} received response(s)... *)
  | SingleResponse (agent content : string) (* **Response from {agent}:** {content} *)
  | TimedOutNoResponses.                    (* Collaboration timed out with no responses received. *)

(** The two synthesis prompts, with the data they are built from. *)
Inductive Prompt :=
  | TaskSynthesis (original_query : string) (contributions : list (string * string))
  | SessionSynthesis (session_task : string) (contributions : list (string * string)).

(** The attributes of the assistant the module works on.  An attribute
    that does not exist yet behaves as the empty dictionary in every
    function below. *)
Record Assistant := {
  active_collaborations : list (string * Session);
  pending_responses : list (string * Pending);
  outbox : list (string * Payload)
  }.

Definition send_message (topic : string) (p : Payload) (self : Assistant)
    : Assistant :=
  {| active_collaborations := active_collaborations self;
     pending_responses := pending_responses self;
     outbox := outbox self ++ [(topic, p)] |}.

Definition set_active (d : list (string * Session)) (self : Assistant)
    : Assistant :=
  {| active_collaborations := d;
     pending_responses := pending_responses self;
     outbox := outbox self |}.

Definition set_pending (d : list (string * Pending)) (self : Assistant)
    : Assistant :=
  {| active_collaborations := active_collaborations self;
     pending_responses := d;
     outbox := outbox self |}.

(** [f"collaboration_{task}_{reply_to}"] *)
Definition collaboration_key (task_description topic : string) : string :=
  "collaboration_" +:+ task_description +:+ "_" +:+ topic.

(** [f"{task_description}_{subtask_index}"] *)
Definition task_key (task_description : string) (index : Z) : string :=
  task_description +:+ "_" +:+ pretty index.

(** The timeout stored in every new session. *)
Definition SESSION_TIMEOUT : Z := 30.

(** An element of the list returned by [discover_all_agents]. *)
Record AgentInfo := {
  info_name : string;
  is_running : bool;
  capabilities : list string
  }.

(** [_collaborate_with_agents(task, agent_names, reply_to)], where
    [agents_info] is the answer of [discover_all_agents()] and [now] the
    clock. *)
Definition _collaborate_with_agents (agents_info : list AgentInfo)
    (now : Z) (task_text : string) (agent_names : list string)
    (reply_to : string) (self : Assistant) : Assistant :=
  match agents_info with
  | [] => send_message reply_to DiscoveryFailed self
  | _ :: _ =>
      let lookup_agent agent_name :=
        List.find (fun a => bool_decide (lower (info_name a) = lower agent_name))
                  agents_info in
      let available_agents :=
        omap (fun agent_name =>
                match lookup_agent agent_name with
                | Some a => if is_running a then Some a else None
                | None => None
                end) agent_names in
      let unavailable_agents :=
        List.filter (fun agent_name =>
                  match lookup_agent agent_name with
                  | Some a => negb (is_running a)
                  | None => true
                  end) agent_names in
      let self :=
        match unavailable_agents with
        | [] => self
        | _ :: _ => send_message reply_to (AgentsUnavailable unavailable_agents) self
        end in
      match available_agents with
      | [] => send_message reply_to NoAgentAvailable self
      | _ :: _ =>
          let names := map info_name available_agents in
          let self := send_message reply_to (StartingCollaboration names) self in
          let self :=
            fold_left
              (fun self a =>
                 let self := send_message reply_to (SendingTaskTo (info_name a)) self in
                 let agent_type := default "general" (head (capabilities a)) in
                 send_message ("agent:" +:+ info_name a +:+ ":inbox")
                              (Delegation task_text agent_type reply_to) self)
              available_agents self in
          let self := send_message reply_to AllTasksSent self in
          set_active
            (OrderedDict.set (collaboration_key task_text reply_to)
               {| session_task := task_text;
                  expected_agents := names;
                  received_responses := [];
                  user_topic := reply_to;
                  start_time := now;
                  timeout := SESSION_TIMEOUT |}
               (active_collaborations self))
            self
      end
  end.

Definition received_agents (c : Session) : gset string :=
  list_to_set (map from_agent (received_responses c)).

Definition expected_set (c : Session) : gset string :=
  list_to_set (expected_agents c).

Definition contributions (rs : list Received) : list (string * string) :=
  map (fun r => (from_agent r, result r)) rs.

Section Coordinator.
(** [self.get_completion]: the text of the completion service for a
    prompt, [None] when the service fails. *)
Variable get_completion : Prompt -> option string.

(** [_synthesize_collaboration_responses(self, collaboration)] *)
Definition _synthesize_collaboration_responses (collaboration : Session)
    (self : Assistant) : Assistant :=
  let topic := user_topic collaboration in
  let responses := received_responses collaboration in
  if (length responses <=? 1)%nat then self
  else
    let self := send_message topic (Synthesizing (length responses)) self in
    let synthesis_response :=
      get_completion
        (SessionSynthesis (session_task collaboration) (contributions responses)) in
    if truthy synthesis_response
    then send_message topic (FinalAnswer (default "" synthesis_response)) self
    else self.

(** [_check_collaboration_completion(self, from_agent, task_result,
    original_task, user_topic)] *)
Definition _check_collaboration_completion (sender task_result : string)
    (original_task : Task) (topic : string) (self : Assistant) : Assistant :=
  let task_description := default "" (task original_task) in
  let key := collaboration_key task_description topic in
  match OrderedDict.get key (active_collaborations self) with
  | None => self
  | Some stored =>
      let collaboration :=
        {| session_task := session_task stored;
           expected_agents := expected_agents stored;
           received_responses :=
             received_responses stored ++
             [ {| from_agent := sender; result := task_result;
                  received_task := original_task |} ];
           user_topic := user_topic stored;
           start_time := start_time stored;
           timeout := timeout stored |} in
      let self :=
        set_active (OrderedDict.set key collaboration (active_collaborations self))
                   self in
      if bool_decide (expected_set collaboration ⊆ received_agents collaboration)
      then
        let self :=
          fold_left
            (fun self response =>
               send_message topic
                 (AgentResult (from_agent response) (result response)) self)
            (received_responses collaboration) self in
        let self :=
          send_message topic (ReceivedFrom (received_agents collaboration)) self in
        let self := send_message topic CollaborationComplete self in
        let self :=
          set_active (OrderedDict.del key (active_collaborations self)) self in
        if (1 <? length (received_responses collaboration))%nat
        then _synthesize_collaboration_responses collaboration self
        else self
      else
        send_message topic
          (StillWaiting (expected_set collaboration ∖ received_agents collaboration))
          self
  end.

(** [current_time - start_time > timeout] *)
Definition timed_out (current_time : Z) (c : Session) : bool :=
  (timeout c <? current_time - start_time c)%Z.

(** The notices of the sweep for one timed-out session. *)
Definition notify_timeout (collaboration : Session) (self : Assistant)
    : Assistant :=
  let topic := user_topic collaboration in
  let received_count := length (received_responses collaboration) in
  match received_responses collaboration with
  | [] => send_message topic TimedOutNoResponses self
  | response :: others =>
      let self := send_message topic (TimedOutProcessing received_count) self in
      if (1 <? received_count)%nat
      then _synthesize_collaboration_responses collaboration self
      else send_message topic
             (SingleResponse (from_agent response) (result response)) self
  end.

(** The body of the loop of the sweep: a timed-out session is
    notified and its key collected. *)
Definition sweep_step (current_time : Z) (acc : Assistant * list string)
  (item : string * Session) : Assistant * list string :=
  let '(self, timed_out_keys) := acc in
  let '(key, collaboration) := item in
  if timed_out current_time collaboration
  then (notify_timeout collaboration self, timed_out_keys ++ [key])
  else (self, timed_out_keys).

(** [_cleanup_timed_out_collaborations(self)] at clock [current_time]:
    the loop over the sessions, then the removal of the collected
    keys. *)
Definition _cleanup_timed_out_collaborations (current_time : Z)
    (self : Assistant) : Assistant :=
  let '(self, timed_out_keys) :=
    fold_left (sweep_step current_time)
              (active_collaborations self) (self, []) in
  set_active
    (fold_left (fun d key => OrderedDict.del key d) timed_out_keys
               (active_collaborations self))
    self.

Definition stored_query (e : Pending) : string :=
  default "" (original_query (pending_task e)).

(** [_synthesize_responses(self, original_query)] *)
Definition _synthesize_responses (query : string) (self : Assistant)
    : Assistant :=
  let task_responses :=
    List.filter (fun kv => bool_decide (stored_query (snd kv) = query))
                (pending_responses self) in
  match task_responses with
  | [] => self
  | (_, first_response) :: _ =>
      let unique_agents : gset string :=
        list_to_set
          (List.filter (fun a => negb (bool_decide (a = "")))
             (map (fun kv => pending_from_agent (snd kv)) task_responses)) in
      let num_agents := size unique_agents in
      let topic := pending_user_topic first_response in
      let self := send_message topic (SynthesizingAll num_agents) self in
      let synthesis_response :=
        get_completion
          (TaskSynthesis query
             (map (fun kv => (pending_from_agent (snd kv), pending_result (snd kv)))
                  task_responses)) in
      let self :=
        if truthy synthesis_response then
          let formatted_response :=
            str (replace_dot_blank (chars (default "" synthesis_response))) in
          let self := send_message topic (SynthesizedAnswer formatted_response) self in
          send_message topic (CompleteSummary num_agents) self
        else send_message topic SynthesisFailed self in
      set_pending
        (List.filter (fun kv => negb (bool_decide (stored_query (snd kv) = query)))
                     (pending_responses self))
        self
  end.

(** The fields of a [response_data] dictionary. *)
Record ResponseData := {
  response_from_agent : string;
  task_result : string;
  original_task : option Task;
  response_user_topic : option string
  }.

Definition empty_task : Task :=
  {| task := None; subtask_index := None;
     total_subtasks := None; original_query := None |}.

(** The first lines of [_handle_agent_response]: the result is stored
    in [self.pending_responses]. *)
Definition record_response (response_data : ResponseData)
    (self : Assistant) : Assistant :=
  let otask := default empty_task (original_task response_data) in
  let topic := default "user_session:main" (response_user_topic response_data) in
  let task_description := default "" (task otask) in
  let key := task_key task_description (default 0%Z (subtask_index otask)) in
  set_pending
    (OrderedDict.set key
       {| pending_from_agent := response_from_agent response_data;
          pending_result := task_result response_data;
          pending_task := otask;
          pending_user_topic := topic |}
       (pending_responses self))
    self.

(** The set [found_indices]. *)
Definition found_indices (pending : list (string * Pending)) : gset Z :=
  list_to_set
    (List.filter (fun i => (0 <=? i)%Z)
       (map (fun kv => default (-1)%Z (subtask_index (pending_task (snd kv))))
            pending)).

(** [all_subtasks_complete = len(found_indices) >= total_subtasks] *)
Definition all_subtasks_complete (pending : list (string * Pending))
    (total : Z) : bool :=
  (total <=? Z.of_nat (size (found_indices pending)))%Z.

(** The original query taken from any stored response, else the text
    of the current task. *)
Definition find_original_query (pending : list (string * Pending))
    (otask : Task) : string :=
  match List.find (fun kv => truthy (original_query (pending_task (snd kv))))
                  pending with
  | Some (_, e) => stored_query e
  | None => default "" (task otask)
  end.

(** [_handle_agent_response(self, response_data)] at clock
    [current_time]. *)
Definition _handle_agent_response (current_time : Z)
    (response_data : ResponseData) (self : Assistant) : Assistant :=
  let sender := response_from_agent response_data in
  let otask := default empty_task (original_task response_data) in
  let topic := default "user_session:main" (response_user_topic response_data) in
  let self := record_response response_data self in
  let self :=
    _check_collaboration_completion sender (task_result response_data)
      otask topic self in
  let self := _cleanup_timed_out_collaborations current_time self in
  let total := default 1%Z (total_subtasks otask) in
  let self :=
    if (1 <? total)%Z then send_message topic (AgentCompleted sender) self
    else self in
  if all_subtasks_complete (pending_responses self) total
  then _synthesize_responses
         (find_original_query (pending_responses self) otask) self
  else self.
End Coordinator.

(** *** Vocabulary of the properties *)

(** Several messages sent in a row. *)
Definition emit (msgs : list (string * Payload)) (self : Assistant) : Assistant :=
  {| active_collaborations := active_collaborations self;
   pending_responses := pending_responses self;
   outbox := outbox self ++ msgs |}.

(** The messages sent between two states of the assistant. *)
Definition emitted (before after : Assistant) : list (string * Payload) :=
  drop (length (outbox before)) (outbox after).

(** The session once a response is appended to it. *)
Definition with_response (c : Session) (sender task_result : string)
  (original_task : Task) : Session :=
  {| session_task := session_task c;
   expected_agents := expected_agents c;
   received_responses :=
     received_responses c ++
     [ {| from_agent := sender; result := task_result;
          received_task := original_task |} ];
   user_topic := user_topic c;
   start_time := start_time c;
   timeout := timeout c |}.

(** What the synthesis of a session sends: nothing for at most one
    response; else the progress notice, followed by the final answer
    when the completion service returns content. *)
Definition session_synthesis_messages (get_completion : Prompt -> option string)
  (c : Session) : list (string * Payload) :=
  let n := length (received_responses c) in
  if (n <=? 1)%nat then []
  else
  let answer :=
    get_completion
      (SessionSynthesis (session_task c) (contributions (received_responses c))) in
  (user_topic c, Synthesizing n) ::
  (if truthy answer then [(user_topic c, FinalAnswer (default "" answer))] else []).

(** The notices of a timed-out session, by the number of responses it
    holds: none, one, two or more. *)
Definition timeout_notices (get_completion : Prompt -> option string)
  (c : Session) : list (string * Payload) :=
  match received_responses c with
  | [] => [(user_topic c, TimedOutNoResponses)]
  | [response] =>
    [(user_topic c, TimedOutProcessing 1);
     (user_topic c, SingleResponse (from_agent response) (result response))]
  | _ :: _ :: _ =>
    (user_topic c, TimedOutProcessing (length (received_responses c))) ::
    session_synthesis_messages get_completion c
  end.

(** The sessions the sweep at [current_time] finds timed out. *)
Definition timed_out_sessions (current_time : Z)
  (d : list (string * Session)) : list (string * Session) :=
  List.filter (fun kv => timed_out current_time (snd kv)) d.

(** Every session of the map carries the timeout written at its
    creation. *)
Definition timeouts_fixed (self : Assistant) : Prop :=
  Forall (fun kv => timeout (snd kv) = SESSION_TIMEOUT)
         (active_collaborations self).

(** The distinct indices counted for one task only, as the
    specification words the completion test: the subtask indices stored
    for the entries whose task text is [task_text]. *)
Definition indices_of_task (task_text : string)
  (pending : list (string * Pending)) : gset Z :=
  list_to_set
  (omap (fun kv =>
           if bool_decide (default "" (task (pending_task (snd kv))) = task_text)
           then subtask_index (pending_task (snd kv)) else None)
        pending).

(** The same, grouping by the original query instead of the task text. *)
Definition indices_of_query (query : string)
  (pending : list (string * Pending)) : gset Z :=
  list_to_set
  (omap (fun kv =>
           if bool_decide (stored_query (snd kv) = query)
           then subtask_index (pending_task (snd kv)) else None)
        pending).

(** The record of a requested agent in the listing: the first one whose
    name matches, case ignored. *)
Definition lookup_agent (agents_info : list AgentInfo) (agent_name : string)
  : option AgentInfo :=
  List.find (fun a => bool_decide (lower (info_name a) = lower agent_name))
          agents_info.

(** The requested agents that are listed and running, and the
    requested names that are not, both in the order of the request. *)
Definition requested_running (agents_info : list AgentInfo)
  (agent_names : list string) : list AgentInfo :=
  omap (fun agent_name =>
        match lookup_agent agents_info agent_name with
        | Some a => if is_running a then Some a else None
        | None => None
        end) agent_names.

Definition requested_unavailable (agents_info : list AgentInfo)
  (agent_names : list string) : list string :=
  List.filter (fun agent_name =>
               match lookup_agent agents_info agent_name with
               | Some a => negb (is_running a)
               | None => true
               end) agent_names.

(** The inbox topic of an agent and the task message it receives. *)
Definition inbox (agent_name : string) : string :=
  "agent:" +:+ agent_name +:+ ":inbox".

Definition delegation_of (task_text reply_to : string) (a : AgentInfo)
  : string * Payload :=
  (inbox (info_name a),
   Delegation task_text (default "general" (head (capabilities a))) reply_to).

Definition is_delegation (m : string * Payload) : bool :=
  match snd m with
  | Delegation _ _ _ => true
  | _ => false
  end.

Definition is_completion_notice (m : string * Payload) : bool :=
  match snd m with
  | CollaborationComplete => true
  | _ => false
  end.

(** The session a delegation stores. *)
Definition new_session (now : Z) (task_text reply_to : string)
  (chosen : list AgentInfo) : Session :=
  {| session_task := task_text;
   expected_agents := map info_name chosen;
   received_responses := [];
   user_topic := reply_to;
   start_time := now;
   timeout := SESSION_TIMEOUT |}.

(** The responses of several agents to one task, arriving one after the
    other: each is a pair of the sender and its result. *)
Definition feed (get_completion : Prompt -> option string) (original_task : Task)
  (topic : string) (responses : list (string * string)) (self : Assistant)
  : Assistant :=
  fold_left
  (fun self r =>
     _check_collaboration_completion get_completion (fst r) (snd r)
       original_task topic self)
  responses self.

Definition with_responses (c : Session) (original_task : Task)
  (responses : list (string * string)) : Session :=
  fold_left (fun c r => with_response c (fst r) (snd r) original_task)
          responses c.

(** The entry points of the coordinator, and a run of the assistant: a
    request to collaborate, the response of an agent, a sweep, each at
    the clock value it happens. *)
Inductive Event :=
  | Collaborate (agents_info : list AgentInfo) (task_text : string)
              (agent_names : list string) (reply_to : string)
  | AgentResponse (response_data : ResponseData)
  | Sweep.

Definition step (get_completion : Prompt -> option string) (now : Z)
  (e : Event) (self : Assistant) : Assistant :=
  match e with
  | Collaborate agents_info task_text agent_names reply_to =>
    _collaborate_with_agents agents_info now task_text agent_names reply_to self
  | AgentResponse response_data =>
    _handle_agent_response get_completion now response_data self
  | Sweep => _cleanup_timed_out_collaborations get_completion now self
  end.

Definition run (get_completion : Prompt -> option string)
  (trace : list (Z * Event)) (self : Assistant) : Assistant :=
  fold_left (fun self e => step get_completion (fst e) (snd e) self) trace self.

(** What holds of every stored session: the timeout written at its
    creation, the key built from its own task and topic, and at least one
    expected agent that has not answered. *)
Definition session_ok (kv : string * Session) : Prop :=
  timeout (snd kv) = SESSION_TIMEOUT /\
  fst kv = collaboration_key (session_task (snd kv)) (user_topic (snd kv)) /\
  ~ expected_set (snd kv) ⊆ received_agents (snd kv).

(** The key under which a response is recorded. *)
Definition response_key (response_data : ResponseData) : string :=
  let otask := default empty_task (original_task response_data) in
  task_key (default "" (task otask)) (default 0%Z (subtask_index otask)).

(** The messages of the delegation loop: per agent, the notice to the
    user and the task sent to the inbox of the agent. *)
Definition delegation_messages (task_text reply_to : string)
  (chosen : list AgentInfo) : list (string * Payload) :=
  concat (map (fun a => [(reply_to, SendingTaskTo (info_name a));
                         delegation_of task_text reply_to a]) chosen).

(** The warning about the requested agents that are not available. *)
Definition unavailable_warning (agents_info : list AgentInfo)
  (agent_names : list string) (reply_to : string) : list (string * Payload) :=
  match requested_unavailable agents_info agent_names with
  | [] => []
  | names => [(reply_to, AgentsUnavailable names)]
  end.

(** A state of the assistant in which both dictionaries hold each key
    once and every stored session is as [session_ok] says. *)
Definition coordinator_ok (self : Assistant) : Prop :=
  NoDup (OrderedDict.keys (active_collaborations self)) /\
  NoDup (OrderedDict.keys (pending_responses self)) /\
  Forall session_ok (active_collaborations self).

(** Several responses handled one after the other, each at the clock
    value of its arrival. *)
Definition handle_responses (get_completion : Prompt -> option string)
  (responses : list (Z * ResponseData)) (self : Assistant) : Assistant :=
  fold_left
  (fun self r => _handle_agent_response get_completion (fst r) (snd r) self)
  responses self.

(** The response echoes the task text and the topic of a delegation. *)
Definition answers (task_text topic : string) (response_data : ResponseData)
  : Prop :=
  default "" (task (default empty_task (original_task response_data)))
  = task_text /\
  default "user_session:main" (response_user_topic response_data) = topic.

(** The session once the responses are appended to it. *)
Definition with_response_data (c : Session) (responses : list ResponseData)
  : Session :=
  fold_left
  (fun c rd =>
     with_response c (response_from_agent rd) (task_result rd)
                   (default empty_task (original_task rd)))
  responses c.

End Collaboration.

(** ** Duplicate suppression in the worker (agents/worker_agent.py) *)

Module Worker.
Import Py.

(** An element of the ["messages"] array. *)
Record ChatMessage := {
  role : option string;
  content : option string
  }.

(** The fields of [conversation_data] read before the message is
    answered. *)
Record ConversationData := {
  from_agent : string;
  messages : option (list ChatMessage);
  message : option string;
  context : option string;
  timestamp : option Z
  }.

(** The attributes of the worker used by the duplicate filter. *)
Record WorkerAgent := {
  startup_time : Z;
  _recent_messages : list (Z * Z)
  }.

Inductive Verdict :=
  | IgnoredOld          (* queued before startup *)
  | IgnoredDuplicate    (* seen within the window *)
  | Processed.          (* answered *)

(** The message text the handler extracts. *)
Definition extract_message (d : ConversationData) : string :=
  match messages d with
  | Some messages_array =>
      let found :=
        match List.find (fun m => bool_decide (role m = Some "user"))
                        (rev messages_array) with
        | Some m => default "" (content m)
        | None => ""
        end in
      if bool_decide (found = "") then
        match last messages_array with
        | Some last_msg => default "" (content last_msg)
        | None => found
        end
      else found
  | None => default "" (message d)
  end.

(** [min(d.keys(), key=d.get)]: the first key carrying the least value;
    [best] is the least entry met so far. *)
Fixpoint min_entry (best : Z * Z) (d : list (Z * Z)) : Z * Z :=
  match d with
  | [] => best
  | kv :: d' =>
      if (snd kv <? snd best)%Z then min_entry kv d' else min_entry best d'
  end.

Definition oldest_key (d : list (Z * Z)) : option Z :=
  match d with
  | [] => None
  | kv :: d' => Some (fst (min_entry kv d'))
  end.

Definition DEDUP_WINDOW : Z := 5.
Definition MAX_RECENT : nat := 50.

(** The cache update once a message is let through. *)
Definition remember (message_hash current_time : Z) (recent : list (Z * Z))
    : list (Z * Z) :=
  let recent := OrderedDict.set message_hash current_time recent in
  if (MAX_RECENT <? length recent)%nat then
    match oldest_key recent with
    | Some k => OrderedDict.del k recent
    | None => recent
    end
  else recent.

(** The duplicate filter on a message hash. *)
Definition dedup (message_hash current_time : Z) (recent : list (Z * Z))
    : bool * list (Z * Z) :=
  match OrderedDict.get message_hash recent with
  | Some last_seen =>
      if (current_time - last_seen <? DEDUP_WINDOW)%Z then (false, recent)
      else (true, remember message_hash current_time recent)
  | None => (true, remember message_hash current_time recent)
  end.

Section Handler.
(** Python's [hash] on strings. *)
Variable hash : string -> Z.

Definition message_hash (d : ConversationData) : Z :=
  hash (lower (strip (from_agent d +:+ extract_message d +:+
                      default "" (context d)))).

(** [_handle_natural_conversation(conversation_data)] at clock
    [current_time], up to the point where the answer is produced. *)
Definition _handle_natural_conversation (current_time : Z)
    (d : ConversationData) (self : WorkerAgent) : Verdict * WorkerAgent :=
  let ts := default 0%Z (timestamp d) in
  if (0 <? ts)%Z && (ts <? startup_time self)%Z then (IgnoredOld, self)
  else
    match dedup (message_hash d) current_time (_recent_messages self) with
    | (false, _) => (IgnoredDuplicate, self)
    | (true, recent) =>
        (Processed,
         {| startup_time := startup_time self; _recent_messages := recent |})
    end.


(** The handler run over the messages of a trace, each with the clock
    at its arrival. *)
Fixpoint handle_all (inputs : list (Z * ConversationData))
    (self : WorkerAgent) : list Verdict * WorkerAgent :=
  match inputs with
  | [] => ([], self)
  | (current_time, d) :: inputs' =>
      let '(v, self) := _handle_natural_conversation current_time d self in
      let '(vs, self) := handle_all inputs' self in
      (v :: vs, self)
  end.
End Handler.

(** Two messages are structurally identical: same sender, same message
    text, same context. *)
Definition identical (d1 d2 : ConversationData) : Prop :=
  from_agent d1 = from_agent d2 /\
  extract_message d1 = extract_message d2 /\
  default "" (context d1) = default "" (context d2).

(** The message is not one queued before startup. *)
Definition fresh (self : WorkerAgent) (d : ConversationData) : Prop :=
  ((0 <? default 0%Z (timestamp d))%Z &&
  (default 0%Z (timestamp d) <? startup_time self)%Z) = false.

(** Every cached timestamp is at most [current_time]: the clock has not
    run backwards. *)
Definition clock_ahead (current_time : Z) (recent : list (Z * Z)) : Prop :=
  Forall (fun kv => (snd kv <= current_time)%Z) recent.

(** A cache as the handler leaves it: one entry per hash, at most 50. *)
Definition well_formed (recent : list (Z * Z)) : Prop :=
  NoDup (OrderedDict.keys recent) /\ (length recent <= MAX_RECENT)%nat.

End Worker.

(** ** Delegation of subtasks and actions (agentkit/agentkit/base.py) *)

Module Base.
Import Py.

(** An element of [self.actions]: the keys ["id"] and ["enabled"] may be
    missing. *)
Record Action := {
  action_id : option string;
  enabled : option bool;
  action_name : string
  }.

(** [has_action(action_id)]: some action has the id and is enabled, a
    missing ["enabled"] counting as [True]. *)
Definition has_action (actions : list Action) (id : string) : bool :=
  existsb (fun action => bool_decide (action_id action = Some id) &&
                         default true (enabled action))
          actions.

(** [get_action(action_id)]: the first action with the id. *)
Definition get_action (actions : list Action) (id : string) : option Action :=
  List.find (fun action => bool_decide (action_id action = Some id)) actions.

(** The [task_data] dictionary built for a subtask. *)
Record TaskData := {
  task : string;
  priority : Z;
  dependencies : list nat;
  subtask_index : nat;
  total_subtasks : nat;
  original_query : string
  }.

(** The [delegation_message] dictionary; its time stamp is left out. *)
Record DelegationMessage := {
  from_agent : string;
  delegated_task : TaskData;
  reply_to : string;
  user_topic : option string
  }.

(** A line of the assignment summary. *)
Inductive Assignment :=
  | Assigned (agent_name agent_type task_preview : string)
  | NoAgentFound (task_preview : string).

(** What is handed to [send_message]. *)
Inductive Message :=
  | Delegated (m : DelegationMessage)
  | DelegatingTasks (count : nat) (assignments : list Assignment)
  | AllTasksDelegated (count : nat).

(** The attributes of [BaseAgent] the delegation works on. *)
Record BaseAgent := {
  name : string;
  inbox_topic : string;
  available_agents : Decomposer.Agents;
  discovery : Discovery.AgentDiscovery;
  collaboration_history : list (string * TaskData);
  outbox : list (string * Message)
  }.

Definition send_message (topic : string) (m : Message) (self : BaseAgent)
  : BaseAgent :=
  {| name := name self; inbox_topic := inbox_topic self;
   available_agents := available_agents self;
   discovery := discovery self;
   collaboration_history := collaboration_history self;
   outbox := outbox self ++ [(topic, m)] |}.

Definition set_discovery (d : Discovery.AgentDiscovery) (self : BaseAgent)
  : BaseAgent :=
  {| name := name self; inbox_topic := inbox_topic self;
   available_agents := available_agents self;
   discovery := d;
   collaboration_history := collaboration_history self;
   outbox := outbox self |}.

Definition record_delegation (to_agent : string) (task_data : TaskData)
  (self : BaseAgent) : BaseAgent :=
  {| name := name self; inbox_topic := inbox_topic self;
   available_agents := available_agents self;
   discovery := discovery self;
   collaboration_history :=
     collaboration_history self ++ [(to_agent, task_data)];
   outbox := outbox self |}.

Definition target_topic (agent_name : string) : string :=
  "agent:" +:+ agent_name +:+ ":inbox".

(** [delegate_task(agent_name, task_data, reply_to)] *)
Definition delegate_task (agent_name : string) (task_data : TaskData)
  (reply : option string) (self : BaseAgent) : bool * BaseAgent :=
  match OrderedDict.get agent_name (available_agents self) with
  | None => (false, self)
  | Some _ =>
    let delegation_message :=
      {| from_agent := name self;
         delegated_task := task_data;
         reply_to := inbox_topic self;
         user_topic := reply |} in
    let self := record_delegation agent_name task_data self in
    (true, send_message (target_topic agent_name)
                        (Delegated delegation_message) self)
  end.

(** The keys of a subtask as the loop reads them. *)
Definition subtask_task (subtask : Decomposer.Subtask) : string :=
  match subtask with
  | Decomposer.Planned t _ _ _ => t
  | Decomposer.Unplanned t _ => t
  end.

Definition subtask_agent_type (subtask : Decomposer.Subtask) : string :=
  match subtask with
  | Decomposer.Planned _ agent_type _ _ => agent_type
  | Decomposer.Unplanned _ _ => "general"
  end.

Definition subtask_priority (subtask : Decomposer.Subtask) : Z :=
  match subtask with
  | Decomposer.Planned _ _ p _ => p
  | Decomposer.Unplanned _ _ => 3
  end.

Definition subtask_dependencies (subtask : Decomposer.Subtask) : list nat :=
  match subtask with
  | Decomposer.Planned _ _ _ deps => deps
  | Decomposer.Unplanned _ _ => []
  end.

Definition task_preview (t : string) : string :=
  if (50 <? length (chars t))%nat then slice_to 50 t +:+ "..." else t.

Definition task_data_of (complex_task : string) (total i : nat)
  (subtask : Decomposer.Subtask) : TaskData :=
  {| task := subtask_task subtask;
   priority := subtask_priority subtask;
   dependencies := subtask_dependencies subtask;
   subtask_index := i;
   total_subtasks := total;
   original_query := complex_task |}.

(** The loop over [enumerate(subtasks)], from index [i] on.  [fetched j]
    is what a discovery made while subtask [j] is assigned would find.
    An [IndexError] of the selector ends the loop. *)
Fixpoint delegate_loop (complex_task : string) (reply : option string)
  (total : nat) (fetched : nat -> option (list string)) (i : nat)
  (subtasks : list Decomposer.Subtask) (assignments : list Assignment)
  (self : BaseAgent) : Discovery.outcome (list Assignment) * BaseAgent :=
  match subtasks with
  | [] => (Discovery.Returned assignments, self)
  | subtask :: rest =>
    match Discovery.find_agent_for_task (fetched i) (discovery self) with
    | (Discovery.IndexError, d) => (Discovery.IndexError, set_discovery d self)
    | (Discovery.Returned found, d) =>
      let self := set_discovery d self in
      if truthy found then
        let agent_name := default "" found in
        let assignments :=
          assignments ++
          [Assigned agent_name (subtask_agent_type subtask)
                    (task_preview (subtask_task subtask))] in
        let task_data := task_data_of complex_task total i subtask in
        let self := snd (delegate_task agent_name task_data reply self) in
        delegate_loop complex_task reply total fetched (S i) rest
                      assignments self
      else
        let assignments :=
          assignments ++
          [NoAgentFound (slice_to 50 (subtask_task subtask) +:+ "...")] in
        delegate_loop complex_task reply total fetched (S i) rest
                      assignments self
    end
  end.

(** The last part of [collaborate_on_task(complex_task, reply_to)]:
    the block [if reply_to and subtasks:] and the value returned. *)
Definition delegate_subtasks (complex_task : string) (reply : option string)
  (fetched : nat -> option (list string))
  (subtasks : list Decomposer.Subtask) (self : BaseAgent)
  : Discovery.outcome bool * BaseAgent :=
  match reply, subtasks with
  | Some topic, _ :: _ =>
    if bool_decide (topic = "") then (Discovery.Returned true, self)
    else
      match delegate_loop complex_task reply (length subtasks) fetched 0
                          subtasks [] self with
      | (Discovery.IndexError, self) => (Discovery.IndexError, self)
      | (Discovery.Returned assignments, self) =>
        let self :=
          send_message topic
            (DelegatingTasks (length subtasks) assignments) self in
        (Discovery.Returned true,
         send_message topic (AllTasksDelegated (length subtasks)) self)
      end
  | _, _ => (Discovery.Returned true, self)
  end.

(** The agent the rotation selects for the subtask at offset [j], when
    the list of the selector is [names] and its stored index is [i]. *)
Definition selected (names : list string) (i j : nat) : string :=
  default "" (names !! ((i + j) mod length names)%nat).

(** The delegation of the subtask at index [j] to [agent_name], as the
    entry of the history and as the message sent; [None] when the agent
    is not a key of [available_agents]. *)
Definition delegation_entry (available : Decomposer.Agents)
  (complex_task : string) (total : nat) (agent_name : string) (j : nat)
  (subtask : Decomposer.Subtask) : option (string * TaskData) :=
  match OrderedDict.get agent_name available with
  | Some _ => Some (agent_name, task_data_of complex_task total j subtask)
  | None => None
  end.

Definition delegation_sent (self : BaseAgent) (reply : option string)
  (entry : string * TaskData) : string * Message :=
  (target_topic (fst entry),
   Delegated {| from_agent := name self;
                delegated_task := snd entry;
                reply_to := inbox_topic self;
                user_topic := reply |}).

(** The agent once the subtasks recorded in [entries] have been
    delegated and the selector has become [d]. *)
Definition after_delegations (self : BaseAgent) (reply : option string)
  (d : Discovery.AgentDiscovery) (entries : list (string * TaskData))
  : BaseAgent :=
  {| name := name self; inbox_topic := inbox_topic self;
   available_agents := available_agents self;
   discovery := d;
   collaboration_history := collaboration_history self ++ entries;
   outbox := outbox self ++ map (delegation_sent self reply) entries |}.

(** The delegations of the subtasks from index [j0] on. *)
Definition delegation_entries (available : Decomposer.Agents)
  (complex_task : string) (total : nat) (names : list string) (i j0 : nat)
  (subtasks : list Decomposer.Subtask) : list (string * TaskData) :=
  omap id
     (imap (fun j subtask =>
              delegation_entry available complex_task total
                (selected names i j) (j0 + j) subtask)
           subtasks).

(** The lines of the assignment summary. *)
Definition assignment_lines (names : list string) (i : nat)
  (subtasks : list Decomposer.Subtask) : list Assignment :=
  imap (fun j subtask =>
        Assigned (selected names i j) (subtask_agent_type subtask)
                 (task_preview (subtask_task subtask)))
     subtasks.

End Base.

(** ** Concrete runs used by the examples *)

Module Scenarios.
Import Collaboration.

(** A completion service that is down, and one that answers. *)
Definition service_down : Prompt -> option string := fun _ => None.
Definition service_up : Prompt -> option string :=
  fun _ => Some "Both parts are done. See above.".

Definition fresh_assistant : Assistant :=
  {| active_collaborations := []; pending_responses := []; outbox := [] |}.

(** The task echoed by a worker of an ad-hoc collaboration on ["A"]:
  index 0 of 1, no original query inside the task. *)
Definition adhoc_task : Task :=
  {| task := Some "A"; subtask_index := Some 0%Z;
   total_subtasks := Some 1%Z; original_query := None |}.

(** The second of the two subtasks of the decomposed query ["Q"]. *)
Definition second_subtask : Task :=
  {| task := Some "B"; subtask_index := Some 1%Z;
   total_subtasks := Some 2%Z; original_query := Some "Q" |}.

Definition alice_adhoc : ResponseData :=
  {| response_from_agent := "alice"; task_result := "ra";
   original_task := Some adhoc_task; response_user_topic := Some "u" |}.

Definition bob_adhoc : ResponseData :=
  {| response_from_agent := "bob"; task_result := "rb";
   original_task := Some adhoc_task; response_user_topic := Some "u" |}.

Definition bob_second : ResponseData :=
  {| response_from_agent := "bob"; task_result := "rb";
   original_task := Some second_subtask; response_user_topic := Some "u" |}.

(** A session on ["A"] for alice and bob, started at time 100. *)
Definition two_agents : list AgentInfo :=
  [ {| info_name := "alice"; is_running := true; capabilities := ["search"] |};
  {| info_name := "bob"; is_running := true; capabilities := [] |} ].

Definition delegated : Assistant :=
  _collaborate_with_agents two_agents 100 "A" ["alice"; "bob"] "u"
  fresh_assistant.

(** A session holding one response. *)
Definition one_response_session : Session :=
  {| session_task := "A";
   expected_agents := ["alice"; "bob"];
   received_responses :=
     [ {| from_agent := "alice"; result := "ra"; received_task := adhoc_task |} ];
   user_topic := "u";
   start_time := 100;
   timeout := SESSION_TIMEOUT |}.

Definition waiting_for_bob : Assistant :=
  {| active_collaborations := [(collaboration_key "A" "u", one_response_session)];
   pending_responses := [];
   outbox := [] |}.

(** The pending index after an ad-hoc response has been handled: its
  entry stays, since no stored original query equals the task text. *)
Definition after_adhoc : Assistant :=
  _handle_agent_response service_up 0 alice_adhoc fresh_assistant.

(** A worker, a simple message from the assistant whose text is [n + 1]
  letters long, and a hash that tells these messages apart. *)
Definition fresh_worker : Worker.WorkerAgent :=
  {| Worker.startup_time := 0; Worker._recent_messages := [] |}.

Definition note (n : nat) : Worker.ConversationData :=
  {| Worker.from_agent := "assistant";
   Worker.messages := None;
   Worker.message := Some (Py.str (replicate (S n) "x"%char));
   Worker.context := None;
   Worker.timestamp := None |}.

Definition length_hash (s : string) : Z := Z.of_nat (length (Py.chars s)).

(** A burst: the note 0 at time 0, fifty other notes at time 1, and the
  note 0 again at time 2. *)
Definition burst : list (Z * Worker.ConversationData) :=
  (0%Z, note 0) :: map (fun n => (1%Z, note n)) (seq 1 50) ++ [(2%Z, note 0)].

(** A request that names an agent the listing does not hold. *)
Definition request_for_carol : Assistant :=
  _collaborate_with_agents two_agents 100 "A" ["carol"] "u" fresh_assistant.

(** The index after the response to the second subtask of ["Q"] has
  been recorded on top of the ad-hoc entry. *)
Definition two_entries : list (string * Pending) :=
  pending_responses (record_response bob_second after_adhoc).

(** The entry recorded for [bob_second]. *)
Definition bob_second_entry : Pending :=
  {| pending_from_agent := "bob"; pending_result := "rb";
   pending_task := second_subtask; pending_user_topic := "u" |}.

(** An agent that knows one of the three agents of its selector, and a
  plan of two subtasks. *)
Definition coordinator : Base.BaseAgent :=
  {| Base.name := "assistant";
   Base.inbox_topic := "agent:assistant:inbox";
   Base.available_agents := [("planner", ["Project Planning"])];
   Base.discovery := Discovery.three_agents;
   Base.collaboration_history := [];
   Base.outbox := [] |}.

Definition plan : list Decomposer.Subtask :=
  Decomposer.two_subtasks [] "compare the two designs".

End Scenarios.

(** * Properties *)

(** ** Strings *)

Section PyFacts.
  Import Py.

Lemma str_chars s : str (chars s) = s.
  Proof. induction s as [|c s IH]; simpl; [done | by rewrite IH]. Qed.

Lemma chars_str l : chars (str l) = l.
  Proof. induction l as [|c l IH]; simpl; [done | by rewrite IH]. Qed.

End PyFacts.

(** ** Ordered dictionaries *)

Section DictFacts.
  Import OrderedDict.
  Context {K V : Type} `{EqDecision K}.
  Implicit Types (k : K) (v : V) (d : list (K * V)).

Lemma get_set_eq k v d : get k (set k v d) = Some v.
  Proof.
    induction d as [|[k' v'] d IH]; simpl.
    - by rewrite decide_True.
    - destruct (decide (k = k')) as [->|Hne]; simpl.
      + by rewrite decide_True.
      + by rewrite decide_False.
  Qed.

Lemma get_set_ne k k' v d : k <> k' -> get k' (set k v d) = get k' d.
  Proof.
    intros Hne. induction d as [|[k0 v0] d IH]; simpl.
    - rewrite decide_False; [done | congruence].
    - destruct (decide (k = k0)) as [->|Hne0]; simpl.
      + rewrite !decide_False; [done | congruence | congruence].
      + destruct (decide (k' = k0)); [done | apply IH].
  Qed.

Lemma get_del_eq k d : get k (del k d) = None.
  Proof.
    induction d as [|[k' v'] d IH]; simpl; [done|].
    destruct (decide (k = k')) as [->|Hne]; simpl; [done|].
    by rewrite decide_False.
  Qed.

Lemma get_del_ne k k' d : k <> k' -> get k' (del k d) = get k' d.
  Proof.
    intros Hne. induction d as [|[k0 v0] d IH]; simpl; [done|].
    destruct (decide (k = k0)) as [->|Hne0]; simpl.
    - rewrite decide_False; [apply IH | congruence].
    - destruct (decide (k' = k0)); [done | apply IH].
  Qed.

Lemma del_absent k d : get k d = None -> del k d = d.
  Proof.
    induction d as [|[k' v'] d IH]; simpl; [done|].
    destruct (decide (k = k')); [done|]. intros H. by rewrite IH.
  Qed.

Lemma get_Some_elem k v d : get k d = Some v -> (k, v) ∈ d.
  Proof.
    induction d as [|[k' v'] d IH]; simpl; [done|].
    destruct (decide (k = k')) as [->|Hne].
    - intros [= ->]. apply list_elem_of_here.
    - intros H. apply list_elem_of_further. by apply IH.
  Qed.

Lemma get_None_keys k d : get k d = None <-> k ∉ keys d.
  Proof.
    unfold keys. induction d as [|[k' v'] d IH]; simpl.
    - split; [intros _; apply not_elem_of_nil | done].
    - rewrite not_elem_of_cons. destruct (decide (k = k')) as [->|Hne].
      + split; [done | intros [? _]; done].
      + rewrite IH. tauto.
  Qed.

Lemma elem_get k v d : NoDup (keys d) -> (k, v) ∈ d -> get k d = Some v.
  Proof.
    unfold keys. induction d as [|[k' v'] d IH]; simpl.
    - intros _ H. by apply elem_of_nil in H.
    - intros Hnd Hin. apply NoDup_cons in Hnd as [Hk' Hnd].
      apply elem_of_cons in Hin as [[= -> ->]|Hin].
      + by rewrite decide_True.
      + destruct (decide (k = k')) as [->|Hne]; [|by apply IH].
        exfalso. apply Hk'. apply list_elem_of_fmap. by exists (k', v).
  Qed.

Lemma keys_set_present k v d :
    is_Some (get k d) -> keys (set k v d) = keys d.
  Proof.
    unfold keys. induction d as [|[k' v'] d IH]; simpl.
    - intros [? [=]].
    - destruct (decide (k = k')) as [->|Hne]; simpl; [done|].
      intros H. by rewrite IH.
  Qed.

Lemma set_absent k v d : get k d = None -> set k v d = d ++ [(k, v)].
  Proof.
    induction d as [|[k' v'] d IH]; simpl; [done|].
    destruct (decide (k = k')); [done|]. intros H. by rewrite IH.
  Qed.

Lemma length_set_present k v d :
  is_Some (get k d) -> length (set k v d) = length d.
Proof.
  induction d as [|[k' v'] d IH]; simpl.
  - intros [? [=]].
  - destruct (decide (k = k')); [done|]. intros H. simpl. by rewrite IH.
Qed.

Lemma length_set_absent k v d :
  get k d = None -> length (set k v d) = S (length d).
Proof.
  intros H. rewrite set_absent by done. rewrite length_app. simpl. lia.
Qed.

Lemma keys_set_absent k v d :
  get k d = None -> keys (set k v d) = keys d ++ [k].
Proof.
  intros H. rewrite set_absent by done. unfold keys. by rewrite map_app.
Qed.

Lemma NoDup_keys_set k v d : NoDup (keys d) -> NoDup (keys (set k v d)).
Proof.
  intros Hnd. destruct (get k d) as [v0|] eqn:Hget.
  - by rewrite keys_set_present.
  - rewrite keys_set_absent by done. apply NoDup_app.
    split; [done|]. split; [|apply NoDup_singleton].
    intros x Hx Hx'. apply list_elem_of_singleton in Hx'. subst x.
    by apply get_None_keys in Hget.
Qed.

Lemma keys_del_elem k k' d : k' ∈ keys (del k d) -> k' ∈ keys d.
Proof.
  unfold keys. induction d as [|[k0 v0] d IH]; simpl; [done|].
  destruct (decide (k = k0)); simpl.
  - intros H. apply list_elem_of_further. by apply IH.
  - rewrite !elem_of_cons. intros [H|H]; [by left|right; by apply IH].
Qed.

Lemma NoDup_keys_del k d : NoDup (keys d) -> NoDup (keys (del k d)).
Proof.
  unfold keys. induction d as [|[k0 v0] d IH]; simpl; [done|].
  rewrite NoDup_cons. intros [Hk0 Hnd].
  destruct (decide (k = k0)); simpl; [by apply IH|].
  apply NoDup_cons. split; [|by apply IH].
  intros H. apply Hk0. by eapply keys_del_elem.
Qed.

Lemma length_del_le k d : length (del k d) <= length d.
Proof.
  induction d as [|[k0 v0] d IH]; simpl; [done|].
  destruct (decide (k = k0)); simpl; lia.
Qed.

Lemma length_del_present k d :
  is_Some (get k d) -> length (del k d) < length d.
Proof.
  induction d as [|[k0 v0] d IH]; simpl.
  - intros [? [=]].
  - destruct (decide (k = k0)); simpl.
    + intros _. pose proof (length_del_le k d). lia.
    + intros H. specialize (IH H). lia.
Qed.

Lemma elem_keys_get k d : k ∈ keys d -> is_Some (get k d).
Proof.
  intros H. destruct (get k d) eqn:Hg; [done|].
  by apply get_None_keys in Hg.
Qed.

(** *** Deletion of several keys, and filtering *)

Lemma fold_del_cons ks k v d :
  fold_left (fun d key => del key d) ks ((k, v) :: d) =
  if bool_decide (k ∈ ks) then fold_left (fun d key => del key d) ks d
  else (k, v) :: fold_left (fun d key => del key d) ks d.
Proof.
  revert d. induction ks as [|k0 ks IH]; intros d; [done|].
  cbn [fold_left del]. destruct (decide (k0 = k)) as [->|Hne].
  - rewrite bool_decide_true by apply list_elem_of_here. done.
  - rewrite IH. destruct (bool_decide (k ∈ ks)) eqn:Hin.
    + apply bool_decide_eq_true in Hin.
      rewrite bool_decide_true by by apply list_elem_of_further. done.
    + apply bool_decide_eq_false in Hin. rewrite bool_decide_false; [done|].
      rewrite elem_of_cons. intros [?|?]; congruence.
Qed.

Lemma fold_del_filter ks d :
  fold_left (fun d key => del key d) ks d =
  List.filter (fun kv => negb (bool_decide (fst kv ∈ ks))) d.
Proof.
  induction d as [|[k v] d IH].
  - induction ks as [|k0 ks IHks]; [done|exact IHks].
  - rewrite fold_del_cons. cbn [List.filter fst].
    destruct (bool_decide (k ∈ ks)); cbn [negb]; by rewrite IH.
Qed.

Lemma key_unique d kv kv' :
  NoDup (keys d) -> kv ∈ d -> kv' ∈ d -> fst kv = fst kv' -> kv = kv'.
Proof.
  unfold keys. induction d as [|[k0 v0] d IH]; intros Hnd Hin Hin' Hfst.
  - by apply elem_of_nil in Hin.
  - cbn [map fst] in Hnd. apply NoDup_cons in Hnd as [Hk Hnd].
    apply elem_of_cons in Hin as [->|Hin];
      apply elem_of_cons in Hin' as [->|Hin']; [done| | |by apply IH].
    + exfalso. apply Hk, list_elem_of_fmap. by exists kv'.
    + exfalso. apply Hk, list_elem_of_fmap. by exists kv.
Qed.

(** Deleting the keys of the entries selected by [P] leaves the entries
    that [P] rejects, when every key occurs once. *)
Lemma fold_del_filtered (P : K * V -> bool) d :
  NoDup (keys d) ->
  fold_left (fun d key => del key d) (map fst (List.filter P d)) d =
  List.filter (fun kv => negb (P kv)) d.
Proof.
  intros Hnd. rewrite fold_del_filter. apply List.filter_ext_in.
  intros kv Hin. apply list_elem_of_In in Hin. f_equal.
  destruct (P kv) eqn:HP.
  - apply bool_decide_eq_true. apply list_elem_of_fmap. exists kv.
    split; [done|]. apply list_elem_of_In, List.filter_In.
    split; [by apply list_elem_of_In|done].
  - apply bool_decide_eq_false. intros Hk.
    apply list_elem_of_fmap in Hk as (kv' & Hfst & Hin').
    apply list_elem_of_In, List.filter_In in Hin' as [Hin' HP'].
    apply list_elem_of_In in Hin'.
    assert (kv = kv') by by eapply key_unique. congruence.
Qed.

Lemma keys_filter_elem (P : K * V -> bool) d k :
  k ∈ keys (List.filter P d) -> k ∈ keys d.
Proof.
  unfold keys. intros Hk. apply list_elem_of_fmap in Hk as (kv & -> & Hin).
  apply list_elem_of_In, List.filter_In in Hin as [Hin _].
  apply list_elem_of_fmap. exists kv. split; [done|by apply list_elem_of_In].
Qed.

Lemma NoDup_keys_filter (P : K * V -> bool) d :
  NoDup (keys d) -> NoDup (keys (List.filter P d)).
Proof.
  induction d as [|[k v] d IH]; [done|].
  unfold keys. cbn [map List.filter fst]. rewrite NoDup_cons. intros [Hk Hnd].
  destruct (P (k, v)); [|by apply IH].
  cbn [map fst]. apply NoDup_cons. split; [|by apply IH].
  intros Hin. apply Hk. by eapply keys_filter_elem.
Qed.

(** An entry found under its key and accepted by the filter is found
    under the same key afterwards. *)
Lemma get_filter_keep (P : K * V -> bool) k v d :
  get k d = Some v -> P (k, v) = true -> get k (List.filter P d) = Some v.
Proof.
  induction d as [|[k0 v0] d IH]; [done|]. cbn [get List.filter].
  destruct (decide (k = k0)) as [->|Hne].
  - intros [= ->] HP. rewrite HP. cbn [get]. by rewrite decide_True.
  - intros Hg HP. destruct (P (k0, v0)); [|by apply IH].
    cbn [get]. rewrite decide_False by done. by apply IH.
Qed.

Lemma get_filter_None (P : K * V -> bool) k d :
  get k d = None -> get k (List.filter P d) = None.
Proof.
  intros Hg. apply get_None_keys. intros Hin.
  apply get_None_keys in Hg. apply Hg. by eapply keys_filter_elem.
Qed.

(** Writing back the value a key already has changes nothing. *)
Lemma set_same k v d : get k d = Some v -> set k v d = d.
Proof.
  induction d as [|[k0 v0] d IH]; [done|]. cbn [get set].
  destruct (decide (k = k0)) as [->|Hne].
  - by intros [= ->].
  - intros Hg. by rewrite IH.
Qed.

Lemma get_Some_keys k v d : get k d = Some v -> k ∈ keys d.
Proof.
  intros Hg. apply list_elem_of_fmap. exists (k, v).
  split; [done|by apply get_Some_elem].
Qed.

Lemma elem_set k v d kv : kv ∈ set k v d -> kv = (k, v) \/ kv ∈ d.
Proof.
  induction d as [|[k0 v0] d IH]; cbn [set].
  - intros Hin. apply list_elem_of_singleton in Hin. by left.
  - destruct (decide (k = k0)).
    + rewrite !elem_of_cons. intros [?|?]; [by left|right; by right].
    + rewrite !elem_of_cons. intros [?|Hin]; [right; by left|].
      destruct (IH Hin); [by left|right; by right].
Qed.

Lemma elem_del k d kv : kv ∈ del k d -> kv ∈ d.
Proof.
  induction d as [|[k0 v0] d IH]; cbn [del]; [done|].
  destruct (decide (k = k0)).
  - intros Hin. apply list_elem_of_further. by apply IH.
  - rewrite !elem_of_cons. intros [?|?]; [by left|right; by apply IH].
Qed.

End DictFacts.

(** ** Startup reconciliation *)

Section LifecycleFacts.
Import Lifecycle.
Variable os_kill_0 : Z -> bool.

Lemma reconcile_name a : name (reconcile os_kill_0 a) = name a.
Proof.
  unfold reconcile. destruct (recorded_pid a) as [p|]; [|done].
  by destruct (os_kill_0 p).
Qed.

Lemma reconcile_live a :
  probes_live os_kill_0 a = true -> reconcile os_kill_0 a = a.
Proof.
  unfold probes_live, reconcile.
  destruct (recorded_pid a) as [p|]; [|done]. by intros ->.
Qed.

Lemma reconcile_stale a :
  probes_live os_kill_0 a = false -> status (reconcile os_kill_0 a) = "stopped".
Proof.
  unfold probes_live, reconcile.
  destruct (recorded_pid a) as [p|]; [|done]. by intros ->.
Qed.

Lemma cleanup_pointwise db :
  Forall2 (reconciled os_kill_0) db (cleanup_stale_agents os_kill_0 db).
Proof.
  unfold cleanup_stale_agents.
  induction db as [|a db IH]; simpl; constructor; [|exact IH].
  unfold reconciled. destruct (decide (status a = "running")) as [Hrun|Hrun].
  - split; [apply reconcile_name|].
    destruct (probes_live os_kill_0 a) eqn:Hp.
    + by apply reconcile_live.
    + by apply reconcile_stale.
  - done.
Qed.

Lemma cleanup_running_is_live db a' :
  a' ∈ cleanup_stale_agents os_kill_0 db ->
  status a' = "running" -> probes_live os_kill_0 a' = true.
Proof.
  unfold cleanup_stale_agents. intros Hin Hrun.
  apply list_elem_of_fmap in Hin as (a & -> & _).
  destruct (decide (status a = "running")) as [Ha|Ha]; [|congruence].
  destruct (probes_live os_kill_0 a) eqn:Hp.
  - by rewrite reconcile_live.
  - rewrite reconcile_stale in Hrun; done.
Qed.

(** C9. After [cleanup_stale_agents], every record persisted as running
    has a recorded pid that answers the zero-signal probe; a record that
    was running and whose pid is missing or does not answer the probe is
    stopped; a running record whose pid answers the probe, and every record
    that was not running, is unchanged.  Names are never changed and no
    record is added or dropped. *)
Theorem cleanup_stale_agents_reconciles (db : list Agent) :
  Forall2 (reconciled os_kill_0) db (cleanup_stale_agents os_kill_0 db) /\
  Forall (fun a' => if decide (status a' = "running")
                    then probes_live os_kill_0 a' = true else True)
         (cleanup_stale_agents os_kill_0 db).
Proof.
  split; [apply cleanup_pointwise|].
  apply Forall_forall. intros a' Hin.
  destruct (decide (status a' = "running")); [|done].
  by eapply cleanup_running_is_live.
Qed.

(** *** The reconciliation run twice, and the number it reports *)

Lemma reconcile_step_idempotent a :
  let f := fun a => if decide (status a = "running")
                    then reconcile os_kill_0 a else a in
  f (f a) = f a.
Proof.
  cbv beta zeta. destruct (decide (status a = "running")) as [Hrun|Hrun].
  - destruct (probes_live os_kill_0 a) eqn:Hlive.
    + rewrite !(reconcile_live a Hlive). by rewrite decide_True.
    + rewrite decide_False; [done|]. by rewrite (reconcile_stale a Hlive).
  - by rewrite decide_False.
Qed.

Lemma reconcile_counted_spec a n :
  reconcile_counted os_kill_0 a n =
  (reconcile os_kill_0 a,
   if probes_live os_kill_0 a then n else (n + 1)%nat).
Proof.
  unfold reconcile_counted, reconcile, probes_live.
  destruct (recorded_pid a) as [p|]; [|done]. by destruct (os_kill_0 p).
Qed.

(** The loop with the counter builds the same table, and each increment
    of the counter goes with one record leaving the running state. *)
Lemma cleanup_loop_spec db : forall n,
  fst (cleanup_loop os_kill_0 db n) = cleanup_stale_agents os_kill_0 db /\
  (snd (cleanup_loop os_kill_0 db n) +
   count_running (cleanup_stale_agents os_kill_0 db) =
   n + count_running db)%nat.
Proof.
  unfold cleanup_stale_agents, count_running.
  induction db as [|a db IH]; intros n; [split; [done|cbn; lia]|].
  cbn [cleanup_loop map List.filter].
  destruct (decide (status a = "running")) as [Hrun|Hrun].
  - rewrite reconcile_counted_spec, (bool_decide_true _ Hrun).
    destruct (probes_live os_kill_0 a) eqn:Hlive.
    + destruct (IH n) as [Htable Hcount].
      destruct (cleanup_loop os_kill_0 db n) as [rest m]. cbn [fst snd] in *.
      rewrite (reconcile_live a Hlive), (bool_decide_true _ Hrun).
      split; [by rewrite Htable|]. cbn [length]. lia.
    + destruct (IH (n + 1)%nat) as [Htable Hcount].
      destruct (cleanup_loop os_kill_0 db (n + 1)) as [rest m].
      cbn [fst snd] in *.
      rewrite bool_decide_false by by rewrite (reconcile_stale a Hlive).
      split; [by rewrite Htable|]. cbn [length]. lia.
  - destruct (IH n) as [Htable Hcount].
    destruct (cleanup_loop os_kill_0 db n) as [rest m]. cbn [fst snd] in *.
    rewrite (bool_decide_false _ Hrun).
    split; [by rewrite Htable|]. lia.
Qed.

Lemma cleanup_idempotent db :
  cleanup_stale_agents os_kill_0 (cleanup_stale_agents os_kill_0 db) =
  cleanup_stale_agents os_kill_0 db.
Proof.
  unfold cleanup_stale_agents. rewrite map_map. apply map_ext.
  intros a. apply (reconcile_step_idempotent a).
Qed.

(** X15. The startup reconciliation with the number it prints.  The
    loop that carries the counter [cleaned_count] leaves the table that
    [cleanup_stale_agents] is specified by; the number printed is the
    number of records that were running before and are not running
    afterwards; the records keep their names and their order; a second
    run with the same answers of the probe changes nothing and prints
    zero. *)
Theorem cleanup_stale_agents_idempotent (db : list Agent) :
  let db' := cleanup_stale_agents os_kill_0 db in
  let printed := snd (cleanup_stale_agents_counted os_kill_0 db) in
  fst (cleanup_stale_agents_counted os_kill_0 db) = db' /\
  count_running db = (printed + count_running db')%nat /\
  map name db' = map name db /\
  cleanup_stale_agents_counted os_kill_0 db' = (db', 0%nat).
Proof.
  cbv zeta. unfold cleanup_stale_agents_counted.
  destruct (cleanup_loop_spec db 0) as [Htable Hcount].
  split; [exact Htable|]. split; [lia|]. split.
  - unfold cleanup_stale_agents. rewrite map_map. apply map_ext.
    intros a. destruct (decide (status a = "running"));
      [apply reconcile_name|done].
  - destruct (cleanup_loop_spec (cleanup_stale_agents os_kill_0 db) 0)
      as [Htable2 Hcount2].
    rewrite cleanup_idempotent in Htable2, Hcount2.
    rewrite (surjective_pairing (cleanup_loop _ _ _)).
    rewrite Htable2. f_equal. lia.
Qed.

End LifecycleFacts.

(** ** Stopping an agent *)

Section StopFacts.
Import Lifecycle.
Context {Process : Type}.
Variable stop_tracked : Process -> bool.
Variable os_kill_term : Z -> KillOutcome.

Lemma find_agent_name agent_name db a :
  find_agent agent_name db = Some a -> name a = agent_name.
Proof.
  intros Hfind. apply List.find_some in Hfind as [_ Hname].
  by apply bool_decide_eq_true in Hname.
Qed.

Lemma find_agent_mark_stopped agent_name db a :
  find_agent agent_name db = Some a ->
  find_agent agent_name (mark_stopped agent_name db) =
  Some {| name := agent_name; status := "stopped"; pid := None |}.
Proof.
  unfold find_agent. induction db as [|x db IH]; [done|].
  cbn [List.find mark_stopped].
  destruct (bool_decide (name x = agent_name)) eqn:Hx.
  - intros _. apply bool_decide_eq_true in Hx. cbn [List.find name].
    by rewrite Hx, bool_decide_true.
  - intros Hfind. cbn [List.find]. rewrite Hx. by apply IH.
Qed.

Lemma find_agent_mark_stopped_other agent_name n db :
  n <> agent_name ->
  find_agent n (mark_stopped agent_name db) = find_agent n db.
Proof.
  intros Hne. unfold find_agent. induction db as [|x db IH]; [done|].
  cbn [List.find mark_stopped].
  destruct (bool_decide (name x = agent_name)) eqn:Hx.
  - apply bool_decide_eq_true in Hx. cbn [List.find name].
    rewrite !bool_decide_false by congruence. done.
  - cbn [List.find]. by rewrite IH.
Qed.

Lemma names_mark_stopped agent_name db :
  map name (mark_stopped agent_name db) = map name db.
Proof.
  induction db as [|x db IH]; [done|]. cbn [mark_stopped].
  destruct (bool_decide (name x = agent_name)); cbn [map name]; [done|].
  by rewrite IH.
Qed.

Lemma mark_stopped_idempotent agent_name db :
  mark_stopped agent_name (mark_stopped agent_name db) =
  mark_stopped agent_name db.
Proof.
  induction db as [|x db IH]; [done|]. cbn [mark_stopped].
  destruct (bool_decide (name x = agent_name)) eqn:Hx;
    cbn [mark_stopped name]; rewrite Hx; [done|by rewrite IH].
Qed.

(** The update of the database, from a state in which the agent is not
    tracked. *)
Lemma update_database_spec agent_name (w : Orchestrator) :
  OrderedDict.get agent_name (running_processes w) = None ->
  let r := update_database agent_name w in
  match fst r with
  | Stopped =>
      is_Some (find_agent agent_name (agents w)) /\
      running_processes (snd r) = running_processes w /\
      agents (snd r) = mark_stopped agent_name (agents w) /\
      stop_agent_process stop_tracked os_kill_term agent_name (snd r) =
        (Stopped, snd r)
  | NotFoundInDatabase =>
      find_agent agent_name (agents w) = None /\ snd r = w
  | ErrorStoppingProcess | ErrorKillingStalePid => False
  end.
Proof.
  intros Hget. unfold update_database.
  destruct (find_agent agent_name (agents w)) as [a|] eqn:Hfind;
    cbn [fst snd]; [|done].
  split; [done|]. split; [done|]. split; [done|].
  unfold stop_agent_process. cbn [running_processes agents].
  rewrite Hget, (find_agent_mark_stopped _ _ _ Hfind).
  unfold recorded_pid, update_database. cbn [pid running_processes agents].
  by rewrite (find_agent_mark_stopped _ _ _ Hfind), mark_stopped_idempotent.
Qed.

(** X16. [stop_agent_process], by the result it returns.  When it
    reports success, the agent is no longer tracked, the record the
    query returns for its name is stopped and has no pid, the table keeps
    its names and their order, the records and the tracked processes of
    the other names are as before, and stopping the agent once more
    reports success and changes nothing.  When the agent is not in the
    database, the table is unchanged and the agent is not tracked (a
    tracked process has been shut down and removed all the same).  When
    the shutdown of the tracked process or the signal to the stale pid
    fails, nothing is changed. *)
Theorem stop_agent_process_spec (agent_name : string) (w : Orchestrator) :
  let r := stop_agent_process stop_tracked os_kill_term agent_name w in
  match fst r with
  | Stopped =>
      OrderedDict.get agent_name (running_processes (snd r)) = None /\
      is_Some (find_agent agent_name (agents w)) /\
      find_agent agent_name (agents (snd r)) =
        Some {| name := agent_name; status := "stopped"; pid := None |} /\
      map name (agents (snd r)) = map name (agents w) /\
      (forall n, n <> agent_name ->
         find_agent n (agents (snd r)) = find_agent n (agents w) /\
         OrderedDict.get n (running_processes (snd r)) =
           OrderedDict.get n (running_processes w)) /\
      stop_agent_process stop_tracked os_kill_term agent_name (snd r) =
        (Stopped, snd r)
  | NotFoundInDatabase =>
      find_agent agent_name (agents w) = None /\
      agents (snd r) = agents w /\
      OrderedDict.get agent_name (running_processes (snd r)) = None /\
      forall n, n <> agent_name ->
        OrderedDict.get n (running_processes (snd r)) =
        OrderedDict.get n (running_processes w)
  | ErrorStoppingProcess | ErrorKillingStalePid => snd r = w
  end.
Proof.
  assert (Hgen : forall w0 : Orchestrator,
    OrderedDict.get agent_name (running_processes w0) = None ->
    agents w0 = agents w ->
    (forall n, n <> agent_name ->
       OrderedDict.get n (running_processes w0) =
       OrderedDict.get n (running_processes w)) ->
    let r := update_database agent_name w0 in
    match fst r with
    | Stopped =>
        OrderedDict.get agent_name (running_processes (snd r)) = None /\
        is_Some (find_agent agent_name (agents w)) /\
        find_agent agent_name (agents (snd r)) =
          Some {| name := agent_name; status := "stopped"; pid := None |} /\
        map name (agents (snd r)) = map name (agents w) /\
        (forall n, n <> agent_name ->
           find_agent n (agents (snd r)) = find_agent n (agents w) /\
           OrderedDict.get n (running_processes (snd r)) =
             OrderedDict.get n (running_processes w)) /\
        stop_agent_process stop_tracked os_kill_term agent_name (snd r) =
          (Stopped, snd r)
    | NotFoundInDatabase =>
        find_agent agent_name (agents w) = None /\
        agents (snd r) = agents w /\
        OrderedDict.get agent_name (running_processes (snd r)) = None /\
        forall n, n <> agent_name ->
          OrderedDict.get n (running_processes (snd r)) =
          OrderedDict.get n (running_processes w)
    | ErrorStoppingProcess | ErrorKillingStalePid => snd r = w
    end).
  { intros w0 Hget Hagents Hothers r.
    pose proof (update_database_spec agent_name w0 Hget) as Hspec.
    cbv zeta in Hspec. fold r in Hspec.
    destruct (fst r); [|done|done|].
    - destruct Hspec as ([a Hfind] & Hrp & Hdb & Hagain).
      rewrite Hrp, Hdb, Hagents in *.
      split; [done|]. split; [by exists a|].
      split; [by eapply find_agent_mark_stopped|].
      split; [apply names_mark_stopped|]. split; [|done].
      intros n Hn. split; [by apply find_agent_mark_stopped_other|].
      by apply Hothers.
    - destruct Hspec as [Hfind ->]. rewrite <- Hagents. done. }
  unfold stop_agent_process.
  destruct (OrderedDict.get agent_name (running_processes w))
    as [proc_info|] eqn:Hget.
  - destruct (stop_tracked proc_info); [|done].
    apply Hgen; cbn [running_processes agents]; [apply get_del_eq|done|].
    intros n Hn. by apply get_del_ne.
  - assert (Hw : let r := update_database agent_name w in _) by
      exact (Hgen w Hget eq_refl (fun _ _ => eq_refl)).
    destruct (find_agent agent_name (agents w)) as [db_agent|] eqn:Hfind;
      [|exact Hw].
    destruct (recorded_pid db_agent) as [p|]; [|exact Hw].
    destruct (bool_decide (status db_agent = "running")); [|exact Hw].
    destruct (os_kill_term p); [exact Hw|exact Hw|done].
Qed.

End StopFacts.


(** ** Round-robin selection *)

Section DiscoveryFacts.
Import Discovery.

(** While the stored index is inside the list, the selector returns a
    known agent and stores an index that is inside the same list. *)
Lemma find_agent_in_range fetched d i :
  available_agents d <> [] ->
  _last_assigned_agent_index d = Some i ->
  (i < length (available_agents d))%nat ->
  exists agent_name d',
    find_agent_for_task fetched d = (Returned (Some agent_name), d') /\
    agent_name ∈ available_agents d /\
    available_agents d' = available_agents d /\
    exists j, _last_assigned_agent_index d' = Some j /\
              (j < length (available_agents d))%nat.
Proof.
  intros Hne Hidx Hlt. unfold find_agent_for_task.
  destruct (available_agents d) as [|a l] eqn:Hav; [done|].
  rewrite Hav, Hidx. simpl default.
  destruct (lookup_lt_is_Some_2 (a :: l) i Hlt) as [x Hx].
  rewrite Hx. exists x. eexists. split; [reflexivity|].
  split; [by eapply list_elem_of_lookup_2|]. split; [reflexivity|].
  eexists. split; [reflexivity|]. by apply Nat.mod_upper_bound.
Qed.

(** The first selection of a fresh selector. *)
Lemma find_agent_first fetched d :
  available_agents d <> [] ->
  _last_assigned_agent_index d = None ->
  exists agent_name d',
    find_agent_for_task fetched d = (Returned (Some agent_name), d') /\
    head (available_agents d) = Some agent_name.
Proof.
  intros Hne Hidx. unfold find_agent_for_task.
  destruct (available_agents d) as [|a l] eqn:Hav; [done|].
  rewrite Hav, Hidx. simpl. by eexists _, _.
Qed.

(** With no agent known and none discovered the selector returns [None]. *)
Lemma find_agent_none d :
  available_agents d = [] ->
  fst (find_agent_for_task (Some []) d) = Returned None /\
  fst (find_agent_for_task None d) = Returned None.
Proof.
  intros Hav. unfold find_agent_for_task, discover_agents.
  rewrite Hav. simpl. by rewrite Hav.
Qed.

(** C10. The selector can raise: after two selections among three agents
    and a rediscovery that finds two, the stored index 2 is outside the
    list of two names, and the next call ends in [IndexError] instead of
    returning an agent name or [None]. *)
Theorem find_agent_for_task_raises_after_shrink :
  available_agents after_two_calls_and_shrink = ["planner"; "writer"] /\
  _last_assigned_agent_index after_two_calls_and_shrink = Some 2%nat /\
  fst (find_agent_for_task None after_two_calls_and_shrink) = IndexError.
Proof. repeat split. Qed.

(** *** The rotation *)

Lemma find_agent_step fetched d i :
  available_agents d <> [] ->
  default 0%nat (_last_assigned_agent_index d) = i ->
  (i < length (available_agents d))%nat ->
  find_agent_for_task fetched d =
  (Returned (available_agents d !! i),
   {| available_agents := available_agents d;
      _last_assigned_agent_index :=
        Some ((i + 1) mod length (available_agents d))%nat |}).
Proof.
  intros Hne Hidx Hlt. unfold find_agent_for_task.
  destruct (available_agents d) as [|a l] eqn:Hl; [done|].
  rewrite Hl, Hidx.
  destruct (lookup_lt_is_Some_2 (a :: l) i Hlt) as [x Hx].
  by rewrite Hx.
Qed.

Lemma find_agents_cycle fetches : forall d i,
  available_agents d <> [] ->
  default 0%nat (_last_assigned_agent_index d) = i ->
  (i < length (available_agents d))%nat ->
  fst (find_agents fetches d) =
    map (fun j => Returned (available_agents d !!
                              ((i + j) mod length (available_agents d))%nat))
        (seq 0 (length fetches)) /\
  available_agents (snd (find_agents fetches d)) = available_agents d.
Proof.
  induction fetches as [|fetched fetches IH]; intros d i Hne Hidx Hlt; [done|].
  cbn [find_agents]. rewrite (find_agent_step fetched d i Hne Hidx Hlt).
  set (d1 := {| available_agents := available_agents d;
                _last_assigned_agent_index := _ |}).
  assert (Hk : (0 < length (available_agents d))%nat) by lia.
  destruct (IH d1 ((i + 1) mod length (available_agents d))%nat)
    as [Hres Hnames]; [done|done| |].
  { change (available_agents d1) with (available_agents d).
    apply Nat.mod_upper_bound. lia. }
  destruct (find_agents fetches d1) as [rs d2]. cbn [fst snd] in *.
  split; [|done]. rewrite Hres. cbn [length seq map].
  f_equal.
  - rewrite Nat.add_0_r, Nat.mod_small by done. done.
  - rewrite <- seq_shift, map_map. apply map_ext. intros j.
    change (available_agents d1) with (available_agents d).
    do 2 f_equal. rewrite Nat.Div0.add_mod_idemp_l. f_equal. lia.
Qed.

Lemma rotate_nat_add_mod (base offset len : nat) :
  rotate_nat_add base offset len = ((base + offset) mod len)%nat.
Proof.
  unfold rotate_nat_add.
  by rewrite <- Nat2Z.inj_add, <- Nat2Z.inj_mod, Nat2Z.id.
Qed.

(** X10. Round-robin selection.  With [k >= 1] known agents and the
    stored index [i < k] (0 before the first selection), the calls of
    [find_agent_for_task] made in a row return the agents at the
    positions [i, i+1, ...] modulo [k]: no call raises, none returns
    [None], none changes the list of agents, whatever a discovery would
    find.  In particular [k] calls in a row return every agent once: the
    list of agents rotated by [i]. *)
Theorem find_agent_for_task_round_robin
    (fetches : list (option (list string))) (d : AgentDiscovery) (i : nat) :
  let names := available_agents d in
  let k := length names in
  names <> [] ->
  default 0%nat (_last_assigned_agent_index d) = i ->
  (i < k)%nat ->
  fst (find_agents fetches d) =
    map (fun j => Returned (names !! ((i + j) mod k)%nat))
        (seq 0 (length fetches)) /\
  Forall (fun r => exists agent, r = Returned (Some agent) /\ agent ∈ names)
         (fst (find_agents fetches d)) /\
  available_agents (snd (find_agents fetches d)) = names /\
  (length fetches = k ->
   fst (find_agents fetches d) =
     map (fun agent => Returned (Some agent)) (rotate i names)).
Proof.
  intros names k Hne Hidx Hlt.
  destruct (find_agents_cycle fetches d i Hne Hidx Hlt) as [Hres Hnames].
  fold names in Hres, Hnames. fold k in Hres.
  split; [exact Hres|]. split; [|split; [exact Hnames|]].
  - rewrite Hres. apply Forall_forall. intros r Hr.
    apply list_elem_of_fmap in Hr as (j & -> & _).
    assert (Hj : ((i + j) mod k < length names)%nat)
      by (apply Nat.mod_upper_bound; unfold k in *; lia).
    destruct (lookup_lt_is_Some_2 names _ Hj) as [x Hx].
    exists x. rewrite Hx. split; [done|]. by eapply list_elem_of_lookup_2.
  - intros Hlen. rewrite Hres, Hlen. apply list_eq. intros j.
    rewrite !list_lookup_fmap.
    destruct (decide (j < k)%nat) as [Hj|Hj].
    + rewrite lookup_seq_lt by done. cbn [fmap option_fmap option_map].
      rewrite lookup_rotate_r by done. fold k. rewrite rotate_nat_add_mod.
      assert (Hm : ((i + j) mod k < length names)%nat)
        by (apply Nat.mod_upper_bound; unfold k in *; lia).
      destruct (lookup_lt_is_Some_2 names _ Hm) as [x Hx].
      rewrite Nat.add_0_l. by rewrite Hx.
    + rewrite lookup_seq_ge by lia.
      rewrite (lookup_ge_None_2 (rotate i names)); [done|].
      rewrite length_rotate. fold k. lia.
Qed.

(** *** Discovery *)

Lemma parse_runbooks_keys self_name runbooks_data : forall acc k,
  k ∈ OrderedDict.keys (parse_runbooks self_name runbooks_data acc) ->
  k ∈ OrderedDict.keys acc \/
  (k <> self_name /\
   exists agent_data, Some agent_data ∈ runbooks_data /\
                      agent_name agent_data = k).
Proof.
  induction runbooks_data as [|[e|] rest IH]; intros acc k Hk;
    cbn [parse_runbooks] in Hk; [by left| |by left].
  destruct (decide (agent_name e = self_name)) as [Heq|Hne].
  - destruct (IH _ _ Hk) as [?|(? & e' & ? & ?)]; [by left|].
    right. split; [done|]. exists e'. split; [by apply list_elem_of_further|done].
  - destruct (IH _ _ Hk) as [Hin|(? & e' & ? & ?)].
    + destruct (OrderedDict.get (agent_name e) acc) eqn:Hg.
      * rewrite keys_set_present in Hin by done. by left.
      * rewrite keys_set_absent in Hin by done.
        apply elem_of_app in Hin as [?|Hin]; [by left|].
        apply list_elem_of_singleton in Hin. subst k. right.
        split; [done|]. exists e. split; [apply list_elem_of_here|done].
    + right. split; [done|]. exists e'.
      split; [by apply list_elem_of_further|done].
Qed.

Lemma parse_runbooks_NoDup self_name runbooks_data : forall acc,
  NoDup (OrderedDict.keys acc) ->
  NoDup (OrderedDict.keys (parse_runbooks self_name runbooks_data acc)).
Proof.
  induction runbooks_data as [|[e|] rest IH]; intros acc Hacc;
    cbn [parse_runbooks]; [done| |done].
  destruct (decide (agent_name e = self_name)); [by apply IH|].
  by apply IH, NoDup_keys_set.
Qed.

Lemma parse_runbooks_keeps self_name runbooks_data : forall acc k,
  k ∈ OrderedDict.keys acc ->
  k ∈ OrderedDict.keys (parse_runbooks self_name runbooks_data acc).
Proof.
  induction runbooks_data as [|[e|] rest IH]; intros acc k Hk;
    cbn [parse_runbooks]; [done| |done].
  destruct (decide (agent_name e = self_name)); [by apply IH|].
  apply IH. destruct (OrderedDict.get (agent_name e) acc) eqn:Hg.
  - by rewrite keys_set_present.
  - rewrite keys_set_absent by done. apply elem_of_app. by left.
Qed.

Lemma parse_runbooks_complete self_name runbooks_data : forall acc agent_data,
  forallb (fun e => bool_decide (is_Some e)) runbooks_data = true ->
  Some agent_data ∈ runbooks_data ->
  agent_name agent_data <> self_name ->
  agent_name agent_data ∈
    OrderedDict.keys (parse_runbooks self_name runbooks_data acc).
Proof.
  induction runbooks_data as [|[e|] rest IH]; intros acc agent_data Hall Hin Hne.
  - by apply elem_of_nil in Hin.
  - cbn [forallb] in Hall. apply andb_true_iff in Hall as [_ Hall].
    cbn [parse_runbooks]. apply elem_of_cons in Hin as [[= <-]|Hin].
    + rewrite decide_False by done. apply parse_runbooks_keeps.
      eapply get_Some_keys, get_set_eq.
    + destruct (decide (agent_name e = self_name)); by apply IH.
  - done.
Qed.

Lemma parse_runbooks_app self_name before rest : forall acc,
  forallb (fun e => bool_decide (is_Some e)) before = true ->
  parse_runbooks self_name (before ++ rest) acc =
  parse_runbooks self_name rest (parse_runbooks self_name before acc).
Proof.
  induction before as [|[e|] before IH]; intros acc Hall; [done| |done].
  cbn [forallb] in Hall. apply andb_true_iff in Hall as [_ Hall].
  cbn [app parse_runbooks].
  destruct (decide (agent_name e = self_name)); by apply IH.
Qed.

(** X11. What a discovery stores.  For every listing answered by the
    orchestrator, the dictionary built by [discover_agents()] holds each
    key once, never the agent's own name, and only names of listed
    agents; when no entry of the listing makes the loop fail, every
    listed agent other than the agent itself is a key, and the dictionary
    stored is the one returned.  When an entry fails, the empty
    dictionary is returned, while the dictionary stored is the one built
    from the entries before the first failing one. *)
Theorem discover_agents_skips_self
    (self_name : string) (runbooks_data : list (option RunbookData)) :
  let stored := parse_runbooks self_name runbooks_data [] in
  let returned := discover_agents_result self_name (Some runbooks_data) in
  NoDup (OrderedDict.keys stored) /\
  (self_name ∉ OrderedDict.keys stored) /\
  (forall k, k ∈ OrderedDict.keys stored ->
     exists agent_data, Some agent_data ∈ runbooks_data /\
                        agent_name agent_data = k) /\
  get_agent_capabilities stored self_name = [] /\
  if forallb (fun e => bool_decide (is_Some e)) runbooks_data then
    (returned = stored /\
     forall agent_data, Some agent_data ∈ runbooks_data ->
       agent_name agent_data <> self_name ->
       agent_name agent_data ∈ OrderedDict.keys stored)
  else
    (returned = [] /\
     forall before after,
       runbooks_data = before ++ None :: after ->
       forallb (fun e => bool_decide (is_Some e)) before = true ->
       stored = parse_runbooks self_name before []).
Proof.
  intros stored returned.
  assert (Hself : self_name ∉ OrderedDict.keys stored).
  { intros Hin. apply parse_runbooks_keys in Hin as [Hin|[Hne _]]; [|done].
    by apply elem_of_nil in Hin. }
  split; [apply parse_runbooks_NoDup, NoDup_nil_2|]. split; [exact Hself|].
  split; [|split].
  - intros k Hk. apply parse_runbooks_keys in Hk as [Hin|[_ H]]; [|done].
    by apply elem_of_nil in Hin.
  - unfold get_agent_capabilities.
    apply get_None_keys in Hself. by rewrite Hself.
  - subst returned. unfold discover_agents_result.
    destruct (forallb _ runbooks_data) eqn:Hall.
    + split; [done|]. intros agent_data Hin Hne.
      by apply parse_runbooks_complete.
    + split; [done|]. intros before after -> Hbefore.
      subst stored. by rewrite parse_runbooks_app.
Qed.

(** *** No self-delegation *)

Lemma find_agent_for_task_not_self self_name response d :
  self_name ∉ available_agents d ->
  let '(r, d') := find_agent_for_task (fetched_agents self_name response) d in
  r <> Returned (Some self_name) /\ self_name ∉ available_agents d'.
Proof.
  intros Hd. unfold find_agent_for_task.
  set (d1 := match available_agents d with [] => _ | _ :: _ => d end).
  assert (H1 : self_name ∉ available_agents d1).
  { subst d1. destruct (available_agents d) eqn:Hl; [|by rewrite Hl].
    destruct response as [data|]; cbn [fetched_agents discover_agents];
      [|by rewrite Hl].
    cbn [available_agents]. intros Hin.
    apply parse_runbooks_keys in Hin as [Hin|[Hne _]]; [|done].
    by apply elem_of_nil in Hin. }
  clearbody d1. destruct (available_agents d1) as [|a l] eqn:Hl.
  - split; [done|]. by rewrite Hl.
  - destruct ((a :: l) !! default 0%nat (_last_assigned_agent_index d1))
      as [agent|] eqn:Hlook; cbn [available_agents].
    + split; [|done]. intros [= ->]. apply H1.
      by eapply list_elem_of_lookup_2.
    + done.
Qed.

(** X12. No self-delegation.  Whatever the orchestrator answers to the
    discovery requests, from the creation of the selector on, no call of
    [find_agent_for_task] returns the name of the agent itself. *)
Theorem find_agent_for_task_never_self
    (self_name : string)
    (responses : list (option (list (option RunbookData)))) :
  Forall (fun r => r <> Returned (Some self_name))
         (fst (select_agents self_name responses)).
Proof.
  unfold select_agents.
  assert (Hinit : self_name ∉ available_agents initial)
    by apply not_elem_of_nil.
  revert Hinit. generalize initial.
  induction responses as [|response responses IH]; intros d Hd;
    cbn [map find_agents]; [constructor|].
  pose proof (find_agent_for_task_not_self self_name response d Hd) as Hstep.
  destruct (find_agent_for_task _ d) as [r d1]. destruct Hstep as [Hr Hd1].
  specialize (IH d1 Hd1).
  destruct (find_agents _ d1) as [rs d2]. cbn [fst] in *. by constructor.
Qed.

End DiscoveryFacts.

(** ** Task decomposition *)

Section DecomposerFacts.
Import Py Decomposer.
Variable json_loads : string -> option (list Subtask).






(** A text that [json.loads] accepts is returned as parsed. *)
Lemma decompose_task_parsed available discovered t text parsed :
  text <> "" -> json_loads text = Some parsed ->
  decompose_task json_loads true (Answered (Some text)) available discovered t =
  (parsed, available).
Proof.
  intros Hne Hparse. unfold decompose_task. simpl.
  rewrite bool_decide_eq_false_2 by done. simpl. by rewrite Hparse.
Qed.


(** *** Agent types and priorities of the fallback plans *)



(** Membership in a list written out. *)
Ltac elem_of_list :=
  repeat first [apply list_elem_of_here | apply list_elem_of_further].

Lemma two_subtasks_shape agents t :
  length (two_subtasks agents t) = 2%nat /\
  map priority_of (two_subtasks agents t) = [Some 5%Z; Some 4%Z] /\
  Forall (fun s => exists agent_type,
            agent_type_of s = Some agent_type /\
            (agent_type ∈ default_agent_types \/
             exists a, a ∈ OrderedDict.keys agents /\
                       agent_type = _get_agent_capability_name agents a))
         (two_subtasks agents t).
Proof.
  unfold two_subtasks.
  destruct (OrderedDict.keys agents) as [|a0 [|a1 rest]] eqn:Hkeys.
  1,2: split; [done|]; split; [done|]; repeat apply Forall_cons_2; try apply Forall_nil_2;
       eexists; (split; [reflexivity|]);
       left; unfold default_agent_types; elem_of_list.
  split; [done|]. split; [done|]. repeat apply Forall_cons_2; try apply Forall_nil_2;
    eexists; (split; [reflexivity|]); right.
  - exists a0. split; [elem_of_list|done].
  - exists a1. split; [elem_of_list|done].
Qed.

Lemma three_subtasks_shape use_third agents t :
  length (three_subtasks use_third agents t) = 3%nat /\
  map priority_of (three_subtasks use_third agents t) =
    [Some 5%Z; Some 4%Z; Some 3%Z] /\
  Forall (fun s => exists agent_type,
            agent_type_of s = Some agent_type /\
            (agent_type ∈ default_agent_types \/
             exists a, a ∈ OrderedDict.keys agents /\
                       agent_type = _get_agent_capability_name agents a))
         (three_subtasks use_third agents t).
Proof.
  unfold three_subtasks.
  destruct (OrderedDict.keys agents) as [|a0 [|a1 rest]] eqn:Hkeys.
  1,2: split; [done|]; split; [done|]; repeat apply Forall_cons_2; try apply Forall_nil_2;
       eexists; (split; [reflexivity|]);
       left; unfold default_agent_types; elem_of_list.
  assert (H0 : a0 ∈ a0 :: a1 :: rest) by elem_of_list.
  assert (H1 : a1 ∈ a0 :: a1 :: rest) by elem_of_list.
  destruct rest as [|a2 rest]; [|destruct use_third].
  all: split; [done|]; split; [done|]; repeat apply Forall_cons_2; try apply Forall_nil_2;
       eexists; (split; [reflexivity|]); right.
  all: try (exists a0; split; [exact H0|done]).
  all: try (exists a1; split; [exact H1|done]).
  exists a2. split; [elem_of_list|done].
Qed.

(** X22. The plans of the fallback.  Whenever the decomposition does
    not return a parsed plan (the completion call raises, returns no
    content, or returns text that is not JSON), the plan has one, two or
    three subtasks with the priorities 5, 4, 3 in this order; every agent
    type is one of the defaults or the agent type derived from the
    runbook of an agent known afterwards; the agents known afterwards
    are those known before, or the discovered ones when none was known;
    and a plan of a single subtask leaves the known agents as they
    were. *)
Theorem decompose_task_fallback_shape
    (completion : Completion) (available discovered : Agents)
    (complex_task : string) :
  let plan :=
    fst (decompose_task json_loads true completion available discovered
           complex_task) in
  let agents :=
    snd (decompose_task json_loads true completion available discovered
           complex_task) in
  falls_back json_loads completion = true ->
  map priority_of plan = take (length plan) [Some 5%Z; Some 4%Z; Some 3%Z] /\
  (1 <= length plan <= 3)%nat /\
  Forall (fun s => exists agent_type,
            agent_type_of s = Some agent_type /\
            (agent_type ∈ default_agent_types \/
             exists a, a ∈ OrderedDict.keys agents /\
                       agent_type = _get_agent_capability_name agents a))
         plan /\
  (agents = available \/ (available = [] /\ agents = discovered)) /\
  (length plan = 1%nat -> agents = available).
Proof.
  intros plan agents Hfalls.
  assert (Hagents : forall a d : Agents,
            ensure_agents a d = a \/ (a = [] /\ ensure_agents a d = d)).
  { intros [|x a] d; [by right|by left]. }
  assert (Hone : forall t : string,
            Forall (fun s => exists agent_type,
              agent_type_of s = Some agent_type /\
              (agent_type ∈ default_agent_types \/
               exists a, a ∈ OrderedDict.keys available /\
                 agent_type = _get_agent_capability_name available a))
            [Planned t "general" 5 []]).
  { intros t. apply Forall_cons_2; [|apply Forall_nil_2].
    eexists. split; [reflexivity|].
    left. unfold default_agent_types. elem_of_list. }
  assert (Hplan : (plan, agents) =
            match completion with
            | Raised => fallback_exception available discovered complex_task
            | Answered result =>
                if truthy result
                then fallback_not_json available discovered complex_task
                else fallback_no_content available discovered complex_task
            end).
  { subst plan agents. rewrite <- surjective_pairing.
    unfold decompose_task. cbn [negb].
    destruct completion as [|result]; [done|]. cbn [falls_back] in Hfalls.
    destruct (truthy result); [|done].
    destruct (json_loads (default "" result)); [|done].
    by rewrite bool_decide_true in Hfalls. }
  clearbody plan agents. clear Hfalls.
  assert (Htwo := two_subtasks_shape (ensure_agents available discovered)
                    complex_task).
  assert (Hthree := fun b => three_subtasks_shape b
                    (ensure_agents available discovered) complex_task).
  destruct completion as [|result]; [|destruct (truthy result)].
  - unfold fallback_exception in Hplan.
    destruct (len_split complex_task <? 10)%nat; injection Hplan as -> ->.
    + repeat split; auto; cbn [length]; lia.
    + destruct (Hthree false) as (Hlen & Hp & Ht). rewrite Hlen, Hp.
      repeat split; auto; lia.
  - unfold fallback_not_json in Hplan.
    destruct ((len_split complex_task <? 8)%nat &&
              negb (has_complex_keywords complex_task));
      [|destruct ((len_split complex_task <? 15)%nat ||
                  has_complex_keywords complex_task)];
      injection Hplan as -> ->.
    + repeat split; auto; cbn [length]; lia.
    + destruct Htwo as (Hlen & Hp & Ht). rewrite Hlen, Hp.
      repeat split; auto; lia.
    + destruct (Hthree true) as (Hlen & Hp & Ht). rewrite Hlen, Hp.
      repeat split; auto; lia.
  - unfold fallback_no_content in Hplan.
    destruct (len_split complex_task <? 10)%nat;
      [|destruct (len_split complex_task <? 20)%nat];
      injection Hplan as -> ->.
    + repeat split; auto; cbn [length]; lia.
    + destruct Htwo as (Hlen & Hp & Ht). rewrite Hlen, Hp.
      repeat split; auto; lia.
    + destruct (Hthree true) as (Hlen & Hp & Ht). rewrite Hlen, Hp.
      repeat split; auto; lia.
Qed.

End DecomposerFacts.



(** ** Mention extraction *)

Section RoutingFacts.
Import Py Routing.

(** The examples of the specification. *)
Example extract_mentions_bob :
  extract_mentions ["bob"] "@bob hello" = (["bob"], "hello").
Proof. reflexivity. Qed.

Example extract_mentions_email :
  extract_mentions ["bob"] "contact user@example.com" =
  ([], "contact user@example.com").
Proof. reflexivity. Qed.

Example extract_mentions_unknown :
  extract_mentions ["bob"] "@unknown hi" = ([], "@unknown hi").
Proof. reflexivity. Qed.

Example extract_mentions_two :
  extract_mentions ["alice"; "bob"] "@alice @bob do X" =
  (["alice"; "bob"], "do X").
Proof. reflexivity. Qed.

(** The collected names: without repetition, lower-cased candidates that
    are registered. *)
Lemma collect_names_from (acc registered matches : list string) :
  NoDup acc ->
  NoDup (fold_left (collect_step registered) matches acc) /\
  forall n, n ∈ fold_left (collect_step registered) matches acc <->
            n ∈ acc \/ (n ∈ map lower matches /\ n ∈ registered).
Proof.
  revert acc. induction matches as [|m matches IH]; intros acc Hnd.
  - simpl. split; [done|]. intros n. split; [by left|].
    intros [H|[H _]]; [done|]. by apply elem_of_nil in H.
  - simpl fold_left. unfold collect_step at 2 4. cbv zeta.
    destruct (bool_decide (lower m ∉ acc) && bool_decide (lower m ∈ registered))
      eqn:Hc.
    + apply andb_true_iff in Hc as [H1 H2].
      apply bool_decide_eq_true in H1. apply bool_decide_eq_true in H2.
      destruct (IH (acc ++ [lower m])) as [IH1 IH2].
      { apply NoDup_app. split; [done|]. split; [|apply NoDup_singleton].
        intros x Hx Hx'. apply list_elem_of_singleton in Hx'. by subst. }
      split; [done|]. intros n. rewrite IH2. simpl map.
      rewrite elem_of_app, list_elem_of_singleton, elem_of_cons.
      split.
      * intros [[H| ->]|[H H']]; [by left|right; split; [by left|done]|].
        right. split; [by right|done].
      * intros [H|[[->|H] H']]; [by left; left| |by right].
        left. by right.
    + destruct (IH acc Hnd) as [IH1 IH2]. split; [done|].
      intros n. rewrite IH2. simpl map. rewrite elem_of_cons.
      split.
      * intros [H|[H H']]; [by left|]. right. split; [by right|done].
      * intros [H|[[->|H] H']]; [by left| |by right].
        apply andb_false_iff in Hc as [Hc|Hc]; apply bool_decide_eq_false in Hc.
        -- left. by destruct (decide (lower m ∈ acc)).
        -- done.
Qed.

Lemma collect_names_spec (registered matches : list string) :
  NoDup (collect_names registered matches) /\
  forall n, n ∈ collect_names registered matches <->
            n ∈ map lower matches /\ n ∈ registered.
Proof.
  destruct (collect_names_from [] registered matches (NoDup_nil_2)) as [H1 H2].
  split; [exact H1|]. intros n. unfold collect_names. rewrite H2.
  split; [|by right]. intros [H|H]; [|done]. by apply elem_of_nil in H.
Qed.

(** X25. Every name returned is a lower-cased candidate of the message
    that is registered, and no name is returned twice. *)
Lemma extract_mentions_names registry message :
  NoDup (fst (extract_mentions registry message)) /\
  forall n, n ∈ fst (extract_mentions registry message) ->
            n ∈ map lower (findall message) /\ n ∈ map lower registry.
Proof.
  unfold extract_mentions.
  destruct (findall message) as [|m ms] eqn:Hf.
  { simpl. split; [apply NoDup_nil_2|]. intros n H. by apply elem_of_nil in H. }
  destruct (collect_names_spec (map lower registry) (m :: ms)) as [H1 H2].
  destruct (collect_names (map lower registry) (m :: ms)) as [|a l] eqn:Hc.
  { simpl. split; [apply NoDup_nil_2|]. intros n H. by apply elem_of_nil in H. }
  simpl fst. split; [done|]. intros n Hn. by apply H2.
Qed.

(** X26. When no candidate is a registered name, nothing is returned and
    the message is left as it is. *)
Lemma extract_mentions_none_registered registry message :
  Forall (fun m => lower m ∉ map lower registry) (findall message) ->
  extract_mentions registry message = ([], message).
Proof.
  intros Hall. unfold extract_mentions.
  destruct (findall message) as [|m ms] eqn:Hf; [done|].
  destruct (collect_names_spec (map lower registry) (m :: ms)) as [_ H2].
  destruct (collect_names (map lower registry) (m :: ms)) as [|a l] eqn:Hc; [done|].
  exfalso. destruct (proj1 (H2 a)) as [Ha Hr]; [apply list_elem_of_here|].
  apply list_elem_of_fmap in Ha as (m' & -> & Hm').
  rewrite Forall_forall in Hall. by apply (Hall m').
Qed.

(** C5. The candidates of ["@bob @bobby hi"] are [bob] and [bobby]; only
    [bob] is registered.  The substitution pattern built from the accepted
    names has no boundary after the name, so it also matches the first
    four characters of ["@bobby"]: the token of the unregistered name is
    cut, and the text returned is ["by hi"]. *)
Theorem extract_mentions_cuts_unregistered_token :
  findall "@bob @bobby hi" = ["bob"; "bobby"] /\
  extract_mentions ["bob"] "@bob @bobby hi" = (["bob"], "by hi").
Proof. split; reflexivity. Qed.

(** The backtracking of [\w+] before a dot: a registered name that is a
    proper prefix of the mentioned one is returned and stripped. *)
Example extract_mentions_backtracks_before_dot :
  extract_mentions ["bob"; "bo"] "hi @Bob. ok" = (["bo"], "hi b. ok").
Proof. reflexivity. Qed.

(** *** Messages without a mention *)

Lemma match_mention_not_at prev_word c l :
  c <> "@"%char -> match_mention prev_word (c :: l) = None.
Proof.
  intros Hc. unfold match_mention.
  destruct c as [[] [] [] [] [] [] [] []]; done.
Qed.

Lemma findall_from_blocked l : forall prev_word,
  (forall before after,
     l = before ++ "@"%char :: after ->
     match last before with
     | Some c => isword c = true
     | None => prev_word = true
     end) ->
  findall_from prev_word 0 l = [].
Proof.
  induction l as [|c l IH]; intros prev_word Hblocked; [done|].
  cbn [findall_from].
  assert (Hnone : match_mention prev_word (c :: l) = None).
  { destruct (decide (c = "@"%char)) as [->|Hc].
    - specialize (Hblocked [] l eq_refl). cbn in Hblocked. by subst prev_word.
    - by apply match_mention_not_at. }
  rewrite Hnone. apply IH. intros before after ->.
  specialize (Hblocked (c :: before) after eq_refl).
  destruct before as [|b before]; [done|].
  change (last (c :: b :: before)) with (last (b :: before)) in Hblocked.
  destruct (last (b :: before)) eqn:Hl; [exact Hblocked|].
  by apply last_None in Hl.
Qed.

(** X17. A message in which every [@] comes right after a word
    character, as in an e-mail address, and in particular a message
    without any [@], names no agent and is returned as it is, whatever
    the registry holds. *)
Theorem extract_mentions_ignores_addresses (registry : list string)
    (message : string) :
  (forall before after,
     chars message = before ++ "@"%char :: after ->
     exists c, last before = Some c /\ isword c = true) ->
  extract_mentions registry message = ([], message).
Proof.
  intros Hblocked. unfold extract_mentions, findall.
  rewrite findall_from_blocked; [done|].
  intros before after Heq. destruct (Hblocked before after Heq) as (c & -> & Hc).
  exact Hc.
Qed.

(** *** The text returned *)

Lemma sub_from_length names l : forall prev_word skip,
  length (sub_from names prev_word skip l) <= length l.
Proof.
  induction l as [|c l IH]; intros prev_word skip; [done|].
  cbn [sub_from]. destruct skip as [|k].
  - destruct (match_valid names prev_word (c :: l)) as [n|]; cbn [length].
    + specialize (IH (isword c) n). lia.
    + specialize (IH (isword c) 0). lia.
  - specialize (IH (isword c) k). cbn [length]. lia.
Qed.

Lemma lstrip_chars_suffix l :
  exists blanks, l = blanks ++ lstrip_chars l.
Proof.
  induction l as [|c l (blanks & IH)]; [by exists []|].
  cbn [lstrip_chars]. destruct (isspace c).
  - exists (c :: blanks). cbn [app]. by rewrite <- IH.
  - by exists [].
Qed.

Lemma lstrip_chars_head l c :
  head (lstrip_chars l) = Some c -> isspace c = false.
Proof.
  induction l as [|x l IH]; [done|]. cbn [lstrip_chars].
  destruct (isspace x) eqn:Hx; [exact IH|]. by intros [= <-].
Qed.

Lemma last_rev {A} (l : list A) : last (rev l) = head l.
Proof. rewrite rev_alt. apply last_reverse. Qed.

Lemma head_rev {A} (l : list A) : head (rev l) = last l.
Proof. rewrite rev_alt. apply head_reverse. Qed.

Lemma strip_chars_length l : length (strip_chars l) <= length l.
Proof.
  unfold strip_chars. rewrite length_rev.
  destruct (lstrip_chars_suffix (rev (lstrip_chars l))) as (b1 & H1).
  destruct (lstrip_chars_suffix l) as (b2 & H2).
  apply (f_equal length) in H1, H2.
  rewrite length_app in H1, H2. rewrite length_rev in H1. lia.
Qed.

Lemma strip_chars_last l c :
  last (strip_chars l) = Some c -> isspace c = false.
Proof.
  unfold strip_chars. rewrite last_rev. apply lstrip_chars_head.
Qed.

Lemma strip_chars_head l c :
  head (strip_chars l) = Some c -> isspace c = false.
Proof.
  unfold strip_chars. rewrite head_rev.
  destruct (lstrip_chars_suffix (rev (lstrip_chars l))) as (blanks & Hsuf).
  intros Hlast.
  assert (Hl : last (rev (lstrip_chars l)) = Some c).
  { rewrite Hsuf, last_app, Hlast. done. }
  rewrite last_rev in Hl. by eapply lstrip_chars_head.
Qed.

(** X18. The text returned with the names.  Without a name the
    message comes back as it is.  With names, the text is the message
    with the matches of the pattern of the valid names removed and the
    white space at both ends stripped: it is never longer than the
    message, and neither begins nor ends with white space. *)
Theorem extract_mentions_cleaned (registry : list string) (message : string) :
  let names := fst (extract_mentions registry message) in
  let cleaned := snd (extract_mentions registry message) in
  (names = [] -> cleaned = message) /\
  (names <> [] ->
   cleaned = strip (sub_valid names message) /\
   length (chars cleaned) <= length (chars message) /\
   (forall c, head (chars cleaned) = Some c -> isspace c = false) /\
   (forall c, last (chars cleaned) = Some c -> isspace c = false)).
Proof.
  cbv zeta. unfold extract_mentions.
  destruct (findall message) as [|m ms]; [done|].
  destruct (collect_names _ _) as [|n ns]; [done|].
  cbn [fst snd]. split; [done|]. intros _. split; [done|].
  unfold strip, sub_valid. rewrite !chars_str.
  split; [|split].
  - etransitivity; [apply strip_chars_length|apply sub_from_length].
  - apply strip_chars_head.
  - apply strip_chars_last.
Qed.

End RoutingFacts.

(** ** The collaboration coordinator *)

Section CollaborationFacts.
Import Py Collaboration.
Variable get_completion : Prompt -> option string.

(** *** Sending messages *)

Lemma emit_nil s : emit [] s = s.
Proof. destruct s. unfold emit. simpl. by rewrite app_nil_r. Qed.

Lemma emit_emit m1 m2 s : emit m2 (emit m1 s) = emit (m1 ++ m2) s.
Proof. unfold emit. simpl. by rewrite app_assoc. Qed.

Lemma send_message_emit topic p s : send_message topic p s = emit [(topic, p)] s.
Proof. reflexivity. Qed.

Lemma emitted_emit msgs s : emitted s (emit msgs s) = msgs.
Proof. unfold emitted, emit. simpl. by rewrite drop_app_length. Qed.

Lemma emitted_set_active d msgs s :
  emitted s (emit msgs (set_active d s)) = msgs.
Proof. unfold emitted, emit. simpl. by rewrite drop_app_length. Qed.

Lemma emitted_set_pending d msgs s :
  emitted s (set_pending d (emit msgs s)) = msgs.
Proof. unfold emitted, emit. simpl. by rewrite drop_app_length. Qed.

Lemma fold_send_results topic (rs : list Received) s :
  fold_left
    (fun self response =>
       send_message topic (AgentResult (from_agent response) (result response)) self)
    rs s =
  emit (map (fun r => (topic, AgentResult (from_agent r) (result r))) rs) s.
Proof.
  revert s. induction rs as [|r rs IH]; intros s; simpl.
  - by rewrite emit_nil.
  - by rewrite IH, send_message_emit, emit_emit.
Qed.

(** *** Synthesis of a session *)

Lemma synthesize_session_emit c s :
  _synthesize_collaboration_responses get_completion c s =
  emit (session_synthesis_messages get_completion c) s.
Proof.
  unfold _synthesize_collaboration_responses, session_synthesis_messages.
  destruct (length (received_responses c) <=? 1)%nat; [by rewrite emit_nil|].
  destruct (truthy _); by rewrite !send_message_emit, ?emit_emit.
Qed.

(** *** The name-based correlator *)

Lemma del_set_same {V} (k : string) (v : V) d :
  OrderedDict.del k (OrderedDict.set k v d) = OrderedDict.del k d.
Proof.
  induction d as [|[k' v'] d IH]; simpl.
  - by rewrite decide_True.
  - destruct (decide (k = k')) as [->|Hne]; simpl.
    + by rewrite decide_True.
    + rewrite decide_False by done. by rewrite IH.
Qed.

Lemma check_completion_absent sender res otask topic s :
  OrderedDict.get (collaboration_key (default "" (task otask)) topic)
                  (active_collaborations s) = None ->
  _check_collaboration_completion get_completion sender res otask topic s = s.
Proof. intros H. unfold _check_collaboration_completion. by rewrite H. Qed.

Lemma check_completion_present sender res otask topic s c :
  let key := collaboration_key (default "" (task otask)) topic in
  let c' := with_response c sender res otask in
  OrderedDict.get key (active_collaborations s) = Some c ->
  _check_collaboration_completion get_completion sender res otask topic s =
  if bool_decide (expected_set c ⊆ received_agents c') then
    emit (map (fun r => (topic, AgentResult (from_agent r) (result r)))
              (received_responses c') ++
          [(topic, ReceivedFrom (received_agents c'));
           (topic, CollaborationComplete)] ++
          session_synthesis_messages get_completion c')
         (set_active (OrderedDict.del key (active_collaborations s)) s)
  else
    emit [(topic, StillWaiting (expected_set c ∖ received_agents c'))]
         (set_active (OrderedDict.set key c' (active_collaborations s)) s).
Proof.
  intros key c' Hget. unfold _check_collaboration_completion.
  fold key. rewrite Hget. fold (with_response c sender res otask). fold c'.
  change (expected_set c') with (expected_set c).
  destruct (bool_decide (expected_set c ⊆ received_agents c')); [|reflexivity].
  rewrite fold_send_results, !send_message_emit.
  destruct (1 <? length (received_responses c'))%nat eqn:Hn.
  - rewrite synthesize_session_emit. unfold emit, set_active.
    cbn [active_collaborations pending_responses outbox].
    rewrite del_set_same. f_equal. by rewrite <- !app_assoc.
  - assert (session_synthesis_messages get_completion c' = []) as ->.
    { unfold session_synthesis_messages.
      apply Nat.ltb_ge in Hn. apply Nat.leb_le in Hn. by rewrite Hn. }
    unfold emit, set_active.
    cbn [active_collaborations pending_responses outbox].
    rewrite del_set_same. f_equal. by rewrite app_nil_r, <- !app_assoc.
Qed.

(** C1. The correlator [_check_collaboration_completion], for a response
    from [sender] on the key of ([task], [topic]):
    - with no session under the key, the response is dropped: the state
      (sessions, outbox) is unchanged;
    - with a session under the key, the response is appended, and
      completion is announced exactly when the expected names are all
      among the names that responded so far (containment of sets); then
      the key is removed, the other keys keep their sessions, and any
      later response for the key leaves the state as it is; otherwise the
      session stays, with the response appended, and the only message is
      the one naming the agents still awaited. *)
Theorem check_collaboration_completion_spec
    (sender res : string) (otask : Task) (topic : string) (self : Assistant) :
  let key := collaboration_key (default "" (task otask)) topic in
  let self' :=
    _check_collaboration_completion get_completion sender res otask topic self in
  match OrderedDict.get key (active_collaborations self) with
  | None => self' = self
  | Some c =>
      let c' := with_response c sender res otask in
      outbox self' = outbox self ++ emitted self self' /\
      pending_responses self' = pending_responses self /\
      (forall k, k <> key ->
         OrderedDict.get k (active_collaborations self') =
         OrderedDict.get k (active_collaborations self)) /\
      ((topic, CollaborationComplete) ∈ emitted self self' <->
       list_to_set (expected_agents c) ⊆@{gset string}
       list_to_set (map from_agent (received_responses c'))) /\
      if bool_decide (list_to_set (expected_agents c) ⊆@{gset string}
                      list_to_set (map from_agent (received_responses c'))) then
        OrderedDict.get key (active_collaborations self') = None /\
        forall sender2 res2,
          _check_collaboration_completion get_completion sender2 res2 otask
            topic self' = self'
      else
        OrderedDict.get key (active_collaborations self') = Some c' /\
        emitted self self' =
          [(topic, StillWaiting (expected_set c ∖ received_agents c'))]
  end.
Proof.
  intros key self'.
  destruct (OrderedDict.get key (active_collaborations self)) as [c|] eqn:Hget.
  2:{ subst self'. by apply check_completion_absent. }
  intros c'. subst self'.
  rewrite (check_completion_present sender res otask topic self c Hget).
  fold key. fold c'.
  change (list_to_set (expected_agents c)) with (expected_set c).
  change (list_to_set (map from_agent (received_responses c')))
    with (received_agents c').
  destruct (bool_decide (expected_set c ⊆ received_agents c')) eqn:Hsub.
  - apply bool_decide_eq_true in Hsub.
    rewrite emitted_set_active.
    assert (Hin : (topic, CollaborationComplete) ∈
              map (fun r => (topic, AgentResult (from_agent r) (result r)))
                  (received_responses c') ++
              [(topic, ReceivedFrom (received_agents c'));
               (topic, CollaborationComplete)] ++
              session_synthesis_messages get_completion c').
    { apply elem_of_app. right. apply elem_of_app. left.
      apply elem_of_cons. right. apply list_elem_of_here. }
    split; [reflexivity|]. split; [reflexivity|].
    split.
    { intros k Hk. cbn [active_collaborations emit set_active].
      by apply get_del_ne. }
    split; [done|].
    assert (Hgone : OrderedDict.get key
              (active_collaborations
                 (emit (map (fun r => (topic, AgentResult (from_agent r) (result r)))
                            (received_responses c') ++
                        [(topic, ReceivedFrom (received_agents c'));
                         (topic, CollaborationComplete)] ++
                        session_synthesis_messages get_completion c')
                    (set_active (OrderedDict.del key (active_collaborations self))
                                self))) = None).
    { cbn [active_collaborations emit set_active]. apply get_del_eq. }
    split; [exact Hgone|].
    intros sender2 res2. by apply check_completion_absent.
  - apply bool_decide_eq_false in Hsub.
    rewrite emitted_set_active.
    assert (Hnot : (topic, CollaborationComplete) ∉
              [(topic, StillWaiting (expected_set c ∖ received_agents c'))]).
    { intros Hin. apply list_elem_of_singleton in Hin. discriminate. }
    split; [reflexivity|]. split; [reflexivity|].
    split.
    { intros k Hk. cbn [active_collaborations emit set_active].
      by apply get_set_ne. }
    split; [split; [done|by intros ?]|].
    split; [|reflexivity].
    cbn [active_collaborations emit set_active]. apply get_set_eq.
Qed.

(** *** The timeout sweep *)

Lemma notify_timeout_emit c s :
  notify_timeout get_completion c s = emit (timeout_notices get_completion c) s.
Proof.
  unfold notify_timeout, timeout_notices.
  destruct (received_responses c) as [|r [|r' rs]] eqn:Hr.
  - reflexivity.
  - by rewrite !send_message_emit, emit_emit.
  - change (1 <? length (r :: r' :: rs))%nat with true. cbv iota.
    by rewrite synthesize_session_emit, send_message_emit, emit_emit.
Qed.

Lemma sweep_loop now (l : list (string * Session)) s ks :
  fold_left (sweep_step get_completion now) l (s, ks) =
  (emit (concat (map (fun kv => timeout_notices get_completion (snd kv))
                     (timed_out_sessions now l))) s,
   ks ++ map fst (timed_out_sessions now l)).
Proof.
  revert s ks. induction l as [|[k c] l IH]; intros s ks; simpl.
  - by rewrite emit_nil, app_nil_r.
  - unfold timed_out_sessions. simpl.
    destruct (timed_out now c); simpl.
    + rewrite IH, notify_timeout_emit, emit_emit.
      f_equal. by rewrite <- app_assoc.
    + apply IH.
Qed.

Lemma cleanup_unfold now s :
  _cleanup_timed_out_collaborations get_completion now s =
  set_active
    (fold_left (fun d key => OrderedDict.del key d)
       (map fst (timed_out_sessions now (active_collaborations s)))
       (active_collaborations s))
    (emit (concat (map (fun kv => timeout_notices get_completion (snd kv))
                       (timed_out_sessions now (active_collaborations s)))) s).
Proof.
  unfold _cleanup_timed_out_collaborations. by rewrite sweep_loop.
Qed.

Lemma get_fold_del {V} (ks : list string) (k : string) (d : list (string * V)) :
  OrderedDict.get k (fold_left (fun d key => OrderedDict.del key d) ks d) =
  if decide (k ∈ ks) then None else OrderedDict.get k d.
Proof.
  revert d. induction ks as [|k0 ks IH]; intros d; cbn [fold_left].
  - rewrite decide_False; [done|]. apply not_elem_of_nil.
  - rewrite IH. destruct (decide (k ∈ ks)) as [Hin|Hin].
    + rewrite decide_True; [done|]. by apply list_elem_of_further.
    + destruct (decide (k = k0)) as [->|Hne].
      * rewrite decide_True by apply list_elem_of_here. apply get_del_eq.
      * rewrite decide_False.
        -- by apply get_del_ne.
        -- intros H. apply elem_of_cons in H as [H|H]; done.
Qed.

Lemma timed_out_sessions_elem now (d : list (string * Session)) k c :
  (k, c) ∈ timed_out_sessions now d <-> (k, c) ∈ d /\ timed_out now c = true.
Proof.
  unfold timed_out_sessions. rewrite !list_elem_of_In, filter_In. done.
Qed.

(** A session the sweep does not find timed out stays in the map. *)
Lemma cleanup_keeps_live now s k c :
  NoDup (OrderedDict.keys (active_collaborations s)) ->
  OrderedDict.get k (active_collaborations s) = Some c ->
  timed_out now c = false ->
  OrderedDict.get k
    (active_collaborations (_cleanup_timed_out_collaborations get_completion now s))
  = Some c.
Proof.
  intros Hnd Hget Hlive. rewrite cleanup_unfold.
  cbn [active_collaborations set_active]. rewrite get_fold_del.
  rewrite decide_False; [done|]. intros Hin.
  apply list_elem_of_fmap in Hin as ([k' c'] & Hk & Hin). simpl in Hk. subst k'.
  apply timed_out_sessions_elem in Hin as [Hin Hto].
  pose proof (elem_get _ _ _ Hnd Hin) as Hget'. congruence.
Qed.


(** *** Index-based synthesis *)

Lemma filter_none {A} (f : A -> bool) (l : list A) :
  Forall (fun x => f x = false) l -> List.filter f l = [].
Proof.
  induction 1 as [|x l Hx _ IH]; simpl; [done|]. by rewrite Hx.
Qed.

(** C7. [_synthesize_responses] for a query that no stored response
    carries is a no-operation: the assistant (outbox, pending index and
    sessions) is returned as it was; the model has no exception to
    raise. *)
Theorem synthesize_responses_without_contribution
    (query : string) (self : Assistant) :
  Forall (fun kv => stored_query (snd kv) <> query) (pending_responses self) ->
  _synthesize_responses get_completion query self = self.
Proof.
  intros Hnone. unfold _synthesize_responses.
  rewrite filter_none; [done|].
  eapply Forall_impl; [exact Hnone|].
  intros kv Hkv. by apply bool_decide_eq_false.
Qed.

(** X24. With a contribution and no content from the completion service,
    the index-based synthesis reports the failure to the user: after the
    progress notice, the last message says that the responses could not
    be synthesized. *)
Lemma synthesize_responses_reports_failure query self k first rest :
  List.filter (fun kv => bool_decide (stored_query (snd kv) = query))
              (pending_responses self) = (k, first) :: rest ->
  truthy (get_completion
            (TaskSynthesis query
               (map (fun kv => (pending_from_agent (snd kv), pending_result (snd kv)))
                    ((k, first) :: rest)))) = false ->
  exists n,
    emitted self (_synthesize_responses get_completion query self) =
    [(pending_user_topic first, SynthesizingAll n);
     (pending_user_topic first, SynthesisFailed)].
Proof.
  intros Hf Hc. unfold _synthesize_responses. rewrite Hf, Hc.
  eexists. rewrite !send_message_emit, emit_emit.
  cbn [pending_responses emit]. apply emitted_set_pending.
Qed.

(** The response is stored under the key of its task text and index. *)
Lemma record_response_stored rd self :
  let otask := default empty_task (original_task rd) in
  OrderedDict.get
    (task_key (default "" (task otask)) (default 0%Z (subtask_index otask)))
    (pending_responses (record_response rd self)) =
  Some {| pending_from_agent := response_from_agent rd;
          pending_result := task_result rd;
          pending_task := otask;
          pending_user_topic :=
            default "user_session:main" (response_user_topic rd) |}.
Proof. intros otask. unfold record_response. cbn. apply get_set_eq. Qed.

(** The indices counted by the completion test: every non-negative index
    stored in the index, whatever the task of the entry. *)
Lemma found_indices_elem (pending : list (string * Pending)) (i : Z) :
  i ∈ found_indices pending <->
  (0 <= i)%Z /\
  exists kv, kv ∈ pending /\
             default (-1)%Z (subtask_index (pending_task (snd kv))) = i.
Proof.
  unfold found_indices. rewrite elem_of_list_to_set, list_elem_of_In, filter_In.
  rewrite <- list_elem_of_In, list_elem_of_fmap, Z.leb_le.
  split.
  - intros [(kv & -> & Hin) Hi]. split; [done|]. by exists kv.
  - intros [Hi (kv & Hin & <-)]. split; [|done]. by exists kv.
Qed.

Lemma all_subtasks_complete_iff (pending : list (string * Pending)) (total : Z) :
  all_subtasks_complete pending total = true <->
  (total <= Z.of_nat (size (found_indices pending)))%Z.
Proof. unfold all_subtasks_complete. apply Z.leb_le. Qed.

(** A session synthesis whose completion call gives no content sends the
    progress notice and nothing else. *)
Lemma synthesize_session_without_content c s :
  (1 < length (received_responses c))%nat ->
  truthy (get_completion
            (SessionSynthesis (session_task c)
               (contributions (received_responses c)))) = false ->
  emitted s (_synthesize_collaboration_responses get_completion c s) =
  [(user_topic c, Synthesizing (length (received_responses c)))].
Proof.
  intros Hn Hc. rewrite synthesize_session_emit, emitted_emit.
  unfold session_synthesis_messages. rewrite Hc.
  apply Nat.leb_gt in Hn. by rewrite Hn.
Qed.

(** *** The timeout is the same for every session, at all times *)

Lemma Forall_dict_set {V} (P : string * V -> Prop) k v (d : list (string * V)) :
  P (k, v) -> Forall P d -> Forall P (OrderedDict.set k v d).
Proof.
  intros Hv. induction 1 as [|[k' v'] d Hx Hd IH]; simpl.
  - by constructor.
  - destruct (decide (k = k')); by constructor.
Qed.

Lemma Forall_dict_del {V} (P : string * V -> Prop) k (d : list (string * V)) :
  Forall P d -> Forall P (OrderedDict.del k d).
Proof.
  induction 1 as [|[k' v'] d Hx Hd IH]; simpl; [done|].
  destruct (decide (k = k')); [done|by constructor].
Qed.

Lemma Forall_fold_del {V} (P : string * V -> Prop) ks (d : list (string * V)) :
  Forall P d -> Forall P (fold_left (fun d key => OrderedDict.del key d) ks d).
Proof.
  revert d. induction ks as [|k ks IH]; intros d Hd; simpl; [done|].
  by apply IH, Forall_dict_del.
Qed.

Lemma collaborate_timeouts_fixed agents_info now task_text agent_names reply_to s :
  timeouts_fixed s ->
  timeouts_fixed
    (_collaborate_with_agents agents_info now task_text agent_names reply_to s).
Proof.
  intros Hs. unfold _collaborate_with_agents.
  destruct agents_info as [|a0 infos]; [done|].
  set (unavailable := List.filter _ agent_names).
  set (available := omap _ agent_names).
  set (s1 := match unavailable with [] => s | _ :: _ => _ end).
  assert (Hs1 : timeouts_fixed s1) by (subst s1; by destruct unavailable).
  clearbody s1. destruct available as [|a1 avail]; [done|].
  unfold timeouts_fixed. cbn [active_collaborations set_active send_message].
  apply Forall_dict_set; [done|].
  set (step := fun self a => _).
  assert (Hfold : forall l s', active_collaborations (fold_left step l s') =
                               active_collaborations s').
  { induction l as [|x l IH]; intros s'; simpl; [done|]. by rewrite IH. }
  by rewrite Hfold.
Qed.

Lemma check_completion_timeouts_fixed sender res otask topic s :
  timeouts_fixed s ->
  timeouts_fixed
    (_check_collaboration_completion get_completion sender res otask topic s).
Proof.
  intros Hs.
  destruct (OrderedDict.get (collaboration_key (default "" (task otask)) topic)
              (active_collaborations s)) as [c|] eqn:Hget.
  2:{ by rewrite check_completion_absent. }
  rewrite (check_completion_present sender res otask topic s c Hget).
  destruct (bool_decide _); unfold timeouts_fixed;
    cbn [active_collaborations emit set_active].
  - by apply Forall_dict_del.
  - apply Forall_dict_set; [|done]. cbn [snd with_response timeout].
    unfold timeouts_fixed in Hs. rewrite Forall_forall in Hs.
    apply (Hs (collaboration_key (default "" (task otask)) topic, c)).
    by apply get_Some_elem.
Qed.

Lemma cleanup_timeouts_fixed now s :
  timeouts_fixed s ->
  timeouts_fixed (_cleanup_timed_out_collaborations get_completion now s).
Proof.
  intros Hs. rewrite cleanup_unfold. unfold timeouts_fixed.
  cbn [active_collaborations set_active]. by apply Forall_fold_del.
Qed.

Lemma synthesize_responses_active query s :
  active_collaborations (_synthesize_responses get_completion query s) =
  active_collaborations s.
Proof.
  unfold _synthesize_responses.
  destruct (List.filter _ (pending_responses s)) as [|[k e] l]; [done|].
  by destruct (truthy _).
Qed.

(** The sessions a run of the coordinator can hold have timeout 30: the
    property holds at creation and is kept by every handler. *)
Lemma handle_agent_response_timeouts_fixed now rd s :
  timeouts_fixed s ->
  timeouts_fixed (_handle_agent_response get_completion now rd s).
Proof.
  intros Hs. unfold _handle_agent_response.
  set (s1 := record_response rd s).
  assert (H1 : timeouts_fixed s1) by exact Hs.
  set (s2 := _check_collaboration_completion _ _ _ _ _ s1).
  assert (H2 : timeouts_fixed s2) by by apply check_completion_timeouts_fixed.
  set (s3 := _cleanup_timed_out_collaborations _ now s2).
  assert (H3 : timeouts_fixed s3) by by apply cleanup_timeouts_fixed.
  set (s4 := if (1 <? _)%Z then _ else s3).
  assert (H4 : timeouts_fixed s4) by (subst s4; by destruct (1 <? _)%Z).
  clearbody s4. destruct (all_subtasks_complete _ _); [|done].
  unfold timeouts_fixed. by rewrite synthesize_responses_active.
Qed.

(** A delegation to alice and bob at time 100 creates one session, with
    no response yet and the timeout 30. *)
Example delegated_session :
  active_collaborations Scenarios.delegated =
  [(collaboration_key "A" "u",
    {| session_task := "A";
       expected_agents := ["alice"; "bob"];
       received_responses := [];
       user_topic := "u";
       start_time := 100;
       timeout := 30 |})].
Proof. reflexivity. Qed.

(** *** The sweep as run by the response handler *)

Lemma cleanup_removes now s k :
  match OrderedDict.get k (active_collaborations s) with
  | Some c => timed_out now c = true
  | None => True
  end ->
  OrderedDict.get k
    (active_collaborations (_cleanup_timed_out_collaborations get_completion now s))
  = None.
Proof.
  intros H. rewrite cleanup_unfold. cbn [active_collaborations set_active].
  rewrite get_fold_del.
  destruct (OrderedDict.get k (active_collaborations s)) as [c|] eqn:Hget.
  - rewrite decide_True; [done|]. apply list_elem_of_fmap. exists (k, c).
    split; [done|]. apply timed_out_sessions_elem.
    split; [by apply get_Some_elem|done].
  - by destruct (decide _).
Qed.

(** X23. A session that is timed out when a response arrives is gone
    when the handler returns, whatever the response is about. *)
Lemma handle_agent_response_removes_timed_out now rd s k c :
  OrderedDict.get k (active_collaborations s) = Some c ->
  timed_out now c = true ->
  OrderedDict.get k
    (active_collaborations (_handle_agent_response get_completion now rd s))
  = None.
Proof.
  intros Hget Hto. unfold _handle_agent_response.
  set (s1 := record_response rd s).
  set (otask := default empty_task (original_task rd)).
  set (topic := default "user_session:main" (response_user_topic rd)).
  set (s2 := _check_collaboration_completion _ _ _ otask topic s1).
  assert (H2 : match OrderedDict.get k (active_collaborations s2) with
               | Some c' => timed_out now c' = true
               | None => True
               end).
  { subst s2.
    destruct (OrderedDict.get (collaboration_key (default "" (task otask)) topic)
                (active_collaborations s1)) as [c0|] eqn:Hg0.
    2:{ rewrite check_completion_absent by done.
        change (active_collaborations s1) with (active_collaborations s).
        by rewrite Hget. }
    rewrite (check_completion_present _ _ otask topic s1 c0 Hg0).
    change (active_collaborations s1) with (active_collaborations s) in *.
    destruct (decide (collaboration_key (default "" (task otask)) topic = k))
      as [Heq|Hne].
    - rewrite Heq in *. assert (c0 = c) as -> by congruence.
      destruct (bool_decide _); cbn [active_collaborations emit set_active].
      + by rewrite get_del_eq.
      + by rewrite get_set_eq.
    - destruct (bool_decide _); cbn [active_collaborations emit set_active].
      + rewrite get_del_ne by done. by rewrite Hget.
      + rewrite get_set_ne by done. by rewrite Hget. }
  set (s3 := _cleanup_timed_out_collaborations _ now s2).
  assert (H3 : OrderedDict.get k (active_collaborations s3) = None)
    by by apply cleanup_removes.
  set (s4 := if (1 <? _)%Z then _ else s3).
  assert (H4 : OrderedDict.get k (active_collaborations s4) = None)
    by (subst s4; by destruct (1 <? _)%Z).
  clearbody s4. destruct (all_subtasks_complete _ _); [|done].
  by rewrite synthesize_responses_active.
Qed.

(** *** The sweep as a partition of the sessions *)

(** X1. When every key occurs once, the sweep splits the sessions in
    two: those not timed out stay, unchanged and in their order; the
    timed-out ones are removed and their notices are sent in the order
    of the sessions; the pending index is not touched. *)
Theorem cleanup_timed_out_collaborations_partition (now : Z) (self : Assistant) :
  NoDup (OrderedDict.keys (active_collaborations self)) ->
  _cleanup_timed_out_collaborations get_completion now self =
  {| active_collaborations :=
       List.filter (fun kv => negb (timed_out now (snd kv)))
                   (active_collaborations self);
     pending_responses := pending_responses self;
     outbox :=
       outbox self ++
       concat (map (fun kv => timeout_notices get_completion (snd kv))
                   (timed_out_sessions now (active_collaborations self))) |}.
Proof.
  intros Hnd. rewrite cleanup_unfold. unfold timed_out_sessions.
  rewrite (fold_del_filtered (fun kv => timed_out now (snd kv))) by done.
  reflexivity.
Qed.

(** *** Synthesis of the pending index *)

Lemma filter_negb_all {A} (f : A -> bool) (l : list A) :
  List.filter f l = [] -> List.filter (fun x => negb (f x)) l = l.
Proof.
  induction l as [|x l IH]; [done|]. cbn [List.filter].
  destruct (f x); [done|]. intros H. cbn [negb]. by rewrite IH.
Qed.

Lemma filter_filter_negb {A} (f : A -> bool) (l : list A) :
  List.filter f (List.filter (fun x => negb (f x)) l) = [].
Proof.
  induction l as [|x l IH]; [done|]. cbn [List.filter].
  destruct (f x) eqn:Hf; cbn [negb]; [done|].
  cbn [List.filter]. by rewrite Hf.
Qed.

Lemma synthesize_responses_pending query s :
  pending_responses (_synthesize_responses get_completion query s) =
  List.filter (fun kv => negb (bool_decide (stored_query (snd kv) = query)))
              (pending_responses s).
Proof.
  unfold _synthesize_responses.
  destruct (List.filter _ (pending_responses s)) as [|[k e] l] eqn:Hf.
  - by rewrite filter_negb_all.
  - by destruct (truthy _).
Qed.

(** X2. The synthesis of a query removes from the pending index exactly
    the entries stored for that query, keeps the others in their order,
    leaves the sessions alone, and has nothing left to do when it is run
    a second time. *)
Theorem synthesize_responses_purges (query : string) (self : Assistant) :
  let self' := _synthesize_responses get_completion query self in
  pending_responses self' =
    List.filter (fun kv => negb (bool_decide (stored_query (snd kv) = query)))
                (pending_responses self) /\
  active_collaborations self' = active_collaborations self /\
  _synthesize_responses get_completion query self' = self'.
Proof.
  intros self'. split; [apply synthesize_responses_pending|].
  split; [apply synthesize_responses_active|].
  unfold _synthesize_responses at 1. subst self'.
  rewrite synthesize_responses_pending.
  by rewrite (filter_filter_negb
                (fun kv => bool_decide (stored_query (snd kv) = query))).
Qed.

(** *** What the handler leaves in the pending index *)

Lemma check_completion_pending sender res otask topic s :
  pending_responses
    (_check_collaboration_completion get_completion sender res otask topic s) =
  pending_responses s.
Proof.
  destruct (OrderedDict.get (collaboration_key (default "" (task otask)) topic)
              (active_collaborations s)) as [c|] eqn:Hget.
  - rewrite (check_completion_present sender res otask topic s c Hget).
    by destruct (bool_decide _).
  - by rewrite check_completion_absent.
Qed.

Lemma cleanup_pending now s :
  pending_responses (_cleanup_timed_out_collaborations get_completion now s) =
  pending_responses s.
Proof. by rewrite cleanup_unfold. Qed.

(** The pending index when the handler reaches its completion test. *)
Lemma handle_agent_response_pending now rd s :
  let recorded := pending_responses (record_response rd s) in
  let otask := default empty_task (original_task rd) in
  pending_responses (_handle_agent_response get_completion now rd s) =
  if all_subtasks_complete recorded (default 1%Z (total_subtasks otask))
  then List.filter
         (fun kv => negb (bool_decide (stored_query (snd kv) =
                                       find_original_query recorded otask)))
         recorded
  else recorded.
Proof.
  intros recorded otask. unfold _handle_agent_response.
  fold otask.
  set (topic := default "user_session:main" (response_user_topic rd)).
  set (s1 := record_response rd s).
  set (s2 := _check_collaboration_completion _ _ _ otask topic s1).
  set (s3 := _cleanup_timed_out_collaborations _ now s2).
  set (s4 := if (1 <? _)%Z then _ else s3).
  assert (H4 : pending_responses s4 = recorded).
  { subst s4. transitivity (pending_responses s3);
      [by destruct (1 <? _)%Z|].
    subst s3. rewrite cleanup_pending. subst s2.
    by rewrite check_completion_pending. }
  rewrite H4. destruct (all_subtasks_complete _ _); [|done].
  by rewrite synthesize_responses_pending, H4.
Qed.

Lemma find_original_query_nonempty pending otask :
  default "" (task otask) <> "" -> find_original_query pending otask <> "".
Proof.
  intros Htask. unfold find_original_query.
  destruct (List.find _ pending) as [[k e]|] eqn:Hfind; [|done].
  apply List.find_some in Hfind as [_ Htruthy]. cbn [snd] in Htruthy.
  unfold stored_query. destruct (original_query (pending_task e)) as [q|];
    [|done].
  simpl in *. intros ->. by vm_compute in Htruthy.
Qed.

(** X3. An entry recorded without an original query inside its task,
    as the responses to an ad-hoc delegation are, is never purged by the
    handling of a response whose task text is not empty: it is still in
    the pending index when the handler returns, also when this very
    response completed its task. *)
Theorem handle_agent_response_keeps_adhoc_entries
    (now : Z) (rd : ResponseData) (self : Assistant) (k : string) (e : Pending) :
  default "" (task (default empty_task (original_task rd))) <> "" ->
  OrderedDict.get k (pending_responses (record_response rd self)) = Some e ->
  stored_query e = "" ->
  OrderedDict.get k
    (pending_responses (_handle_agent_response get_completion now rd self)) =
  Some e.
Proof.
  intros Htask Hget Hquery. rewrite handle_agent_response_pending.
  destruct (all_subtasks_complete _ _); [|done].
  apply get_filter_keep; [done|]. cbn [snd]. rewrite Hquery.
  apply negb_true_iff, bool_decide_eq_false. intros Heq.
  by eapply find_original_query_nonempty.
Qed.

(** *** The completion test when the index holds one task only *)

Lemma size_index_range (n : nat) :
  size (list_to_set (C := gset Z) (map Z.of_nat (seq 0 n))) = n.
Proof.
  rewrite size_list_to_set.
  - by rewrite length_map, length_seq.
  - apply (NoDup_fmap_2 _). apply NoDup_seq.
Qed.

Lemma elem_index_range (n : nat) (i : Z) :
  i ∈ list_to_set (C := gset Z) (map Z.of_nat (seq 0 n)) <->
  (0 <= i < Z.of_nat n)%Z.
Proof.
  rewrite elem_of_list_to_set, list_elem_of_fmap. split.
  - intros (j & -> & Hj). apply elem_of_seq in Hj. lia.
  - intros Hi. exists (Z.to_nat i). split; [lia|]. apply elem_of_seq. lia.
Qed.

(** X4. When every index stored in the pending index is below the
    number of subtasks, which is the case when the index holds the
    responses of one decomposed task only, the completion test succeeds
    exactly when each of the indices [0 .. total - 1] has been
    recorded. *)
Theorem all_subtasks_complete_exact
    (pending : list (string * Pending)) (total : Z) :
  (forall i, i ∈ found_indices pending -> (i < total)%Z) ->
  all_subtasks_complete pending total = true <->
  (forall i, (0 <= i < total)%Z -> i ∈ found_indices pending).
Proof.
  intros Hbound. rewrite all_subtasks_complete_iff.
  set (range := list_to_set (C := gset Z)
                  (map Z.of_nat (seq 0 (Z.to_nat total)))).
  assert (Hsub : found_indices pending ⊆ range).
  { intros i Hi. apply elem_index_range.
    pose proof (Hbound i Hi). apply found_indices_elem in Hi as [Hi _]. lia. }
  assert (Hsize : size range = Z.to_nat total) by apply size_index_range.
  split.
  - intros Hle i Hi.
    assert (Heq : found_indices pending = range).
    { apply set_subseteq_size_eq; [done|]. rewrite Hsize. lia. }
    rewrite Heq. apply elem_index_range. lia.
  - intros Hall.
    assert (Hsup : range ⊆ found_indices pending).
    { intros i Hi. apply elem_index_range in Hi. apply Hall. lia. }
    apply subseteq_size in Hsup. rewrite Hsize in Hsup. lia.
Qed.

(** *** Setting up a collaboration *)

Lemma fold_delegations task_text reply_to (chosen : list AgentInfo) s :
  fold_left
    (fun self a =>
       let self := send_message reply_to (SendingTaskTo (info_name a)) self in
       let agent_type := default "general" (head (capabilities a)) in
       send_message ("agent:" +:+ info_name a +:+ ":inbox")
                    (Delegation task_text agent_type reply_to) self)
    chosen s =
  emit (delegation_messages task_text reply_to chosen) s.
Proof.
  revert s. induction chosen as [|a chosen IH]; intros s.
  - by rewrite emit_nil.
  - cbn [fold_left]. rewrite IH, !send_message_emit, !emit_emit. done.
Qed.

(** The function in one piece: the messages it sends and the session it
    stores. *)
Lemma collaborate_unfold agents_info now task_text agent_names reply_to s :
  _collaborate_with_agents agents_info now task_text agent_names reply_to s =
  match agents_info with
  | [] => emit [(reply_to, DiscoveryFailed)] s
  | _ :: _ =>
      let chosen := requested_running agents_info agent_names in
      let warning := unavailable_warning agents_info agent_names reply_to in
      match chosen with
      | [] => emit (warning ++ [(reply_to, NoAgentAvailable)]) s
      | _ :: _ =>
          emit (warning ++
                [(reply_to, StartingCollaboration (map info_name chosen))] ++
                delegation_messages task_text reply_to chosen ++
                [(reply_to, AllTasksSent)])
               (set_active
                  (OrderedDict.set (collaboration_key task_text reply_to)
                     (new_session now task_text reply_to chosen)
                     (active_collaborations s))
                  s)
      end
  end.
Proof.
  unfold _collaborate_with_agents.
  destruct agents_info as [|a0 infos]; [apply send_message_emit|].
  change (omap _ agent_names)
    with (requested_running (a0 :: infos) agent_names).
  change (List.filter _ agent_names)
    with (requested_unavailable (a0 :: infos) agent_names).
  cbv zeta. unfold unavailable_warning.
  set (s1 := match requested_unavailable _ _ with [] => s | _ :: _ => _ end).
  assert (Hs1 : s1 = emit match requested_unavailable (a0 :: infos) agent_names with
                          | [] => []
                          | names => [(reply_to, AgentsUnavailable names)]
                          end s).
  { subst s1. destruct (requested_unavailable _ _);
      [by rewrite emit_nil|apply send_message_emit]. }
  rewrite Hs1. clear Hs1 s1.
  destruct (requested_running (a0 :: infos) agent_names) as [|a1 chosen] eqn:Hc.
  - by rewrite send_message_emit, emit_emit.
  - by rewrite fold_delegations, !send_message_emit, !emit_emit.
Qed.

Lemma filter_delegation_messages task_text reply_to chosen :
  List.filter is_delegation (delegation_messages task_text reply_to chosen) =
  map (delegation_of task_text reply_to) chosen.
Proof.
  unfold delegation_messages.
  induction chosen as [|a chosen IH]; [done|].
  cbn [map concat app List.filter is_delegation snd delegation_of].
  by rewrite IH.
Qed.

Lemma other_delegation_messages task_text reply_to chosen :
  Forall (fun m => fst m = reply_to)
    (List.filter (fun m => negb (is_delegation m))
       (delegation_messages task_text reply_to chosen)).
Proof.
  unfold delegation_messages.
  induction chosen as [|a chosen IH]; [constructor|].
  cbn [map concat app List.filter is_delegation snd delegation_of negb].
  by constructor.
Qed.

Lemma filter_unavailable_warning (f : string * Payload -> bool)
    agents_info agent_names reply_to :
  (forall names, f (reply_to, AgentsUnavailable names) = false) ->
  List.filter f (unavailable_warning agents_info agent_names reply_to) = [].
Proof.
  intros Hf. unfold unavailable_warning.
  destruct (requested_unavailable _ _); [done|].
  cbn [List.filter]. by rewrite Hf.
Qed.

Lemma unavailable_warning_topic agents_info agent_names reply_to :
  Forall (fun m => fst m = reply_to)
         (unavailable_warning agents_info agent_names reply_to).
Proof.
  unfold unavailable_warning.
  destruct (requested_unavailable _ _); by repeat constructor.
Qed.

Lemma requested_running_elem agents_info agent_names a :
  a ∈ requested_running agents_info agent_names ->
  is_running a = true /\ a ∈ agents_info /\
  exists agent_name,
    agent_name ∈ agent_names /\ lower (info_name a) = lower agent_name.
Proof.
  unfold requested_running. rewrite list_elem_of_omap.
  intros (agent_name & Hin & Hf).
  destruct (lookup_agent agents_info agent_name) as [a'|] eqn:Hfind; [|done].
  destruct (is_running a') eqn:Hrun; [|done]. injection Hf as ->.
  apply List.find_some in Hfind as [Hinfo Hname].
  apply bool_decide_eq_true in Hname.
  split; [done|]. split; [by apply list_elem_of_In|]. by exists agent_name.
Qed.

(** X5. A request to collaborate in which at least one requested agent
    is listed and running stores one session under the key of the task
    and the topic: it expects the chosen agents, in the order of the
    request, holds no response, starts at the clock and times out after
    30.  Exactly the chosen agents are sent the task, each to its own
    inbox with its first capability as agent type ([general] without
    one); every other message goes to the user; the other sessions and
    the pending index are untouched; and every chosen agent is running,
    listed, and named in the request up to case. *)
Theorem collaborate_with_agents_delegates
    (agents_info : list AgentInfo) (now : Z) (task_text : string)
    (agent_names : list string) (reply_to : string) (self : Assistant) :
  let chosen := requested_running agents_info agent_names in
  let key := collaboration_key task_text reply_to in
  let self' :=
    _collaborate_with_agents agents_info now task_text agent_names reply_to self in
  agents_info <> [] -> chosen <> [] ->
  OrderedDict.get key (active_collaborations self') =
    Some (new_session now task_text reply_to chosen) /\
  (forall k, k <> key ->
     OrderedDict.get k (active_collaborations self') =
     OrderedDict.get k (active_collaborations self)) /\
  pending_responses self' = pending_responses self /\
  outbox self' = outbox self ++ emitted self self' /\
  List.filter is_delegation (emitted self self') =
    map (delegation_of task_text reply_to) chosen /\
  Forall (fun m => fst m = reply_to)
         (List.filter (fun m => negb (is_delegation m)) (emitted self self')) /\
  Forall (fun a => is_running a = true /\ a ∈ agents_info /\
                   exists agent_name, agent_name ∈ agent_names /\
                                      lower (info_name a) = lower agent_name)
         chosen.
Proof.
  intros chosen key self' Hinfo Hchosen. subst self'.
  rewrite collaborate_unfold. fold chosen. fold key.
  destruct agents_info as [|a0 infos]; [done|]. cbv zeta.
  destruct chosen as [|a1 rest] eqn:Hc; [done|]. rewrite <- Hc.
  rewrite emitted_set_active.
  cbn [active_collaborations pending_responses outbox emit set_active].
  split; [apply get_set_eq|]. split; [intros k Hk; by apply get_set_ne|].
  split; [done|]. split; [done|]. split; [|split].
  - rewrite !List.filter_app, filter_delegation_messages.
    rewrite filter_unavailable_warning by done.
    cbn [List.filter is_delegation snd app]. apply app_nil_r.
  - rewrite !List.filter_app. repeat apply Forall_app_2.
    + apply Forall_forall. intros m Hm.
      apply list_elem_of_In, List.filter_In in Hm as [Hm _].
      pose proof (unavailable_warning_topic (a0 :: infos) agent_names reply_to)
        as Hw.
      rewrite Forall_forall in Hw. by apply Hw, list_elem_of_In.
    + by repeat constructor.
    + apply other_delegation_messages.
    + by repeat constructor.
  - apply Forall_forall. intros a Ha. by apply requested_running_elem.
Qed.

(** X6. When the listing is empty, or no requested agent is listed and
    running, no session is created, nothing is sent to any agent, and
    the last thing the user is sent is the reason. *)
Theorem collaborate_with_agents_unavailable
    (agents_info : list AgentInfo) (now : Z) (task_text : string)
    (agent_names : list string) (reply_to : string) (self : Assistant) :
  let self' :=
    _collaborate_with_agents agents_info now task_text agent_names reply_to self in
  agents_info = [] \/ requested_running agents_info agent_names = [] ->
  active_collaborations self' = active_collaborations self /\
  pending_responses self' = pending_responses self /\
  outbox self' = outbox self ++ emitted self self' /\
  List.filter is_delegation (emitted self self') = [] /\
  Forall (fun m => fst m = reply_to) (emitted self self') /\
  last (emitted self self') =
    Some (reply_to,
          match agents_info with
          | [] => DiscoveryFailed
          | _ :: _ => NoAgentAvailable
          end).
Proof.
  intros self' Hnone. subst self'. rewrite collaborate_unfold.
  destruct agents_info as [|a0 infos].
  - rewrite emitted_emit. repeat split; by repeat constructor.
  - destruct Hnone as [Hnone|Hnone]; [done|]. cbv zeta. rewrite Hnone.
    rewrite emitted_emit. cbn [active_collaborations pending_responses outbox emit].
    split; [done|]. split; [done|]. split; [done|]. split; [|split].
    + rewrite List.filter_app, filter_unavailable_warning by done. done.
    + apply Forall_app_2; [apply unavailable_warning_topic|by repeat constructor].
    + by rewrite last_snoc.
Qed.

(** *** Several responses to one session *)

Lemma feed_absent otask topic rs s :
  OrderedDict.get (collaboration_key (default "" (task otask)) topic)
                  (active_collaborations s) = None ->
  feed get_completion otask topic rs s = s.
Proof.
  intros Hget. unfold feed. induction rs as [|r rs IH]; [done|].
  cbn [fold_left]. by rewrite check_completion_absent.
Qed.

Lemma received_with_response c sender res otask :
  received_agents (with_response c sender res otask) =
  received_agents c ∪ {[ sender ]}.
Proof.
  unfold received_agents, with_response. cbn [received_responses].
  rewrite map_app, list_to_set_app_L. cbn [map from_agent list_to_set].
  by rewrite (right_id_L ∅ (∪)).
Qed.

Lemma received_with_responses c otask rs :
  received_agents (with_responses c otask rs) =
  received_agents c ∪ list_to_set (map fst rs).
Proof.
  unfold with_responses. revert c.
  induction rs as [|r rs IH]; intros c; cbn [fold_left map list_to_set].
  - by rewrite (right_id_L ∅ (∪)).
  - rewrite IH, received_with_response. by rewrite (assoc_L (∪)).
Qed.

Lemma expected_with_responses c otask rs :
  expected_set (with_responses c otask rs) = expected_set c.
Proof.
  unfold with_responses. revert c.
  induction rs as [|r rs IH]; intros c; cbn [fold_left]; [done|].
  by rewrite IH.
Qed.

Lemma filter_notice_results topic (rs : list Received) :
  List.filter is_completion_notice
    (map (fun r => (topic, AgentResult (from_agent r) (result r))) rs) = [].
Proof. induction rs as [|r rs IH]; [done|exact IH]. Qed.

Lemma filter_notice_synthesis c :
  List.filter is_completion_notice
    (session_synthesis_messages get_completion c) = [].
Proof.
  unfold session_synthesis_messages.
  destruct (length (received_responses c) <=? 1)%nat; [done|].
  by destruct (truthy _).
Qed.

(** The state after a non-empty sequence of responses to a stored
    session. *)
Lemma feed_present otask topic rs : forall r c s,
  let key := collaboration_key (default "" (task otask)) topic in
  let c' := with_responses c otask (r :: rs) in
  OrderedDict.get key (active_collaborations s) = Some c ->
  exists msgs d,
    feed get_completion otask topic (r :: rs) s = emit msgs (set_active d s) /\
    (forall k, k <> key ->
       OrderedDict.get k d = OrderedDict.get k (active_collaborations s)) /\
    if bool_decide (expected_set c ⊆ received_agents c') then
      OrderedDict.get key d = None /\
      List.filter is_completion_notice msgs = [(topic, CollaborationComplete)]
    else
      OrderedDict.get key d = Some c' /\
      List.filter is_completion_notice msgs = [].
Proof.
  induction rs as [|r2 rs IH]; intros r c s key c' Hget.
  - subst c'. unfold feed, with_responses. cbn [fold_left].
    rewrite (check_completion_present (fst r) (snd r) otask topic s c Hget).
    fold key. change (expected_set (with_response c (fst r) (snd r) otask))
      with (expected_set c).
    destruct (bool_decide _) eqn:Hb; eexists _, _; (split; [reflexivity|]).
    + split; [intros k Hk; by apply get_del_ne|].
      split; [apply get_del_eq|].
      rewrite !List.filter_app, filter_notice_results, filter_notice_synthesis.
      done.
    + split; [intros k Hk; by apply get_set_ne|].
      split; [apply get_set_eq|done].
  - unfold feed. cbn [fold_left].
    change (fold_left _ rs ?x) with (feed get_completion otask topic rs x).
    set (c1 := with_response c (fst r) (snd r) otask).
    assert (Hc' : c' = with_responses c1 otask (r2 :: rs)) by done.
    pose proof (received_with_responses c1 otask (r2 :: rs)) as Hrec.
    rewrite <- Hc' in Hrec.
    rewrite (check_completion_present (fst r) (snd r) otask topic s c Hget).
    fold key. fold c1. change (expected_set c1) with (expected_set c).
    destruct (bool_decide (expected_set c ⊆ received_agents c1)) eqn:Hb.
    + apply bool_decide_eq_true in Hb.
      assert (Hall : expected_set c ⊆ received_agents c').
      { rewrite Hrec. clear -Hb. set_solver. }
      rewrite bool_decide_true by exact Hall.
      set (s1 := emit _ _).
      assert (Hnone : OrderedDict.get key (active_collaborations s1) = None)
        by apply get_del_eq.
      pose proof (feed_absent otask topic (r2 :: rs) s1 Hnone) as Hfeed.
      unfold feed in Hfeed. cbn [fold_left] in Hfeed. unfold feed.
      rewrite Hfeed. subst s1. eexists _, _. split; [reflexivity|].
      split; [intros k Hk; by apply get_del_ne|].
      split; [apply get_del_eq|].
      rewrite !List.filter_app, filter_notice_results, filter_notice_synthesis.
      done.
    + set (s1 := emit _ _).
      assert (Hsome : OrderedDict.get key (active_collaborations s1) = Some c1)
        by apply get_set_eq.
      destruct (IH r2 c1 s1 Hsome) as (msgs & d & Hfeed & Hother & Hcase).
      unfold feed in Hfeed. cbn [fold_left] in Hfeed. unfold feed.
      rewrite Hfeed. rewrite <- Hc' in Hcase.
      change (expected_set c1) with (expected_set c) in Hcase.
      exists ([(topic, StillWaiting (expected_set c ∖ received_agents c1))]
              ++ msgs), d.
      split.
      { subst s1. unfold emit, set_active.
        cbn [active_collaborations pending_responses outbox].
        by rewrite <- app_assoc. }
      split.
      { intros k Hk. rewrite Hother by done. subst s1.
        cbn [active_collaborations emit set_active]. by apply get_set_ne. }
      destruct (bool_decide (expected_set c ⊆ received_agents c')); exact Hcase.
Qed.

(** X7. One or more responses to the task of a stored session, taken
    one after the other.  The session completes exactly when every
    expected agent is among those who had answered before or answer now;
    it is then removed and the completion notice is sent once, however
    many responses follow.  Otherwise the session stays, holding all the
    responses in the order of arrival, and no completion notice is
    sent.  The pending index is not touched. *)
Theorem collaboration_completes_once
    (otask : Task) (topic : string) (responses : list (string * string))
    (self : Assistant) (c : Session) :
  let key := collaboration_key (default "" (task otask)) topic in
  let self' := feed get_completion otask topic responses self in
  OrderedDict.get key (active_collaborations self) = Some c ->
  responses <> [] ->
  outbox self' = outbox self ++ emitted self self' /\
  pending_responses self' = pending_responses self /\
  (forall k, k <> key ->
     OrderedDict.get k (active_collaborations self') =
     OrderedDict.get k (active_collaborations self)) /\
  if bool_decide (expected_set c ⊆
                  received_agents c ∪ list_to_set (map fst responses)) then
    OrderedDict.get key (active_collaborations self') = None /\
    List.filter is_completion_notice (emitted self self') =
      [(topic, CollaborationComplete)]
  else
    OrderedDict.get key (active_collaborations self') =
      Some (with_responses c otask responses) /\
    List.filter is_completion_notice (emitted self self') = [].
Proof.
  intros key self' Hget Hne. destruct responses as [|r rs]; [done|].
  destruct (feed_present otask topic rs r c self Hget)
    as (msgs & d & Hfeed & Hother & Hcase).
  subst self'. rewrite Hfeed. rewrite emitted_set_active.
  rewrite received_with_responses in Hcase.
  cbn [active_collaborations pending_responses outbox emit set_active].
  split; [done|]. split; [done|]. split; [exact Hother|exact Hcase].
Qed.

(** *** What every run of the coordinator keeps *)

Lemma collaborate_ok agents_info now task_text agent_names reply_to s :
  coordinator_ok s ->
  coordinator_ok
    (_collaborate_with_agents agents_info now task_text agent_names reply_to s).
Proof.
  intros (Hactive & Hpending & Hsessions). rewrite collaborate_unfold.
  destruct agents_info as [|a0 infos]; [done|]. cbv zeta.
  destruct (requested_running (a0 :: infos) agent_names) as [|a1 chosen];
    [done|].
  unfold coordinator_ok.
  cbn [active_collaborations pending_responses emit set_active].
  split; [by apply NoDup_keys_set|]. split; [done|].
  apply Forall_dict_set; [|done].
  split; [done|]. split; [done|].
  unfold expected_set, received_agents.
  cbn [snd new_session expected_agents received_responses map list_to_set].
  set_solver.
Qed.

Lemma check_completion_ok sender res otask topic s :
  coordinator_ok s ->
  coordinator_ok
    (_check_collaboration_completion get_completion sender res otask topic s).
Proof.
  intros (Hactive & Hpending & Hsessions).
  destruct (OrderedDict.get (collaboration_key (default "" (task otask)) topic)
              (active_collaborations s)) as [c|] eqn:Hget.
  2:{ by rewrite check_completion_absent. }
  rewrite (check_completion_present sender res otask topic s c Hget).
  assert (Hc : session_ok (collaboration_key (default "" (task otask)) topic, c)).
  { rewrite Forall_forall in Hsessions. by apply Hsessions, get_Some_elem. }
  destruct Hc as (Htimeout & Hkey & _).
  destruct (bool_decide _) eqn:Hb; unfold coordinator_ok;
    cbn [active_collaborations pending_responses emit set_active].
  - split; [by apply NoDup_keys_del|]. split; [done|].
    by apply Forall_dict_del.
  - split; [by apply NoDup_keys_set|]. split; [done|].
    apply Forall_dict_set; [|done].
    split; [exact Htimeout|]. split; [exact Hkey|].
    by apply bool_decide_eq_false in Hb.
Qed.

Lemma cleanup_ok now s :
  coordinator_ok s ->
  coordinator_ok (_cleanup_timed_out_collaborations get_completion now s).
Proof.
  intros (Hactive & Hpending & Hsessions). rewrite cleanup_unfold.
  unfold coordinator_ok.
  cbn [active_collaborations pending_responses emit set_active].
  split; [|split; [done|by apply Forall_fold_del]].
  rewrite fold_del_filter. by apply NoDup_keys_filter.
Qed.

Lemma synthesize_responses_ok query s :
  coordinator_ok s ->
  coordinator_ok (_synthesize_responses get_completion query s).
Proof.
  intros (Hactive & Hpending & Hsessions). unfold coordinator_ok.
  rewrite synthesize_responses_active, synthesize_responses_pending.
  split; [done|]. split; [by apply NoDup_keys_filter|done].
Qed.

Lemma handle_agent_response_ok now rd s :
  coordinator_ok s ->
  coordinator_ok (_handle_agent_response get_completion now rd s).
Proof.
  intros Hs. unfold _handle_agent_response.
  set (s1 := record_response rd s).
  assert (H1 : coordinator_ok s1).
  { destruct Hs as (Hactive & Hpending & Hsessions). unfold coordinator_ok.
    subst s1. unfold record_response.
    cbn [active_collaborations pending_responses set_pending].
    split; [done|]. split; [by apply NoDup_keys_set|done]. }
  set (s2 := _check_collaboration_completion _ _ _ _ _ s1).
  assert (H2 : coordinator_ok s2) by by apply check_completion_ok.
  set (s3 := _cleanup_timed_out_collaborations _ now s2).
  assert (H3 : coordinator_ok s3) by by apply cleanup_ok.
  set (s4 := if (1 <? _)%Z then _ else s3).
  assert (H4 : coordinator_ok s4) by (subst s4; by destruct (1 <? _)%Z).
  clearbody s4. destruct (all_subtasks_complete _ _); [|done].
  by apply synthesize_responses_ok.
Qed.

Lemma step_ok now e s :
  coordinator_ok s -> coordinator_ok (step get_completion now e s).
Proof.
  intros Hs. destruct e; cbn [step].
  - by apply collaborate_ok.
  - by apply handle_agent_response_ok.
  - by apply cleanup_ok.
Qed.

Lemma run_ok trace s :
  coordinator_ok s -> coordinator_ok (run get_completion trace s).
Proof.
  unfold run. revert s. induction trace as [|e trace IH]; intros s Hs; [done|].
  cbn [fold_left]. by apply IH, step_ok.
Qed.

(** X8. In every state the assistant reaches from its initial one by
    requests to collaborate, responses of agents and sweeps, at any clock
    values and whatever the completion service answers: each of the two
    dictionaries holds every key once; every stored session has the
    timeout 30, is stored under the key built from its own task and
    topic, and still lacks the answer of at least one expected agent. *)
Theorem coordinator_invariant (trace : list (Z * Event)) :
  let self := run get_completion trace Scenarios.fresh_assistant in
  NoDup (OrderedDict.keys (active_collaborations self)) /\
  NoDup (OrderedDict.keys (pending_responses self)) /\
  Forall (fun kv =>
            timeout (snd kv) = 30%Z /\
            fst kv = collaboration_key (session_task (snd kv))
                                       (user_topic (snd kv)) /\
            ~ expected_set (snd kv) ⊆ received_agents (snd kv))
         (active_collaborations self).
Proof.
  apply (run_ok trace Scenarios.fresh_assistant).
  split; [apply NoDup_nil_2|]. split; [apply NoDup_nil_2|apply Forall_nil_2].
Qed.

(** *** A response within the timeout *)

(** One response to the task of a stored session that has not timed
    out: the session is gone if the response was the last one missing,
    and is otherwise stored with the response appended; the sweep run by
    the same call does not remove it. *)
Lemma handle_agent_response_session_step
    (now : Z) (rd : ResponseData) (self : Assistant) (c : Session) :
  let otask := default empty_task (original_task rd) in
  let topic := default "user_session:main" (response_user_topic rd) in
  let key := collaboration_key (default "" (task otask)) topic in
  let c' := with_response c (response_from_agent rd) (task_result rd) otask in
  NoDup (OrderedDict.keys (active_collaborations self)) ->
  OrderedDict.get key (active_collaborations self) = Some c ->
  timed_out now c = false ->
  OrderedDict.get key
    (active_collaborations (_handle_agent_response get_completion now rd self)) =
  if bool_decide (expected_set c ⊆ received_agents c') then None else Some c'.
Proof.
  intros otask topic key c' Hnd Hget Hlive. unfold _handle_agent_response.
  fold otask. fold topic.
  set (s1 := record_response rd self).
  set (s2 := _check_collaboration_completion _ _ _ otask topic s1).
  set (s3 := _cleanup_timed_out_collaborations _ now s2).
  set (s4 := if (1 <? _)%Z then _ else s3).
  assert (H4 : active_collaborations s4 = active_collaborations s3)
    by (subst s4; by destruct (1 <? _)%Z).
  transitivity (OrderedDict.get key (active_collaborations s3)).
  { f_equal. destruct (all_subtasks_complete _ _); [|done].
    by rewrite synthesize_responses_active. }
  clear H4. subst s3 s2.
  rewrite (check_completion_present _ _ otask topic s1 c Hget).
  fold key. fold c'. change (active_collaborations s1)
    with (active_collaborations self).
  destruct (bool_decide (expected_set c ⊆ received_agents c')).
  - apply cleanup_removes.
    cbn [active_collaborations emit set_active]. by rewrite get_del_eq.
  - apply cleanup_keeps_live.
    + cbn [active_collaborations emit set_active]. by apply NoDup_keys_set.
    + cbn [active_collaborations emit set_active]. apply get_set_eq.
    + exact Hlive.
Qed.

Lemma handle_agent_response_absent now rd s k :
  OrderedDict.get k (active_collaborations s) = None ->
  OrderedDict.get k
    (active_collaborations (_handle_agent_response get_completion now rd s))
  = None.
Proof.
  intros Hget. unfold _handle_agent_response.
  set (otask := default empty_task (original_task rd)).
  set (topic := default "user_session:main" (response_user_topic rd)).
  set (s1 := record_response rd s).
  set (s2 := _check_collaboration_completion _ _ _ otask topic s1).
  assert (H2 : OrderedDict.get k (active_collaborations s2) = None).
  { subst s2.
    destruct (OrderedDict.get (collaboration_key (default "" (task otask)) topic)
                (active_collaborations s1)) as [c0|] eqn:Hg0.
    2:{ by rewrite check_completion_absent. }
    rewrite (check_completion_present _ _ otask topic s1 c0 Hg0).
    change (active_collaborations s1) with (active_collaborations s) in *.
    assert (Hne : collaboration_key (default "" (task otask)) topic <> k)
      by congruence.
    destruct (bool_decide _); cbn [active_collaborations emit set_active].
    - by rewrite get_del_ne.
    - by rewrite get_set_ne. }
  set (s3 := _cleanup_timed_out_collaborations _ now s2).
  assert (H3 : OrderedDict.get k (active_collaborations s3) = None).
  { apply cleanup_removes. by rewrite H2. }
  set (s4 := if (1 <? _)%Z then _ else s3).
  assert (H4 : OrderedDict.get k (active_collaborations s4) = None)
    by (subst s4; by destruct (1 <? _)%Z).
  clearbody s4. destruct (all_subtasks_complete _ _); [|done].
  by rewrite synthesize_responses_active.
Qed.

Lemma handle_responses_absent responses : forall s k,
  OrderedDict.get k (active_collaborations s) = None ->
  OrderedDict.get k
    (active_collaborations (handle_responses get_completion responses s))
  = None.
Proof.
  unfold handle_responses.
  induction responses as [|r responses IH]; intros s k Hget; [done|].
  cbn [fold_left]. by apply IH, handle_agent_response_absent.
Qed.

Lemma handle_responses_ok responses : forall s,
  coordinator_ok s ->
  coordinator_ok (handle_responses get_completion responses s).
Proof.
  unfold handle_responses.
  induction responses as [|r responses IH]; intros s Hs; [done|].
  cbn [fold_left]. by apply IH, handle_agent_response_ok.
Qed.

(** X9. A collaboration from the first response to the last.  In a
    state reached by the coordinator, a session is stored for a task and
    a topic; responses that echo this task and topic are handled one
    after the other, each before the session times out.  When the
    handler has returned for the last of them, the session is gone if
    every expected agent is among those who had answered before or have
    answered now, and is otherwise still stored, holding all the
    responses in the order of arrival: the sweep run with every response
    does not remove it, and a response of an agent that is not expected,
    or a second response of the same agent, does not complete it. *)
Theorem handle_agent_responses_complete_session
    (responses : list (Z * ResponseData)) (self : Assistant) (c : Session)
    (task_text topic : string) :
  let key := collaboration_key task_text topic in
  coordinator_ok self ->
  OrderedDict.get key (active_collaborations self) = Some c ->
  Forall (fun r => answers task_text topic (snd r) /\
                   timed_out (fst r) c = false) responses ->
  OrderedDict.get key
    (active_collaborations (handle_responses get_completion responses self)) =
  if bool_decide
       (expected_set c ⊆
        received_agents c ∪
        list_to_set (map (fun r => response_from_agent (snd r)) responses))
  then None
  else Some (with_response_data c (map snd responses)).
Proof.
  intros key. revert self c.
  induction responses as [|[now rd] responses IH];
    intros self c Hok Hget Hall.
  - cbn [handle_responses fold_left map list_to_set with_response_data].
    rewrite bool_decide_false; [done|].
    destruct Hok as (_ & _ & Hsessions). rewrite Forall_forall in Hsessions.
    destruct (Hsessions (key, c) (get_Some_elem _ _ _ Hget)) as (_ & _ & Hopen).
    cbn [snd] in Hopen. intros Hsub. apply Hopen.
    by rewrite (right_id_L ∅ (∪)) in Hsub.
  - apply Forall_cons in Hall as [[[Htask Htopic] Hlive] Hall].
    cbn [fst snd] in Htask, Htopic, Hlive.
    unfold handle_responses. cbn [fold_left fst snd].
    change (fold_left _ responses ?x)
      with (handle_responses get_completion responses x).
    set (s1 := _handle_agent_response get_completion now rd self).
    set (c1 := with_response c (response_from_agent rd) (task_result rd)
                 (default empty_task (original_task rd))).
    assert (Hstep : OrderedDict.get key (active_collaborations s1) =
                    if bool_decide (expected_set c ⊆ received_agents c1)
                    then None else Some c1).
    { subst s1 c1 key. rewrite <- Htask, <- Htopic.
      apply handle_agent_response_session_step; [apply Hok| |exact Hlive].
      by rewrite Htask, Htopic. }
    assert (Hrec : received_agents c ∪
                   list_to_set
                     (map (fun r => response_from_agent (snd r))
                          ((now, rd) :: responses)) =
                   received_agents c1 ∪
                   list_to_set
                     (map (fun r => response_from_agent (snd r)) responses)).
    { subst c1. rewrite received_with_response.
      cbn [map list_to_set fst snd]. by rewrite (assoc_L (∪)). }
    rewrite Hrec.
    destruct (bool_decide (expected_set c ⊆ received_agents c1)) eqn:Hb.
    + apply bool_decide_eq_true in Hb.
      rewrite bool_decide_true by (clear -Hb; set_solver).
      by apply handle_responses_absent.
    + change (expected_set c) with (expected_set c1).
      apply IH; [by apply handle_agent_response_ok|exact Hstep|].
      eapply Forall_impl; [exact Hall|]. by intros r [Ha Hl].
Qed.

End CollaborationFacts.


Lemma synthesize_responses_without_contribution_witness :
  Collaboration._synthesize_responses Scenarios.service_up "Q"
    Scenarios.after_adhoc = Scenarios.after_adhoc.
Proof.
  apply (synthesize_responses_without_contribution Scenarios.service_up "Q"
           Scenarios.after_adhoc).
  repeat constructor. discriminate.
Defined.

(** C3. The pending index holds the entry of an earlier ad-hoc response
    (task ["A"], index 0).  The response for index 1 of the two subtasks
    of query ["Q"] arrives before the one for index 0.  The completion
    test counts the indices 0 and 1 over the whole index, so synthesis is
    started, on the single stored response of ["Q"], although one index
    only has been recorded for that task. *)
Theorem handle_agent_response_counts_other_tasks :
  let before := Scenarios.after_adhoc in
  let recorded := Collaboration.record_response Scenarios.bob_second before in
  let after :=
    Collaboration._handle_agent_response Scenarios.service_up 1
      Scenarios.bob_second before in
  OrderedDict.keys (Collaboration.pending_responses recorded) = ["A_0"; "B_1"] /\
  Collaboration.indices_of_task "B" (Collaboration.pending_responses recorded)
    = {[ 1%Z ]} /\
  Collaboration.indices_of_query "Q" (Collaboration.pending_responses recorded)
    = {[ 1%Z ]} /\
  Collaboration.all_subtasks_complete
    (Collaboration.pending_responses recorded) 2 = true /\
  Collaboration.emitted before after =
    [("u", Collaboration.AgentCompleted "bob");
     ("u", Collaboration.SynthesizingAll 1);
     ("u", Collaboration.SynthesizedAnswer
             (Py.str (Py.replace_dot_blank
                (Py.chars "Both parts are done. See above."))));
     ("u", Collaboration.CompleteSummary 1)] /\
  OrderedDict.keys (Collaboration.pending_responses after) = ["A_0"].
Proof. vm_compute. repeat split. Qed.

(** C6. Alice has answered, bob answers, and the completion service is
    down.  The session completes and its synthesis is started; the last
    message the user receives is the progress notice of the synthesis:
    no answer and no notice of the failure follows. *)
Theorem check_collaboration_completion_silent_failure :
  let after :=
    Collaboration._check_collaboration_completion Scenarios.service_down
      "bob" "rb" Scenarios.adhoc_task "u" Scenarios.waiting_for_bob in
  Collaboration.emitted Scenarios.waiting_for_bob after =
    [("u", Collaboration.AgentResult "alice" "ra");
     ("u", Collaboration.AgentResult "bob" "rb");
     ("u", Collaboration.ReceivedFrom {[ "alice"; "bob" ]});
     ("u", Collaboration.CollaborationComplete);
     ("u", Collaboration.Synthesizing 2)] /\
  Collaboration.active_collaborations after = [].
Proof. vm_compute. repeat split. Qed.

(** ** Duplicate suppression in the worker *)

Section WorkerFacts.
Import Py Worker.
Variable hash : string -> Z.

(** *** The oldest entry *)

Lemma min_entry_in best (d : list (Z * Z)) : min_entry best d ∈ best :: d.
Proof.
  revert best. induction d as [|kv d IH]; intros best; simpl.
  - apply list_elem_of_here.
  - destruct (snd kv <? snd best)%Z.
    + apply list_elem_of_further, IH.
    + specialize (IH best). apply elem_of_cons in IH as [->|IH].
      * apply list_elem_of_here.
      * by do 2 apply list_elem_of_further.
Qed.

Lemma min_entry_le_best best (d : list (Z * Z)) :
  (snd (min_entry best d) <= snd best)%Z.
Proof.
  revert best. induction d as [|kv d IH]; intros best; simpl; [lia|].
  destruct (snd kv <? snd best)%Z eqn:Hlt.
  - apply Z.ltb_lt in Hlt. specialize (IH kv). lia.
  - apply IH.
Qed.

Lemma min_entry_le best (d : list (Z * Z)) x :
  x ∈ best :: d -> (snd (min_entry best d) <= snd x)%Z.
Proof.
  revert best. induction d as [|kv d IH]; intros best Hin; simpl.
  - apply list_elem_of_singleton in Hin. subst. lia.
  - apply elem_of_cons in Hin as [->|Hin].
    + destruct (snd kv <? snd best)%Z eqn:Hlt.
      * apply Z.ltb_lt in Hlt. pose proof (min_entry_le_best kv d). lia.
      * apply min_entry_le_best.
    + destruct (snd kv <? snd best)%Z eqn:Hlt.
      * apply IH. done.
      * apply Z.ltb_ge in Hlt.
        apply elem_of_cons in Hin as [->|Hin].
        -- pose proof (min_entry_le_best best d). lia.
        -- apply IH. by apply list_elem_of_further.
Qed.

Lemma min_entry_snoc best (d : list (Z * Z)) x :
  min_entry best (d ++ [x]) =
  if (snd x <? snd (min_entry best d))%Z then x else min_entry best d.
Proof.
  revert best. induction d as [|kv d IH]; intros best; simpl; [done|].
  destruct (snd kv <? snd best)%Z; apply IH.
Qed.

(** The key chosen for eviction carries the least timestamp. *)
Lemma oldest_key_least (d : list (Z * Z)) k :
  oldest_key d = Some k ->
  exists t, (k, t) ∈ d /\ forall kv, kv ∈ d -> (t <= snd kv)%Z.
Proof.
  destruct d as [|kv d]; simpl; [done|]. intros [= <-].
  exists (snd (min_entry kv d)). split.
  - rewrite <- surjective_pairing. apply min_entry_in.
  - intros x Hx. by apply min_entry_le.
Qed.

(** *** The cache update *)

Lemma remember_cases message_hash now (recent : list (Z * Z)) :
  let updated := OrderedDict.set message_hash now recent in
  ((length updated <= MAX_RECENT)%nat /\
   remember message_hash now recent = updated) \/
  ((MAX_RECENT < length updated)%nat /\
   exists k t, oldest_key updated = Some k /\ (k, t) ∈ updated /\
               (forall kv, kv ∈ updated -> (t <= snd kv)%Z) /\
               remember message_hash now recent = OrderedDict.del k updated).
Proof.
  intros updated. unfold remember. fold updated.
  destruct (MAX_RECENT <? length updated)%nat eqn:Hlen.
  - right. apply Nat.ltb_lt in Hlen. split; [done|].
    destruct (oldest_key updated) as [k|] eqn:Hold.
    + destruct (oldest_key_least _ _ Hold) as (t & Hin & Hle).
      by exists k, t.
    + destruct updated; [simpl in Hlen; unfold MAX_RECENT in Hlen; lia|done].
  - left. apply Nat.ltb_ge in Hlen. done.
Qed.

Lemma remember_well_formed message_hash now recent :
  well_formed recent -> well_formed (remember message_hash now recent).
Proof.
  intros [Hnd Hlen].
  assert (Hupd : (length (OrderedDict.set message_hash now recent)
                  <= S MAX_RECENT)%nat).
  { destruct (OrderedDict.get message_hash recent) eqn:Hg.
    - rewrite length_set_present by done. lia.
    - rewrite length_set_absent by done. lia. }
  destruct (remember_cases message_hash now recent)
    as [[Hle ->]|[Hgt (k & t & _ & Hin & _ & ->)]].
  - split; [by apply NoDup_keys_set|done].
  - split; [by apply NoDup_keys_del, NoDup_keys_set|].
    assert (length (OrderedDict.del k (OrderedDict.set message_hash now recent))
            < length (OrderedDict.set message_hash now recent))%nat; [|lia].
    apply length_del_present, elem_keys_get.
    apply list_elem_of_fmap. by exists (k, t).
Qed.

(** With a clock that has not run backwards, the entry just written is
    not the one evicted. *)
Lemma remember_keeps_new message_hash now recent :
  well_formed recent -> clock_ahead now recent ->
  OrderedDict.get message_hash (remember message_hash now recent) = Some now.
Proof.
  intros [Hnd Hlen] Hclock. unfold remember.
  destruct (OrderedDict.get message_hash recent) as [t0|] eqn:Hg.
  - rewrite length_set_present by done.
    apply Nat.ltb_ge in Hlen. rewrite Hlen. apply get_set_eq.
  - rewrite (set_absent _ _ _ Hg).
    destruct (MAX_RECENT <? length (recent ++ [(message_hash, now)]))%nat
      eqn:Hfull; [|rewrite <- (set_absent _ _ _ Hg); apply get_set_eq].
    destruct recent as [|kv recent']; [discriminate Hfull|].
    simpl oldest_key. rewrite min_entry_snoc. simpl snd at 1.
    assert (Hmin : (snd (min_entry kv recent') <= now)%Z).
    { unfold clock_ahead in Hclock. rewrite Forall_forall in Hclock.
      apply Hclock, min_entry_in. }
    apply Z.ltb_ge in Hmin. rewrite Hmin.
    rewrite get_del_ne.
    + rewrite <- (set_absent _ _ _ Hg). apply get_set_eq.
    + intros Heq. apply get_None_keys in Hg. apply Hg.
      rewrite <- Heq. apply list_elem_of_fmap.
      exists (min_entry kv recent'). split; [done|apply min_entry_in].
Qed.

(** *** The handler *)

Lemma message_hash_identical d1 d2 :
  identical d1 d2 -> message_hash hash d2 = message_hash hash d1.
Proof.
  intros (Hfrom & Hmsg & Hctx). unfold message_hash.
  by rewrite Hfrom, Hmsg, Hctx.
Qed.

(** A message whose hash is cached with a timestamp less than 5 time
    units old is suppressed and changes nothing. *)
Lemma duplicate_suppressed_while_cached now d self last_seen :
  fresh self d ->
  OrderedDict.get (message_hash hash d) (_recent_messages self) = Some last_seen ->
  (now - last_seen < DEDUP_WINDOW)%Z ->
  _handle_natural_conversation hash now d self = (IgnoredDuplicate, self).
Proof.
  intros Hfresh Hget Hwin. unfold _handle_natural_conversation.
  unfold fresh in Hfresh. rewrite Hfresh. unfold dedup. rewrite Hget.
  apply Z.ltb_lt in Hwin. by rewrite Hwin.
Qed.

(** A message whose hash is not cached, or is cached with a timestamp at
    least 5 time units old, is processed. *)
Lemma message_processed_outside_window now d self :
  fresh self d ->
  match OrderedDict.get (message_hash hash d) (_recent_messages self) with
  | Some last_seen => (DEDUP_WINDOW <= now - last_seen)%Z
  | None => True
  end ->
  _handle_natural_conversation hash now d self =
  (Processed,
   {| startup_time := startup_time self;
      _recent_messages :=
        remember (message_hash hash d) now (_recent_messages self) |}).
Proof.
  intros Hfresh Hget. unfold _handle_natural_conversation.
  unfold fresh in Hfresh. rewrite Hfresh. unfold dedup.
  destruct (OrderedDict.get _ _) as [t|]; [|done].
  apply Z.ltb_ge in Hget. by rewrite Hget.
Qed.

Lemma processed_inv now d self self1 :
  _handle_natural_conversation hash now d self = (Processed, self1) ->
  fresh self d /\
  self1 = {| startup_time := startup_time self;
             _recent_messages :=
               remember (message_hash hash d) now (_recent_messages self) |}.
Proof.
  unfold _handle_natural_conversation, fresh, dedup.
  destruct (_ && _); [done|].
  destruct (OrderedDict.get _ _) as [t|].
  - destruct (now - t <? DEDUP_WINDOW)%Z; [done|]. by intros [= <-].
  - by intros [= <-].
Qed.

(** C8 (amended). The first of two structurally identical messages is
    processed at time [now1], on a cache that holds each hash once and at
    most 50 entries, none with a timestamp later than [now1]; the second
    is the next message handled, at time [now2], and is not stamped
    before the start-up of the worker (its timestamp is absent, not
    positive, or not earlier than [startup_time]), so that the filter of
    old queued messages lets it through.  Then the second is suppressed
    and changes nothing when [now2 - now1 < 5], and is processed when
    [now2 - now1 >= 5]; the cache holds each hash once and at most 50
    entries after each message, and when recording the first message
    makes a 51st entry, the entry removed is one with the least
    timestamp. *)
Theorem natural_conversation_duplicates
    (now1 now2 : Z) (d1 d2 : ConversationData) (self self1 : WorkerAgent) :
  well_formed (_recent_messages self) ->
  clock_ahead now1 (_recent_messages self) ->
  identical d1 d2 ->
  fresh self d2 ->
  _handle_natural_conversation hash now1 d1 self = (Processed, self1) ->
  let updated :=
    OrderedDict.set (message_hash hash d1) now1 (_recent_messages self) in
  well_formed (_recent_messages self1) /\
  ((now2 - now1 < 5)%Z ->
   _handle_natural_conversation hash now2 d2 self1 = (IgnoredDuplicate, self1)) /\
  ((5 <= now2 - now1)%Z ->
   exists self2,
     _handle_natural_conversation hash now2 d2 self1 = (Processed, self2) /\
     well_formed (_recent_messages self2)) /\
  (((length updated <= 50)%nat /\ _recent_messages self1 = updated) \/
   ((50 < length updated)%nat /\
    exists k t, (k, t) ∈ updated /\
                (forall kv, kv ∈ updated -> (t <= snd kv)%Z) /\
                _recent_messages self1 = OrderedDict.del k updated)).
Proof.
  intros Hwf Hclock Hid Hfresh2 Hfirst updated.
  apply processed_inv in Hfirst as [Hfresh1 ->].
  cbn [_recent_messages startup_time].
  pose proof (remember_well_formed (message_hash hash d1) now1 _ Hwf) as Hwf1.
  pose proof (remember_keeps_new (message_hash hash d1) now1 _ Hwf Hclock) as Hnew.
  split; [exact Hwf1|]. split; [|split].
  - intros Hwin.
    apply duplicate_suppressed_while_cached with (last_seen := now1);
      [exact Hfresh2| |exact Hwin].
    cbn [_recent_messages]. by rewrite (message_hash_identical d1 d2).
  - intros Hwin. eexists. split.
    + apply message_processed_outside_window; [exact Hfresh2|].
      cbn [_recent_messages]. rewrite (message_hash_identical d1 d2) by done.
      by rewrite Hnew.
    + cbn [_recent_messages]. by apply remember_well_formed.
  - destruct (remember_cases (message_hash hash d1) now1 (_recent_messages self))
      as [[Hle Heq]|[Hgt (k & t & _ & Hin & Hleast & Heq)]].
    + left. by split.
    + right. split; [done|]. by exists k, t.
Qed.

(** *** The cache along a trace *)

Lemma remember_elem message_hash now recent kv :
  kv ∈ remember message_hash now recent ->
  kv = (message_hash, now) \/ kv ∈ recent.
Proof.
  destruct (remember_cases message_hash now recent)
    as [[_ ->]|[_ (k & t & _ & _ & _ & ->)]]; intros Hin.
  - by apply elem_set.
  - by apply elem_set, elem_del with k.
Qed.

(** One message: the cache is left as it is, or updated by [remember]. *)
Lemma handle_natural_conversation_cases now d self :
  let r := _handle_natural_conversation hash now d self in
  startup_time (snd r) = startup_time self /\
  (_recent_messages (snd r) = _recent_messages self \/
   _recent_messages (snd r) =
     remember (message_hash hash d) now (_recent_messages self)).
Proof.
  cbv zeta. unfold _handle_natural_conversation, dedup.
  destruct (_ && _); [by split; [|left]|].
  destruct (OrderedDict.get _ _) as [t|].
  - destruct (now - t <? DEDUP_WINDOW)%Z; cbn [snd]; split; auto.
  - cbn [snd]. split; auto.
Qed.

Lemma handle_all_inv (P : Z * Z -> Prop) inputs : forall self,
  well_formed (_recent_messages self) ->
  Forall P (_recent_messages self) ->
  (forall input, input ∈ inputs ->
                 P (message_hash hash (snd input), fst input)) ->
  let r := handle_all hash inputs self in
  length (fst r) = length inputs /\
  startup_time (snd r) = startup_time self /\
  well_formed (_recent_messages (snd r)) /\
  Forall P (_recent_messages (snd r)).
Proof.
  induction inputs as [|[now d] inputs IH]; intros self Hwf HP Hin; [done|].
  cbn [handle_all].
  destruct (handle_natural_conversation_cases now d self) as [Hstart Hcache].
  destruct (_handle_natural_conversation hash now d self) as [v self1].
  cbn [snd] in Hstart, Hcache.
  assert (Hwf1 : well_formed (_recent_messages self1)).
  { destruct Hcache as [->| ->]; [done|by apply remember_well_formed]. }
  assert (HP1 : Forall P (_recent_messages self1)).
  { destruct Hcache as [->| ->]; [done|].
    apply Forall_forall. intros kv Hkv.
    apply remember_elem in Hkv as [->|Hkv].
    - apply (Hin (now, d)), list_elem_of_here.
    - rewrite Forall_forall in HP. by apply HP. }
  destruct (IH self1 Hwf1 HP1) as (Hlen & Hst & Hwf2 & HP2).
  { intros input Hinput. by apply Hin, list_elem_of_further. }
  destruct (handle_all hash inputs self1) as [vs self2].
  cbn [fst snd length] in *. split; [by rewrite Hlen|].
  split; [by rewrite Hst|done].
Qed.

(** X19. The cache of a worker along any sequence of messages, from
    its start: every message gets a verdict; the start-up time is not
    changed; the cache holds each hash once and never more than 50
    entries; and every entry stems from a message of the sequence, its
    key being the hash of that message and its value the clock at its
    arrival. *)
Theorem handle_all_cache (startup : Z) (inputs : list (Z * ConversationData)) :
  let r :=
    handle_all hash inputs
      {| startup_time := startup; _recent_messages := [] |} in
  length (fst r) = length inputs /\
  startup_time (snd r) = startup /\
  NoDup (OrderedDict.keys (_recent_messages (snd r))) /\
  (length (_recent_messages (snd r)) <= 50)%nat /\
  Forall (fun kv => exists input,
                      input ∈ inputs /\
                      fst kv = message_hash hash (snd input) /\
                      snd kv = fst input)
         (_recent_messages (snd r)).
Proof.
  destruct (handle_all_inv
              (fun kv => exists input,
                           input ∈ inputs /\
                           fst kv = message_hash hash (snd input) /\
                           snd kv = fst input)
              inputs {| startup_time := startup; _recent_messages := [] |})
    as (Hlen & Hstart & [Hnd Hcap] & Hfrom).
  - split; [apply NoDup_nil_2|apply Nat.le_0_l].
  - apply Forall_nil_2.
  - intros input Hin. by exists input.
  - done.
Qed.

(** *** Repeated duplicates *)

(** X20. Duplicates do not extend the window.  A message is processed
    at time [now1], on a cache that holds each hash once and at most 50
    entries, none with a timestamp later than [now1].  The messages that
    follow are structurally identical to it, and none of them is stamped
    before the start-up of the worker (the timestamp is absent, not
    positive, or not earlier than [startup_time]).  Then those handled
    at times less than 5 units after [now1] are all suppressed and leave
    the worker as it is, however many they are; one handled after them
    at 5 units or more after [now1] is processed, also when the last
    suppressed duplicate arrived just before it: the window is counted
    from the message that was processed. *)
Theorem duplicates_do_not_extend_window
    (now1 now2 : Z) (d1 d2 : ConversationData) (self self1 : WorkerAgent)
    (duplicates : list (Z * ConversationData)) :
  well_formed (_recent_messages self) ->
  clock_ahead now1 (_recent_messages self) ->
  _handle_natural_conversation hash now1 d1 self = (Processed, self1) ->
  Forall (fun input => identical d1 (snd input) /\ fresh self (snd input) /\
                       (fst input - now1 < 5)%Z) duplicates ->
  identical d1 d2 -> fresh self d2 -> (5 <= now2 - now1)%Z ->
  handle_all hash duplicates self1 =
    (replicate (length duplicates) IgnoredDuplicate, self1) /\
  fst (_handle_natural_conversation hash now2 d2
         (snd (handle_all hash duplicates self1))) = Processed.
Proof.
  intros Hwf Hclock Hfirst Hdups Hid2 Hfresh2 Hlate.
  apply processed_inv in Hfirst as [Hfresh1 ->].
  set (self1 := {| startup_time := _; _recent_messages := _ |}).
  assert (Hnew : OrderedDict.get (message_hash hash d1) (_recent_messages self1)
                 = Some now1) by by apply remember_keeps_new.
  assert (Hall : handle_all hash duplicates self1 =
                 (replicate (length duplicates) IgnoredDuplicate, self1)).
  { induction Hdups as [|[t d] duplicates (Hid & Hfresh & Hwin) _ IH]; [done|].
    cbn [handle_all length replicate].
    rewrite (duplicate_suppressed_while_cached t d self1 now1);
      [by rewrite IH|exact Hfresh| |exact Hwin].
    by rewrite (message_hash_identical d1 d). }
  split; [exact Hall|]. rewrite Hall. cbn [snd].
  rewrite (message_processed_outside_window now2 d2 self1); [done|exact Hfresh2|].
  rewrite (message_hash_identical d1 d2) by done. by rewrite Hnew.
Qed.

End WorkerFacts.

Lemma natural_conversation_duplicates_witness :
  Worker._handle_natural_conversation Scenarios.length_hash 2
    (Scenarios.note 0)
    (snd (Worker._handle_natural_conversation Scenarios.length_hash 0
            (Scenarios.note 0) Scenarios.fresh_worker)) =
  (Worker.IgnoredDuplicate,
   snd (Worker._handle_natural_conversation Scenarios.length_hash 0
          (Scenarios.note 0) Scenarios.fresh_worker)).
Proof.
  refine (proj1 (proj2 (natural_conversation_duplicates Scenarios.length_hash
                          0 2 (Scenarios.note 0) (Scenarios.note 0)
                          Scenarios.fresh_worker _ _ _ _ _ _)) _).
  - split; [apply NoDup_nil_2 | apply Nat.le_0_l].
  - apply Forall_nil_2.
  - repeat split.
  - reflexivity.
  - reflexivity.
  - reflexivity.
Defined.

(** C8, as stated, fails when the cache evicts the entry in between: the
    note sent at time 0 is processed; fifty other notes follow at time 1;
    the same note sent again at time 2, within 5 time units of the first,
    is processed a second time. *)
Lemma natural_conversation_burst_counterexample :
  Worker.identical (Scenarios.note 0) (Scenarios.note 0) /\
  fst (Worker.handle_all Scenarios.length_hash Scenarios.burst
         Scenarios.fresh_worker) =
  Worker.Processed :: replicate 50 Worker.Processed ++ [Worker.Processed].
Proof. split; [repeat split|]. vm_compute. reflexivity. Qed.

(** ** Actions and the delegation of subtasks *)

Section BaseFacts.
Import Py Base.

Lemma unique_id (actions : list Action) (a a' : Action) id :
  NoDup (omap action_id actions) ->
  a ∈ actions -> a' ∈ actions ->
  action_id a = Some id -> action_id a' = Some id -> a = a'.
Proof.
  induction actions as [|x actions IH]; intros Hnd Ha Ha' Hid Hid'.
  - by apply elem_of_nil in Ha.
  - assert (Hin : forall y, y ∈ actions -> action_id y = Some id ->
                            id ∈ omap action_id actions).
    { intros y Hy Hyid. apply list_elem_of_omap. by exists y. }
    cbn [omap list_omap] in Hnd.
    apply elem_of_cons in Ha as [->|Ha];
      apply elem_of_cons in Ha' as [->|Ha']; [done| | |].
    + rewrite Hid in Hnd. apply NoDup_cons in Hnd as [Hx _].
      exfalso. by eapply Hx, Hin.
    + rewrite Hid' in Hnd. apply NoDup_cons in Hnd as [Hx _].
      exfalso. by eapply Hx, Hin.
    + apply IH; [|done..]. destruct (action_id x); [|done].
      by apply NoDup_cons in Hnd as [_ Hnd].
Qed.

(** X13. [has_action] and [get_action].  When [has_action] holds,
    [get_action] returns an action of the list carrying the id; when
    [get_action] returns nothing, [has_action] fails; an enabled action
    returned by [get_action] makes [has_action] hold.  When the ids of
    the list are distinct, the action returned by [get_action] for an id
    that [has_action] accepts is enabled; with a repeated id it need not
    be, since [get_action] stops at the first action with the id and
    [has_action] at the first enabled one. *)
Theorem has_action_get_action (actions : list Action) (id : string) :
  (has_action actions id = true ->
   exists action, get_action actions id = Some action /\
                  action ∈ actions /\ action_id action = Some id) /\
  (get_action actions id = None -> has_action actions id = false) /\
  (forall action, get_action actions id = Some action ->
                  default true (enabled action) = true ->
                  has_action actions id = true) /\
  (NoDup (omap action_id actions) ->
   forall action, has_action actions id = true ->
                  get_action actions id = Some action ->
                  default true (enabled action) = true).
Proof.
  unfold has_action, get_action.
  assert (Hhas : existsb (fun action =>
                    bool_decide (action_id action = Some id) &&
                    default true (enabled action)) actions = true ->
                 exists action, List.find
                   (fun action => bool_decide (action_id action = Some id))
                   actions = Some action /\
                   action ∈ actions /\ action_id action = Some id).
  { intros Hex. apply List.existsb_exists in Hex as (a & Ha & Hcond).
    apply andb_true_iff in Hcond as [Hid _].
    destruct (List.find _ actions) as [a'|] eqn:Hfind.
    - apply List.find_some in Hfind as [Hin' Hid'].
      apply bool_decide_eq_true in Hid'. exists a'.
      split; [done|]. split; [by apply list_elem_of_In|done].
    - by rewrite (List.find_none _ _ Hfind a Ha) in Hid. }
  split; [exact Hhas|]. split; [|split].
  - intros Hnone. destruct (existsb _ actions) eqn:Hex; [|done].
    destruct (Hhas eq_refl) as (a & Hfind & _). congruence.
  - intros a Hfind Hen. apply List.find_some in Hfind as [Hin Hid].
    apply List.existsb_exists. exists a. split; [done|]. by rewrite Hid, Hen.
  - intros Hnd a Hex Hfind.
    apply List.existsb_exists in Hex as (a' & Ha' & Hcond).
    apply andb_true_iff in Hcond as [Hid' Hen'].
    apply bool_decide_eq_true in Hid'.
    apply List.find_some in Hfind as [Ha Hid].
    apply bool_decide_eq_true in Hid.
    assert (a = a') as ->; [|done].
    eapply unique_id; [done| | |done..]; by apply list_elem_of_In.
Qed.

(** *** The delegation loop *)

Lemma selected_elem names i j : names <> [] -> selected names i j ∈ names.
Proof.
  intros Hne. unfold selected.
  assert (Hlt : ((i + j) mod length names < length names)%nat).
  { apply Nat.mod_upper_bound. destruct names; [done|]. simpl. lia. }
  destruct (lookup_lt_is_Some_2 names _ Hlt) as [x Hx].
  rewrite Hx. by eapply list_elem_of_lookup_2.
Qed.

Lemma selected_S names i j :
  selected names ((i + 1) mod length names) j = selected names i (S j).
Proof.
  unfold selected. rewrite Nat.Div0.add_mod_idemp_l.
  do 3 f_equal. lia.
Qed.

Lemma after_delegations_nil self reply :
  after_delegations self reply (discovery self) [] = self.
Proof.
  unfold after_delegations. destruct self. cbn. by rewrite !app_nil_r.
Qed.

Lemma after_delegations_app self reply d1 d2 e1 e2 :
  after_delegations (after_delegations self reply d1 e1) reply d2 e2 =
  after_delegations self reply d2 (e1 ++ e2).
Proof.
  unfold after_delegations.
  cbn [name inbox_topic available_agents discovery collaboration_history outbox].
  f_equal; [by rewrite app_assoc|]. by rewrite map_app, app_assoc.
Qed.

Lemma delegate_task_entry agent_name task_data reply d self :
  snd (delegate_task agent_name task_data reply (set_discovery d self)) =
  after_delegations self reply d
    (match OrderedDict.get agent_name (available_agents self) with
     | Some _ => [(agent_name, task_data)]
     | None => []
     end).
Proof.
  unfold delegate_task. cbn [available_agents set_discovery].
  destruct (OrderedDict.get agent_name (available_agents self)); cbn [snd].
  - reflexivity.
  - unfold after_delegations, set_discovery. cbn [map].
    by rewrite !app_nil_r.
Qed.

(** The loop in one piece, under the rotation. *)
Lemma delegate_loop_spec complex_task reply total fetched subtasks :
  forall i j0 assignments self,
  let names := Discovery.available_agents (discovery self) in
  names <> [] -> "" ∉ names ->
  default 0%nat (Discovery._last_assigned_agent_index (discovery self)) = i ->
  (i < length names)%nat ->
  exists d,
    Discovery.available_agents d = names /\
    delegate_loop complex_task reply total fetched j0 subtasks assignments self =
    (Discovery.Returned (assignments ++ assignment_lines names i subtasks),
     after_delegations self reply d
       (delegation_entries (available_agents self) complex_task total names
          i j0 subtasks)).
Proof.
  induction subtasks as [|subtask rest IH];
    intros i j0 assignments self names Hne Hempty Hidx Hlt.
  - exists (discovery self). split; [done|]. cbn [delegate_loop].
    unfold assignment_lines, delegation_entries. cbn [imap omap list_omap].
    by rewrite app_nil_r, after_delegations_nil.
  - cbn [delegate_loop].
    rewrite (find_agent_step (fetched j0) (discovery self) i Hne Hidx Hlt).
    fold names.
    destruct (lookup_lt_is_Some_2 names i Hlt) as [x Hx]. rewrite Hx.
    assert (Hxin : x ∈ names) by by eapply list_elem_of_lookup_2.
    assert (Hxne : x <> "") by (intros ->; done).
    assert (Htruthy : truthy (Some x) = true).
    { cbn [truthy]. by rewrite bool_decide_false. }
    rewrite Htruthy. cbn [default from_option id].
    set (d1 := {| Discovery.available_agents := names;
                  Discovery._last_assigned_agent_index := _ |}).
    rewrite delegate_task_entry.
    set (e0 := match OrderedDict.get x (available_agents self) with
               | Some _ => _ | None => [] end).
    set (self1 := after_delegations self reply d1 e0).
    destruct (IH ((i + 1) mod length names)%nat (S j0)
                (assignments ++
                 [Assigned x (subtask_agent_type subtask)
                           (task_preview (subtask_task subtask))])
                self1) as (d & Hd & Hloop); [done|done|done| |].
    { apply Nat.mod_upper_bound. destruct names; [done|]. simpl. lia. }
    exists d. split; [exact Hd|]. rewrite Hloop.
    change (Discovery.available_agents (discovery self1)) with names.
    change (available_agents self1) with (available_agents self).
    assert (Hsel0 : selected names i 0 = x).
    { unfold selected. rewrite Nat.add_0_r, Nat.mod_small by done.
      by rewrite Hx. }
    f_equal.
    + f_equal. rewrite <- app_assoc. f_equal.
      unfold assignment_lines. rewrite imap_cons, Hsel0. cbn [app]. f_equal.
      apply imap_ext. intros j st _. cbn. by rewrite selected_S.
    + subst self1. rewrite after_delegations_app. f_equal.
      unfold delegation_entries. rewrite imap_cons. cbn [omap list_omap].
      rewrite Hsel0, Nat.add_0_r. unfold delegation_entry at 2.
      assert (Heq : omap id
                (imap (fun j st =>
                         delegation_entry (available_agents self) complex_task
                           total (selected names ((i + 1) mod length names) j)
                           (S j0 + j) st) rest) =
              omap id
                (imap ((fun j st =>
                          delegation_entry (available_agents self) complex_task
                            total (selected names i j) (j0 + j) st) ∘ S) rest)).
      { f_equal. apply imap_ext. intros j st _. cbn.
        rewrite selected_S. do 2 f_equal. lia. }
      rewrite Heq. subst e0.
      by destruct (OrderedDict.get x (available_agents self)).
Qed.

(** X14. The delegation of the subtasks, with a reply topic, at least
    one subtask, and a selector that knows [k >= 1] agents, none with
    the empty name, and stands at the index [i < k].  The call returns
    [True] without raising.  The subtask at index [j] is assigned to the
    agent at position [(i + j) mod k], and is delegated to it exactly
    when that agent is a key of [available_agents]: the message goes to
    the inbox of the agent and carries the index [j], the number of
    subtasks and the original task, and the history records it.  The
    summary lists every subtask as assigned and the last message says
    that all of them were delegated, also for the subtasks whose agent
    was not available.  When every agent of the selector is available,
    all subtasks are delegated; when none is, nothing is delegated. *)
Theorem delegate_subtasks_round_robin
    (complex_task topic : string) (fetched : nat -> option (list string))
    (subtasks : list Decomposer.Subtask) (self : BaseAgent) (i : nat) :
  let names := Discovery.available_agents (discovery self) in
  let total := length subtasks in
  let entries :=
    delegation_entries (available_agents self) complex_task total names i 0
                       subtasks in
  topic <> "" -> subtasks <> [] -> names <> [] -> "" ∉ names ->
  default 0%nat (Discovery._last_assigned_agent_index (discovery self)) = i ->
  (i < length names)%nat ->
  exists self',
    delegate_subtasks complex_task (Some topic) fetched subtasks self =
      (Discovery.Returned true, self') /\
    collaboration_history self' = collaboration_history self ++ entries /\
    outbox self' =
      outbox self ++ map (delegation_sent self (Some topic)) entries ++
      [(topic, DelegatingTasks total (assignment_lines names i subtasks));
       (topic, AllTasksDelegated total)] /\
    available_agents self' = available_agents self /\
    Discovery.available_agents (discovery self') = names /\
    (Forall (fun n => is_Some (OrderedDict.get n (available_agents self))) names ->
     entries = imap (fun j subtask =>
                       (selected names i j,
                        task_data_of complex_task total j subtask))
                    subtasks) /\
    (Forall (fun n => OrderedDict.get n (available_agents self) = None) names ->
     entries = []).
Proof.
  intros names total entries Htopic Hsub Hne Hempty Hidx Hlt.
  destruct (delegate_loop_spec complex_task (Some topic) total fetched subtasks
              i 0%nat [] self Hne Hempty Hidx Hlt) as (d & Hd & Hloop).
  unfold delegate_subtasks. destruct subtasks as [|st rest]; [done|].
  rewrite bool_decide_false by done.
  fold total. rewrite Hloop. fold names. fold entries. cbn [app].
  eexists. split; [reflexivity|].
  cbn [send_message after_delegations collaboration_history outbox
       available_agents discovery].
  split; [done|]. split; [by rewrite <- !app_assoc|]. split; [done|].
  split; [exact Hd|]. split.
  - intros Hall. subst entries. unfold delegation_entries.
    assert (Hsome : forall l : list Decomposer.Subtask, forall f g,
              (forall j st, f j st = Some (g j st)) ->
              omap id (imap f l) = imap g l :> list (string * TaskData)).
    { induction l as [|x l IHl]; intros f g Hfg; [done|].
      rewrite !imap_cons. cbn [omap list_omap]. rewrite Hfg. cbn.
      f_equal. apply IHl. intros j st'. apply Hfg. }
    apply Hsome. intros j st'. unfold delegation_entry.
    rewrite Forall_forall in Hall.
    destruct (Hall (selected names i j) (selected_elem names i j Hne))
      as [v Hv].
    by rewrite Hv.
  - intros Hnone. subst entries. unfold delegation_entries.
    assert (Hno : forall l : list Decomposer.Subtask,
              forall f : nat -> Decomposer.Subtask -> option (string * TaskData),
              (forall j st, f j st = None) -> omap id (imap f l) = []).
    { induction l as [|x l IHl]; intros f Hf; [done|].
      rewrite imap_cons. cbn [omap list_omap]. rewrite Hf. cbn.
      apply IHl. intros j st'. apply Hf. }
    apply Hno. intros j st'. unfold delegation_entry.
    rewrite Forall_forall in Hnone.
    by rewrite (Hnone (selected names i j) (selected_elem names i j Hne)).
Qed.

End BaseFacts.

(** ** Instances on the concrete runs *)

Lemma cleanup_timed_out_collaborations_partition_witness :
  Collaboration._cleanup_timed_out_collaborations Scenarios.service_down 131
    Scenarios.waiting_for_bob =
  {| Collaboration.active_collaborations := [];
     Collaboration.pending_responses := [];
     Collaboration.outbox :=
       [("u", Collaboration.TimedOutProcessing 1);
        ("u", Collaboration.SingleResponse "alice" "ra")] |}.
Proof.
  rewrite (cleanup_timed_out_collaborations_partition Scenarios.service_down
             131 Scenarios.waiting_for_bob); [reflexivity|].
  apply NoDup_singleton.
Defined.

Lemma handle_agent_response_keeps_adhoc_entries_witness :
  is_Some
    (OrderedDict.get "A_0"
       (Collaboration.pending_responses
          (Collaboration._handle_agent_response Scenarios.service_up 0
             Scenarios.alice_adhoc Scenarios.fresh_assistant))).
Proof.
  eexists.
  apply (handle_agent_response_keeps_adhoc_entries Scenarios.service_up 0
           Scenarios.alice_adhoc Scenarios.fresh_assistant "A_0").
  - discriminate.
  - vm_compute. reflexivity.
  - reflexivity.
Defined.

Lemma all_subtasks_complete_exact_witness :
  Collaboration.all_subtasks_complete Scenarios.two_entries 2 = true <->
  (forall i, (0 <= i < 2)%Z ->
             i ∈ Collaboration.found_indices Scenarios.two_entries).
Proof.
  apply (all_subtasks_complete_exact Scenarios.two_entries 2).
  intros i Hi. apply found_indices_elem in Hi as [_ (kv & Hin & <-)].
  apply list_elem_of_In in Hin. vm_compute in Hin.
  destruct Hin as [<-|[<-|[]]]; reflexivity.
Defined.

Lemma collaborate_with_agents_delegates_witness :
  OrderedDict.get (Collaboration.collaboration_key "A" "u")
    (Collaboration.active_collaborations Scenarios.delegated) =
  Some (Collaboration.new_session 100 "A" "u" Scenarios.two_agents).
Proof.
  refine (proj1 (collaborate_with_agents_delegates Scenarios.two_agents 100
                   "A" ["alice"; "bob"] "u" Scenarios.fresh_assistant _ _));
    discriminate.
Defined.

Lemma collaborate_with_agents_unavailable_witness :
  Collaboration.active_collaborations Scenarios.request_for_carol = [] /\
  last (Collaboration.outbox Scenarios.request_for_carol) =
    Some ("u", Collaboration.NoAgentAvailable).
Proof.
  pose proof (collaborate_with_agents_unavailable Scenarios.two_agents 100
                "A" ["carol"] "u" Scenarios.fresh_assistant
                (or_intror eq_refl)) as (Hactive & _ & _ & _ & _ & Hlast).
  split; [exact Hactive|exact Hlast].
Defined.

Lemma collaboration_completes_once_witness :
  OrderedDict.get (Collaboration.collaboration_key "A" "u")
    (Collaboration.active_collaborations
       (Collaboration.feed Scenarios.service_down Scenarios.adhoc_task "u"
          [("bob", "rb"); ("bob", "again")] Scenarios.waiting_for_bob)) = None.
Proof.
  pose proof (collaboration_completes_once Scenarios.service_down
                Scenarios.adhoc_task "u" [("bob", "rb"); ("bob", "again")]
                Scenarios.waiting_for_bob Scenarios.one_response_session
                eq_refl ltac:(discriminate)) as (_ & _ & _ & Hcase).
  match type of Hcase with
  | if ?b then _ else _ =>
      assert (Hb : b = true) by (vm_compute; reflexivity);
      rewrite Hb in Hcase
  end.
  exact (proj1 Hcase).
Defined.

Lemma handle_agent_response_removes_timed_out_witness :
  OrderedDict.get (Collaboration.collaboration_key "A" "u")
    (Collaboration.active_collaborations
       (Collaboration._handle_agent_response Scenarios.service_down 131
          Scenarios.bob_second Scenarios.waiting_for_bob)) = None.
Proof.
  apply (handle_agent_response_removes_timed_out Scenarios.service_down 131
           Scenarios.bob_second Scenarios.waiting_for_bob _
           Scenarios.one_response_session); reflexivity.
Defined.

Lemma synthesize_responses_reports_failure_witness :
  exists n,
    Collaboration.emitted
      (Collaboration.record_response Scenarios.bob_second
         Scenarios.fresh_assistant)
      (Collaboration._synthesize_responses Scenarios.service_down "Q"
         (Collaboration.record_response Scenarios.bob_second
            Scenarios.fresh_assistant)) =
    [("u", Collaboration.SynthesizingAll n);
     ("u", Collaboration.SynthesisFailed)].
Proof.
  apply (synthesize_responses_reports_failure Scenarios.service_down "Q"
           (Collaboration.record_response Scenarios.bob_second
              Scenarios.fresh_assistant)
           "B_1" Scenarios.bob_second_entry []).
  - vm_compute. reflexivity.
  - reflexivity.
Defined.

Lemma find_agent_for_task_round_robin_witness :
  fst (Discovery.find_agents [None; None; None] Discovery.three_agents) =
  [Discovery.Returned (Some "planner"); Discovery.Returned (Some "writer");
   Discovery.Returned (Some "reviewer")].
Proof.
  refine (proj2 (proj2 (proj2
            (find_agent_for_task_round_robin [None; None; None]
               Discovery.three_agents 0 _ _ _))) _).
  - discriminate.
  - reflexivity.
  - repeat constructor.
  - reflexivity.
Defined.

Lemma delegate_subtasks_round_robin_witness :
  fst (Base.delegate_subtasks "compare the two designs" (Some "u")
         (fun _ => None) Scenarios.plan Scenarios.coordinator) =
  Discovery.Returned true.
Proof.
  destruct (delegate_subtasks_round_robin "compare the two designs" "u"
              (fun _ => None) Scenarios.plan Scenarios.coordinator 0)
    as (self' & Hrun & _).
  - discriminate.
  - discriminate.
  - discriminate.
  - intros Hin. apply list_elem_of_In in Hin. vm_compute in Hin.
    destruct Hin as [H|[H|[H|[]]]]; discriminate H.
  - reflexivity.
  - repeat constructor.
  - by rewrite Hrun.
Defined.

Lemma extract_mentions_ignores_addresses_witness :
  Routing.extract_mentions ["b"] "a@b" = ([], "a@b").
Proof.
  apply (extract_mentions_ignores_addresses ["b"] "a@b").
  intros [|x [|y [|z [|u before]]]] after Heq; simplify_eq/=.
  by exists "a"%char.
Defined.

Lemma extract_mentions_none_registered_witness :
  Routing.extract_mentions ["bob"] "@unknown hi" = ([], "@unknown hi").
Proof.
  apply (extract_mentions_none_registered ["bob"] "@unknown hi").
  apply Forall_cons_2; [|apply Forall_nil_2].
  intros Hin. apply list_elem_of_In in Hin. vm_compute in Hin.
  destruct Hin as [H|[]]. discriminate H.
Defined.

Lemma duplicates_do_not_extend_window_witness :
  Worker.handle_all Scenarios.length_hash
    [(1%Z, Scenarios.note 0); (4%Z, Scenarios.note 0)]
    (snd (Worker._handle_natural_conversation Scenarios.length_hash 0
            (Scenarios.note 0) Scenarios.fresh_worker)) =
  ([Worker.IgnoredDuplicate; Worker.IgnoredDuplicate],
   snd (Worker._handle_natural_conversation Scenarios.length_hash 0
          (Scenarios.note 0) Scenarios.fresh_worker)).
Proof.
  refine (proj1 (duplicates_do_not_extend_window Scenarios.length_hash 0 5
                   (Scenarios.note 0) (Scenarios.note 0)
                   Scenarios.fresh_worker _
                   [(1%Z, Scenarios.note 0); (4%Z, Scenarios.note 0)]
                   _ _ _ _ _ _ _)).
  - split; [apply NoDup_nil_2|apply Nat.le_0_l].
  - apply Forall_nil_2.
  - reflexivity.
  - repeat apply Forall_cons_2; try apply Forall_nil_2;
      (split; [by repeat split|split; [reflexivity|reflexivity]]).
  - by repeat split.
  - reflexivity.
  - discriminate.
Defined.

Lemma decompose_task_fallback_shape_witness :
  map Decomposer.priority_of
    (fst (Decomposer.decompose_task (fun _ => None) true
            (Decomposer.Answered None) [] [] "research the market")) =
  [Some 5%Z].
Proof.
  refine (proj1 (decompose_task_fallback_shape (fun _ => None)
                   (Decomposer.Answered None) [] [] "research the market" _)).
  reflexivity.
Defined.

Lemma handle_agent_responses_complete_session_witness :
  OrderedDict.get (Collaboration.collaboration_key "A" "u")
    (Collaboration.active_collaborations
       (Collaboration.handle_responses Scenarios.service_down
          [(110%Z, Scenarios.alice_adhoc); (120%Z, Scenarios.bob_adhoc)]
          Scenarios.delegated)) = None.
Proof.
  etransitivity.
  { apply (handle_agent_responses_complete_session Scenarios.service_down
             [(110%Z, Scenarios.alice_adhoc); (120%Z, Scenarios.bob_adhoc)]
             Scenarios.delegated
             (Collaboration.new_session 100 "A" "u" Scenarios.two_agents)
             "A" "u").
    - apply collaborate_ok.
      split; [apply NoDup_nil_2|]. split; [apply NoDup_nil_2|apply Forall_nil_2].
    - reflexivity.
    - repeat apply Forall_cons_2; try apply Forall_nil_2;
        (split; [split; reflexivity|reflexivity]). }
  match goal with
  | |- (if ?b then _ else _) = _ =>
      assert (Hb : b = true) by (vm_compute; reflexivity);
      by rewrite Hb
  end.
Defined.

